(** * EfficientNet weight conversion: [pretrained/load_tf_weights.py]

    A shallow embedding of the two functions of the script, [load_param]
    and [load_efficientnet], together with the small part of numpy that
    they rely on ([np.transpose] on C-ordered arrays), Python's [str]
    substring tests, and Python's insertion-ordered [dict].

    Layout: Part I holds the definitions, Part II the supporting lemmas,
    Part III the properties of the loader and of the table builder,
    Part IV further properties of the script. *)

From Stdlib Require Import String Ascii List Arith Bool Lia PeanoNat Setoid.
From Stdlib Require DecimalString.
Import ListNotations.

(* ================================================================== *)
(** * Part I: definitions *)
(* ================================================================== *)

(** ** Python string operations used by the loader *)

Module Str.
Local Open Scope string_scope.

(** [sub in s]: some tail of [s] starts with [sub]. *)
Fixpoint contains (sub s : string) : bool :=
  String.prefix sub s ||
  match s with
  | EmptyString => false
  | String _ s' => contains sub s'
  end.

(** [s.endswith(suffix)]: some tail of [s] is [suffix] itself. *)
Fixpoint endswith (s suffix : string) : bool :=
  String.eqb s suffix ||
  match s with
  | EmptyString => false
  | String _ s' => endswith s' suffix
  end.

(** [c] occurs nowhere in [s]. *)
Fixpoint avoids (c : ascii) (s : string) : bool :=
  match s with
  | EmptyString => true
  | String x s' => negb (Ascii.eqb x c) && avoids c s'
  end.

(** [str(i)] for a non-negative integer: its decimal numeral. *)
Definition str (i : nat) : string :=
  DecimalString.NilEmpty.string_of_uint (Nat.to_uint i).
End Str.

(** ** numpy arrays in C order *)

Module Np.

(** The element types a variable of a checkpoint is taken to have: the
    floating-point and integer types that TensorFlow, numpy and PyTorch
    all know, and [bfloat16], which numpy knows only as TensorFlow's
    extension type and PyTorch does not take from numpy. *)
Inductive scalar_type : Type :=
| float16 | float32 | float64
| int8 | int16 | int32 | int64 | uint8
| bfloat16.

(** The dtype is one of the floating-point types. *)
Definition is_floating_point (d : scalar_type) : bool :=
  match d with
  | float16 | float32 | float64 | bfloat16 => true
  | int8 | int16 | int32 | int64 | uint8 => false
  end.

(** [torch.from_numpy] has a tensor type for the dtype. *)
Definition has_torch_dtype (d : scalar_type) : bool :=
  match d with
  | bfloat16 => false
  | _ => true
  end.

Section Arrays.
Context {A : Type}.

(** An array is its shape, its elements laid out row-major, and its
    dtype.  A numpy scalar, which is what [tf.train.load_variable] hands
    back for a variable without dimensions, is the array of shape [()]:
    it answers [.shape] and [np.transpose] as that array does. *)
Record ndarray : Type :=
  mk_ndarray { shape : list nat; data : list A; dtype : scalar_type }.

(** [a.ndim] *)
Definition ndim (a : ndarray) : nat := length (shape a).

(** Number of elements an array of shape [sh] holds. *)
Definition numel (sh : list nat) : nat := fold_right Nat.mul 1 sh.

(** Every numpy array has as many elements as its shape says. *)
Definition wf (a : ndarray) : Prop := length (data a) = numel (shape a).

(** Flat offset of a multi-index, [None] when out of bounds or of the
    wrong rank. *)
Fixpoint ravel (sh idx : list nat) : option nat :=
  match sh, idx with
  | [], [] => Some 0
  | n :: sh', i :: idx' =>
      if i <? n
      then option_map (fun r => i * numel sh' + r) (ravel sh' idx')
      else None
  | _, _ => None
  end.

(** Multi-index of a flat offset. *)
Fixpoint unravel (sh : list nat) (k : nat) : list nat :=
  match sh with
  | [] => []
  | _ :: sh' => (k / numel sh') :: unravel sh' (k mod numel sh')
  end.

(** [a[idx]] *)
Definition get (a : ndarray) (idx : list nat) : option A :=
  match ravel (shape a) idx with
  | Some k => nth_error (data a) k
  | None => None
  end.

(** [axes] is accepted by [np.transpose] for an array of rank [n]:
    it has [n] entries and names every axis below [n]. *)
Definition is_axes (n : nat) (axes : list nat) : bool :=
  (length axes =? n) &&
  forallb (fun s => existsb (Nat.eqb s) axes) (seq 0 n).

(** Position of axis [s] in [axes]. *)
Fixpoint index_of (s : nat) (axes : list nat) : nat :=
  match axes with
  | [] => 0
  | x :: axes' => if x =? s then 0 else S (index_of s axes')
  end.

(** Shape of the transposed array: axis [t] of the result is axis
    [axes[t]] of the operand. *)
Definition permute_shape (axes sh : list nat) : list nat :=
  map (fun ax => nth ax sh 0) axes.

(** The operand index [i] read at result index [j]: [i[axes[t]] = j[t]]. *)
Definition source_index (axes j : list nat) : list nat :=
  map (fun s => nth (index_of s axes) j 0) (seq 0 (length axes)).

(** The elements an index yields: one when it is in bounds, none
    otherwise. *)
Definition opt_list (o : option A) : list A :=
  match o with Some x => [x] | None => [] end.

(** The array [np.transpose] returns: the permuted shape, at each
    offset of the result, taken in row-major order, the operand's element
    at the source index of that offset, and the operand's dtype. *)
Definition permute (axes : list nat) (a : ndarray) : ndarray :=
  let sh' := permute_shape axes (shape a) in
  mk_ndarray sh'
    (flat_map (fun k => opt_list (get a (source_index axes (unravel sh' k))))
              (seq 0 (numel sh')))
    (dtype a).

(** [np.transpose(a, axes)]; [None] stands for the [ValueError] numpy
    raises when [axes] does not match the rank of [a]. *)
Definition transpose (a : ndarray) (axes : list nat) : option ndarray :=
  if is_axes (ndim a) axes then Some (permute axes a) else None.

(** [np.transpose(a)]: the axes reversed, for any rank. *)
Definition transpose_default (a : ndarray) : ndarray :=
  permute (rev (seq 0 (ndim a))) a.

(** The permutation undoing [axes] ([np.argsort(axes)]). *)
Definition inverse_axes (axes : list nat) : list nat :=
  map (fun s => index_of s axes) (seq 0 (length axes)).

(** [idx] is a valid index into an array of shape [sh]. *)
Definition in_bounds (sh idx : list nat) : Prop := Forall2 lt idx sh.
End Arrays.
Arguments ndarray : clear implicits.
End Np.

(** ** Python dictionaries: insertion-ordered, one entry per key

    [load_param] walks the table in the order of [items()], which is the
    order in which the keys were first written, so a dict is kept as the
    list of its entries in that order. *)

Module Dict.
Section Dict.
Context {K V : Type}.
Variable K_eq_dec : forall x y : K, {x = y} + {x <> y}.

Definition dict : Type := list (K * V).

(** [d[k] = v]: overwrite in place, or append a new entry. *)
Fixpoint set (d : dict) (k : K) (v : V) : dict :=
  match d with
  | [] => [(k, v)]
  | (k', v') :: d' =>
      if K_eq_dec k k' then (k', v) :: d' else (k', v') :: set d' k v
  end.

Fixpoint lookup (d : dict) (k : K) : option V :=
  match d with
  | [] => None
  | (k', v') :: d' => if K_eq_dec k k' then Some v' else lookup d' k
  end.

(** A dict display [{k1: v1, ..., kn: vn}], evaluated left to right. *)
Definition of_items (items : list (K * V)) : dict :=
  fold_left (fun d kv => set d (fst kv) (snd kv)) items [].

(** [{**d1, **d2}] *)
Definition merge (d1 d2 : dict) : dict := of_items (d1 ++ d2).

Definition keys (d : dict) : list K := map fst d.

(** No key of [items] is written with two different values. *)
Definition functional (items : list (K * V)) : Prop :=
  forall k v1 v2, In (k, v1) items -> In (k, v2) items -> v1 = v2.
End Dict.
End Dict.

(** ** Exceptions the script can raise

    [NotFoundError]: [tf.train.load_variable] finds no variable of that
    name in the checkpoint.  [ValueError]: [np.transpose] is given axes
    that do not match the array.  [AssertionError]: the assertion of line
    38 fails; it carries the three arguments of its message
    ['Dim Mismatch: %s vs %s ; %s'], the target's size, the converted
    array's shape and the full variable name.  [TypeError]:
    [torch.from_numpy] is given something it cannot turn into a tensor.
    [RuntimeError]: a tensor that requires gradients is given data that
    is not floating point.  [IndexError]: [model._blocks[0]] on a model
    without blocks. *)

Inductive exn : Type :=
| NotFoundError (name : string)
| ValueError
| AssertionError (pyt_size tf_shape : list nat) (name : string)
| TypeError
| RuntimeError
| IndexError.

(** ** [load_param] *)

Module Loader.
Import Np.
Section Loader.
Local Open Scope string_scope.
Context {A K : Type}.
Variable K_eq_dec : forall x y : K, {x = y} + {x <> y}.

(** [pyt_param.requires_grad], for each tensor object of the model. *)
Variable requires_grad : K -> bool.

(** The checkpoint file, taken to exist and to be readable, as
    [tf.train.load_variable] answers for it: the array stored under a
    name, or nothing when the file has no variable of that name. *)
Definition checkpoint : Type := string -> option (ndarray A).

(** The live tensors of the model: what each tensor object holds. *)
Definition store : Type := K -> ndarray A.

(** The tensor object [pyt_param] now holds [v]; every other tensor
    holds what it held. *)
Definition assign (st : store) (pyt_param : K) (v : ndarray A) : store :=
  fun k => if K_eq_dec k pyt_param then v else st k.

(** [torch.from_numpy(tf_param)]: refused for a numpy scalar, which is
    not an array, and for an array of a dtype PyTorch has no tensor type
    for; otherwise a tensor of the same shape, elements and dtype. *)
Definition from_numpy (tf_param : ndarray A) : exn + ndarray A :=
  if Nat.eqb (ndim tf_param) 0 || negb (has_torch_dtype (dtype tf_param))
  then inl TypeError
  else inr tf_param.

(** [pyt_param.data = v]: refused, with the tensor left as it was, when
    the tensor requires gradients and [v] is not floating point. *)
Definition set_data (st : store) (pyt_param : K) (v : ndarray A)
  : store * option exn :=
  if requires_grad pyt_param && negb (is_floating_point (dtype v))
  then (st, Some RuntimeError)
  else (assign st pyt_param v, None).

(** Line 40: [pyt_param.data = torch.from_numpy(tf_param)]. *)
Definition copy (st : store) (pyt_param : K) (tf_param : ndarray A)
  : store * option exn :=
  match from_numpy tf_param with
  | inl e => (st, Some e)
  | inr v => set_data st pyt_param v
  end.

(** [pyt_param.size() == tf_param.shape], a comparison of tuples. *)
Fixpoint tuple_eqb (s1 s2 : list nat) : bool :=
  match s1, s2 with
  | [], [] => true
  | x :: s1', y :: s2' => Nat.eqb x y && tuple_eqb s1' s2'
  | _, _ => false
  end.

(** Lines 32-37: the layout change chosen from the variable's name. *)
Definition convert (tf_param_name : string) (tf_param : ndarray A)
  : exn + ndarray A :=
  if Str.contains "conv" tf_param_name && Str.contains "kernel" tf_param_name
  then
    match transpose tf_param [3; 2; 0; 1] with
    | None => inl ValueError
    | Some tf_param =>
        if Str.contains "depthwise" tf_param_name
        then match transpose tf_param [1; 0; 2; 3] with
             | None => inl ValueError
             | Some tf_param => inr tf_param
             end
        else inr tf_param
    end
  else if Str.endswith tf_param_name "kernel"
  then inr (transpose_default tf_param)
  else inr tf_param.

(** Lines 30-40: the body of the loop, for one entry of the table.
    The store that comes back is the state of the model when the body
    finishes or raises. *)
Definition load_entry (ck : checkpoint) (model_name : string)
    (st : store) (entry : K * string) : store * option exn :=
  let (pyt_param, tf_param_name) := entry in
  let tf_param_name := model_name ++ "/" ++ tf_param_name in
  match ck tf_param_name with
  | None => (st, Some (NotFoundError tf_param_name))
  | Some tf_param =>
      match convert tf_param_name tf_param with
      | inl e => (st, Some e)
      | inr tf_param =>
          if tuple_eqb (shape (st pyt_param)) (shape tf_param)
          then copy st pyt_param tf_param
          else (st, Some (AssertionError (shape (st pyt_param))
                                         (shape tf_param) tf_param_name))
      end
  end.

(** Lines 29-40: the loop over [conversion_table.items()]. *)
Fixpoint load_param (ck : checkpoint) (conversion_table : list (K * string))
    (model_name : string) (st : store) : store * option exn :=
  match conversion_table with
  | [] => (st, None)
  | entry :: rest =>
      match load_entry ck model_name st entry with
      | (st', None) => load_param ck rest model_name st'
      | (st', Some e) => (st', Some e)
      end
  end.

(** The four ways line 32-37 can treat a variable. *)
Inductive branch : Type :=
| ConvKernel | DepthwiseKernel | DenseKernel | Plain.

(** The branch the tests of lines 32, 34 and 36 select. *)
Definition branch_of (tf_param_name : string) : branch :=
  if Str.contains "conv" tf_param_name && Str.contains "kernel" tf_param_name
  then if Str.contains "depthwise" tf_param_name
       then DepthwiseKernel else ConvKernel
  else if Str.endswith tf_param_name "kernel" then DenseKernel else Plain.
End Loader.
End Loader.

(** ** The model and [load_efficientnet] *)

Module Net.
Import Np Loader.
Local Open Scope string_scope.

(** The four tensors of a batch-norm layer. *)
Inductive bn_tensor : Type := bias | weight | running_mean | running_var.

(** The tensors of one block that the script names. *)
Inductive block_tensor : Type :=
| _expand_conv_weight
| _project_conv_weight
| _depthwise_conv_weight
| _se_reduce_bias | _se_reduce_weight
| _se_expand_bias | _se_expand_weight
| _bn0_ (t : bn_tensor)
| _bn1_ (t : bn_tensor)
| _bn2_ (t : bn_tensor).

(** The identity of a tensor object of the model.  The table is keyed
    by the tensor objects themselves, which Python hashes and compares by
    identity; a tensor object is named here by the attribute path the
    script reaches it by, and distinct paths reach distinct objects. *)
Inductive tensor : Type :=
| _conv_stem_weight
| _bn0 (t : bn_tensor)
| _conv_head_weight
| _bn1 (t : bn_tensor)
| _fc_bias | _fc_weight
| _blocks (i : nat) (t : block_tensor).

Definition bn_tensor_eq_dec (x y : bn_tensor) : {x = y} + {x <> y}.
Proof. decide equality. Defined.

Definition block_tensor_eq_dec (x y : block_tensor) : {x = y} + {x <> y}.
Proof. decide equality; apply bn_tensor_eq_dec. Defined.

Definition tensor_eq_dec (x y : tensor) : {x = y} + {x <> y}.
Proof.
  decide equality;
    first [apply bn_tensor_eq_dec | apply block_tensor_eq_dec | apply Nat.eq_dec].
Defined.

(** Modelled from the spec: the model class is built by
    [utils.build_model], outside this file.  The spec gives a block "a
    boolean property of the block's parameter set", whether it contains
    an expand convolution; it is what line 91 reads off
    [named_parameters()], and all the script inspects of a block. *)
Record MBConvBlock : Type := { has_expand_conv : bool }.

(** Modelled from the spec: the target model is "a stem stage, a
    sequence of repeated blocks, and a head stage"; the stem and the head
    have no part that varies, so a model is its sequence of blocks
    ([model._blocks]), together with the [requires_grad] flag of each of
    its tensor objects, which line 40 consults. *)
Record EfficientNet : Type :=
  { blocks : list MBConvBlock;
    requires_grad : tensor -> bool }.

Definition table : Type := @Dict.dict tensor string.

Definition merge (dict1 dict2 : table) : table :=
  Dict.merge tensor_eq_dec dict1 dict2.

(** Lines 53-66. *)
Definition conversion_table_for_weights_outside_blocks
  : list (tensor * string) :=
  [ (_conv_stem_weight, "stem/conv2d/kernel");
    (_bn0 bias, "stem/tpu_batch_normalization/beta");
    (_bn0 weight, "stem/tpu_batch_normalization/gamma");
    (_bn0 running_mean, "stem/tpu_batch_normalization/moving_mean");
    (_bn0 running_var, "stem/tpu_batch_normalization/moving_variance");
    (_conv_head_weight, "head/conv2d/kernel");
    (_bn1 bias, "head/tpu_batch_normalization/beta");
    (_bn1 weight, "head/tpu_batch_normalization/gamma");
    (_bn1 running_mean, "head/tpu_batch_normalization/moving_mean");
    (_bn1 running_var, "head/tpu_batch_normalization/moving_variance");
    (_fc_bias, "head/dense/bias");
    (_fc_weight, "head/dense/kernel") ].

(** Lines 70-85. *)
Definition conversion_table_for_first_block : list (tensor * string) :=
  [ (_blocks 0 _project_conv_weight, "blocks_0/conv2d/kernel");
    (_blocks 0 _depthwise_conv_weight,
       "blocks_0/depthwise_conv2d/depthwise_kernel");
    (_blocks 0 _se_reduce_bias, "blocks_0/se/conv2d/bias");
    (_blocks 0 _se_reduce_weight, "blocks_0/se/conv2d/kernel");
    (_blocks 0 _se_expand_bias, "blocks_0/se/conv2d_1/bias");
    (_blocks 0 _se_expand_weight, "blocks_0/se/conv2d_1/kernel");
    (_blocks 0 (_bn1_ bias), "blocks_0/tpu_batch_normalization/beta");
    (_blocks 0 (_bn1_ weight), "blocks_0/tpu_batch_normalization/gamma");
    (_blocks 0 (_bn1_ running_mean),
       "blocks_0/tpu_batch_normalization/moving_mean");
    (_blocks 0 (_bn1_ running_var),
       "blocks_0/tpu_batch_normalization/moving_variance");
    (_blocks 0 (_bn2_ bias), "blocks_0/tpu_batch_normalization_1/beta");
    (_blocks 0 (_bn2_ weight), "blocks_0/tpu_batch_normalization_1/gamma");
    (_blocks 0 (_bn2_ running_mean),
       "blocks_0/tpu_batch_normalization_1/moving_mean");
    (_blocks 0 (_bn2_ running_var),
       "blocks_0/tpu_batch_normalization_1/moving_variance") ].

(** Lines 94-110: the display built when the block has no expand conv. *)
Definition conversion_table_block_first (i : nat) : list (tensor * string) :=
  [ (_blocks i _project_conv_weight, "blocks_" ++ Str.str i ++ "/conv2d/kernel");
    (_blocks i _depthwise_conv_weight,
       "blocks_" ++ Str.str i ++ "/depthwise_conv2d/depthwise_kernel");
    (_blocks i _se_reduce_bias, "blocks_" ++ Str.str i ++ "/se/conv2d/bias");
    (_blocks i _se_reduce_weight, "blocks_" ++ Str.str i ++ "/se/conv2d/kernel");
    (_blocks i _se_expand_bias, "blocks_" ++ Str.str i ++ "/se/conv2d_1/bias");
    (_blocks i _se_expand_weight,
       "blocks_" ++ Str.str i ++ "/se/conv2d_1/kernel");
    (_blocks i (_bn1_ bias),
       "blocks_" ++ Str.str i ++ "/tpu_batch_normalization/beta");
    (_blocks i (_bn1_ weight),
       "blocks_" ++ Str.str i ++ "/tpu_batch_normalization/gamma");
    (_blocks i (_bn1_ running_mean),
       "blocks_" ++ Str.str i ++ "/tpu_batch_normalization/moving_mean");
    (_blocks i (_bn1_ running_var),
       "blocks_" ++ Str.str i ++ "/tpu_batch_normalization/moving_variance");
    (_blocks i (_bn2_ bias),
       "blocks_" ++ Str.str i ++ "/tpu_batch_normalization_1/beta");
    (_blocks i (_bn2_ weight),
       "blocks_" ++ Str.str i ++ "/tpu_batch_normalization_1/gamma");
    (_blocks i (_bn2_ running_mean),
       "blocks_" ++ Str.str i ++ "/tpu_batch_normalization_1/moving_mean");
    (_blocks i (_bn2_ running_var),
       "blocks_" ++ Str.str i ++ "/tpu_batch_normalization_1/moving_variance") ].

(** Lines 113-133: the display built when the block has an expand conv. *)
Definition conversion_table_block_expand (i : nat) : list (tensor * string) :=
  [ (_blocks i _expand_conv_weight, "blocks_" ++ Str.str i ++ "/conv2d/kernel");
    (_blocks i _project_conv_weight,
       "blocks_" ++ Str.str i ++ "/conv2d_1/kernel");
    (_blocks i _depthwise_conv_weight,
       "blocks_" ++ Str.str i ++ "/depthwise_conv2d/depthwise_kernel");
    (_blocks i _se_reduce_bias, "blocks_" ++ Str.str i ++ "/se/conv2d/bias");
    (_blocks i _se_reduce_weight, "blocks_" ++ Str.str i ++ "/se/conv2d/kernel");
    (_blocks i _se_expand_bias, "blocks_" ++ Str.str i ++ "/se/conv2d_1/bias");
    (_blocks i _se_expand_weight,
       "blocks_" ++ Str.str i ++ "/se/conv2d_1/kernel");
    (_blocks i (_bn0_ bias),
       "blocks_" ++ Str.str i ++ "/tpu_batch_normalization/beta");
    (_blocks i (_bn0_ weight),
       "blocks_" ++ Str.str i ++ "/tpu_batch_normalization/gamma");
    (_blocks i (_bn0_ running_mean),
       "blocks_" ++ Str.str i ++ "/tpu_batch_normalization/moving_mean");
    (_blocks i (_bn0_ running_var),
       "blocks_" ++ Str.str i ++ "/tpu_batch_normalization/moving_variance");
    (_blocks i (_bn1_ bias),
       "blocks_" ++ Str.str i ++ "/tpu_batch_normalization_1/beta");
    (_blocks i (_bn1_ weight),
       "blocks_" ++ Str.str i ++ "/tpu_batch_normalization_1/gamma");
    (_blocks i (_bn1_ running_mean),
       "blocks_" ++ Str.str i ++ "/tpu_batch_normalization_1/moving_mean");
    (_blocks i (_bn1_ running_var),
       "blocks_" ++ Str.str i ++ "/tpu_batch_normalization_1/moving_variance");
    (_blocks i (_bn2_ bias),
       "blocks_" ++ Str.str i ++ "/tpu_batch_normalization_2/beta");
    (_blocks i (_bn2_ weight),
       "blocks_" ++ Str.str i ++ "/tpu_batch_normalization_2/gamma");
    (_blocks i (_bn2_ running_mean),
       "blocks_" ++ Str.str i ++ "/tpu_batch_normalization_2/moving_mean");
    (_blocks i (_bn2_ running_var),
       "blocks_" ++ Str.str i ++ "/tpu_batch_normalization_2/moving_variance") ].

(** Line 91. *)
Definition is_first_block (b : MBConvBlock) : bool := negb (has_expand_conv b).

(** Lines 91-133: the pairs written in the display for block [i]. *)
Definition block_items (b : MBConvBlock) (i : nat) : list (tensor * string) :=
  if is_first_block b
  then conversion_table_block_first i
  else conversion_table_block_expand i.

(** The dict those pairs evaluate to. *)
Definition conversion_table_block (b : MBConvBlock) (i : nat) : table :=
  Dict.of_items tensor_eq_dec (block_items b i).

(** Lines 89-135: the loop, as a walk over the blocks from index [i]. *)
Fixpoint block_loop (bs : list MBConvBlock) (i : nat)
    (conversion_table : table) : table :=
  match bs with
  | [] => conversion_table
  | b :: bs' =>
      block_loop bs' (S i) (merge conversion_table (conversion_table_block b i))
  end.

(** Lines 49-135: the table [load_efficientnet] builds.  Evaluating
    [model._blocks[0]] on a model without blocks raises. *)
Definition build_conversion_table (model : EfficientNet) : exn + table :=
  let conversion_table : table := [] in
  let conversion_table :=
    merge conversion_table
      (Dict.of_items tensor_eq_dec conversion_table_for_weights_outside_blocks) in
  match blocks model with
  | [] => inl IndexError
  | _ :: _ =>
      let conversion_table :=
        merge conversion_table
          (Dict.of_items tensor_eq_dec conversion_table_for_first_block) in
      inr (block_loop (blocks model) 0 conversion_table)
  end.

(** Lines 43-139. *)
Definition load_efficientnet {A : Type} (model : EfficientNet)
    (ck : @checkpoint A) (model_name : string) (st : @store A tensor)
  : @store A tensor * (exn + table) :=
  match build_conversion_table model with
  | inl e => (st, inl e)
  | inr conversion_table =>
      match load_param tensor_eq_dec (requires_grad model) ck conversion_table
                       model_name st with
      | (st', None) => (st', inr conversion_table)
      | (st', Some e) => (st', inl e)
      end
  end.

(** Every pair written in one of the displays the table is merged from:
    outside the blocks, the first block, and the loop over the blocks. *)
Definition emitted (model : EfficientNet) : list (tensor * string) :=
  conversion_table_for_weights_outside_blocks
  ++ conversion_table_for_first_block
  ++ concat (map (fun ib => block_items (snd ib) (fst ib))
                 (combine (seq 0 (length (blocks model))) (blocks model))).
End Net.

(** ** Concrete checkpoints and models *)

Module Examples.
Import Np Loader Net.
Local Open Scope string_scope.

(** A checkpoint holding one variable. *)
Definition single (name : string) (a : ndarray nat) : @checkpoint nat :=
  fun n => if String.eqb n name then Some a else None.

(** A model whose tensors all have shape [sh] and hold zeros. *)
Definition zeros (sh : list nat) : @store nat tensor :=
  fun _ => mk_ndarray sh (repeat 0 (numel sh)) float32.

(** The flags of a freshly built model: its parameters require
    gradients, the running statistics of its batch-norm layers, which are
    buffers, do not. *)
Definition trainable (k : tensor) : bool :=
  match k with
  | _bn0 running_mean | _bn0 running_var
  | _bn1 running_mean | _bn1 running_var
  | _blocks _ (_bn0_ running_mean) | _blocks _ (_bn0_ running_var)
  | _blocks _ (_bn1_ running_mean) | _blocks _ (_bn1_ running_var)
  | _blocks _ (_bn2_ running_mean) | _blocks _ (_bn2_ running_var) => false
  | _ => true
  end.

(** A stem kernel as TensorFlow stores it: height, width, in, out. *)
Definition stem_kernel : ndarray nat := mk_ndarray [3; 3; 3; 32] (seq 0 864) float32.

Definition stem_checkpoint : @checkpoint nat :=
  single "m/stem/conv2d/kernel" stem_kernel.

(** A batch-norm offset of 32 channels. *)
Definition stem_beta : ndarray nat := mk_ndarray [32] (seq 100 32) float32.

(** A checkpoint holding the stem kernel and the stem batch-norm offset. *)
Definition stem_bn_checkpoint : @checkpoint nat :=
  fun n =>
    if String.eqb n "m/stem/conv2d/kernel" then Some stem_kernel
    else if String.eqb n "m/stem/tpu_batch_normalization/beta" then Some stem_beta
    else None.

(** A model whose stem weight has the right shape and whose other
    tensors have 16 channels. *)
Definition narrow_model : @store nat tensor :=
  fun k =>
    match k with
    | _conv_stem_weight => mk_ndarray [32; 3; 3; 3] (repeat 0 864) float32
    | _ => mk_ndarray [16] (repeat 0 16) float32
    end.

Definition stem_then_beta : list (tensor * string) :=
  [ (_conv_stem_weight, "stem/conv2d/kernel");
    (_bn0 bias, "stem/tpu_batch_normalization/beta") ].

(** A depthwise kernel as TensorFlow stores it: height, width, channels,
    channel multiplier. *)
Definition depthwise_kernel : ndarray nat := mk_ndarray [3; 3; 4; 1] (seq 0 36) float32.

(** A dense kernel as TensorFlow stores it: inputs, outputs. *)
Definition dense_kernel : ndarray nat :=
  mk_ndarray [1280; 1000] (repeat 7 (numel [1280; 1000])) float32.

(** A small rank-4 array. *)
Definition small_kernel : ndarray nat := mk_ndarray [1; 2; 3; 2] (seq 0 12) float32.

(** A checkpoint that answers every name: a 3-by-2 matrix for a dense
    kernel, a one-element rank-4 array for a convolution kernel, a
    one-element vector for anything else. *)
Definition tiny_checkpoint : @checkpoint nat :=
  fun n =>
    match branch_of n with
    | DenseKernel => Some (mk_ndarray [3; 2] [1; 2; 3; 4; 5; 6] float32)
    | ConvKernel | DepthwiseKernel => Some (mk_ndarray [1; 1; 1; 1] [8] float32)
    | Plain => Some (mk_ndarray [1] [9] float32)
    end.

(** A model of matching shapes, holding zeros. *)
Definition tiny_model : @store nat tensor :=
  fun k =>
    match k with
    | _fc_weight => mk_ndarray [2; 3] (repeat 0 6) float32
    | _conv_stem_weight | _conv_head_weight
    | _blocks _ _expand_conv_weight | _blocks _ _project_conv_weight
    | _blocks _ _depthwise_conv_weight
    | _blocks _ _se_reduce_weight | _blocks _ _se_expand_weight =>
        mk_ndarray [1; 1; 1; 1] [0] float32
    | _ => mk_ndarray [1] [0] float32
    end.

(** A one-block model whose only block has an expand convolution. *)
Definition expanding_first_block : EfficientNet :=
  {| blocks := [ {| has_expand_conv := true |} ];
     requires_grad := trainable |}.

(** Three blocks, the first without an expand convolution. *)
Definition three_blocks : EfficientNet :=
  {| blocks := [ {| has_expand_conv := false |};
                 {| has_expand_conv := true |};
                 {| has_expand_conv := true |} ];
     requires_grad := trainable |}.
End Examples.

(** ** The script run as a program (lines 142-168) *)

Module Driver.
Import Np Loader Net.
Local Open Scope string_scope.

(** What [parser.parse_args()] returns. *)
Record Namespace : Type :=
  { model_name : string; tf_checkpoint : string; output_file : string }.

(** Lines 151-156: the values used when an option is not given. *)
Definition defaults : Namespace :=
  {| model_name := "efficientnet-b0";
     tf_checkpoint := "pretrained_tensorflow/efficientnet-b0/model.ckpt";
     output_file := "pretrained_pytorch/efficientnet-b0.pth" |}.

Section Main.
Context {A : Type}.

(** [utils.build_model], which is outside this file: for a model name,
    the blocks of the model and the tensors it is created with. *)
Variable build_model : string -> EfficientNet * @store A tensor.

(** The checkpoint files there are, by path. *)
Variable checkpoints : string -> @checkpoint A.

(** The files [torch.save] has written, by path: each holds the tensors
    of a model. *)
Definition disk : Type := string -> option (@store A tensor).

(** [torch.save(model.state_dict(), path)], taken to succeed: it writes
    the file at [path] and no other. *)
Definition save (d : disk) (path : string) (st : @store A tensor) : disk :=
  fun p => if String.eqb p path then Some st else d p.

(** Lines 159-168.  The result is the disk, the lines printed, and the
    exception that ended the program, if one did. *)
Definition main (args : Namespace) (d : disk)
  : disk * list string * option exn :=
  let (model, st) := build_model (model_name args) in
  match load_efficientnet model (checkpoints (tf_checkpoint args))
                          (model_name args) st with
  | (_, inl e) => (d, [], Some e)
  | (st', inr _) =>
      (save d (output_file args) st',
       ["Loaded TF checkpoint weights";
        "Saved model to " ++ output_file args],
       None)
  end.
End Main.
End Driver.

(** ** More concrete checkpoints and models *)

Module Cases.
Import Np Loader Net.
Local Open Scope string_scope.

(** A model whose stem weight has shape (32,3,3,3) and whose other
    tensors have 32 channels. *)
Definition wide_model : @store nat tensor :=
  fun k =>
    match k with
    | _conv_stem_weight => mk_ndarray [32; 3; 3; 3] (repeat 0 864) float32
    | _ => mk_ndarray [32] (repeat 0 32) float32
    end.

(** The two stem entries, batch-norm offset first. *)
Definition beta_then_stem : list (tensor * string) :=
  [ (_bn0 bias, "stem/tpu_batch_normalization/beta");
    (_conv_stem_weight, "stem/conv2d/kernel") ].

(** A rank-3 array. *)
Definition cube : ndarray nat := mk_ndarray [2; 3; 4] (seq 0 24) float32.

(** A bias without dimensions, which the checkpoint hands back as a
    numpy scalar. *)
Definition scalar_bias : ndarray nat := mk_ndarray [] [7] float32.

(** A 3-by-2 matrix. *)
Definition small_matrix : ndarray nat :=
  mk_ndarray [3; 2] [1; 2; 3; 4; 5; 6] float32.

(** A vector of step counts. *)
Definition steps : ndarray nat := mk_ndarray [32] (seq 0 32) int64.

(** A checkpoint whose stem kernel is a vector. *)
Definition flat_stem_checkpoint : @checkpoint nat :=
  Examples.single "m/stem/conv2d/kernel" Examples.stem_beta.
End Cases.

(** ** The table, seen as a whole *)

Module Tables.
Import Np Loader Net.
Local Open Scope string_scope.

(** The displays the loop of lines 89-135 writes for the blocks [bs],
    the first of them at index [i], put end to end. *)
Definition block_displays (bs : list MBConvBlock) (i : nat)
  : list (tensor * string) :=
  concat (map (fun ib => block_items (snd ib) (fst ib))
              (combine (seq i (length bs)) bs)).

(** How many pairs the display of a block has. *)
Definition display_size (b : MBConvBlock) : nat :=
  if has_expand_conv b then 19 else 14.

(** Lines 94-110 without the block: each tensor with what follows
    ["blocks_<i>"] in its variable name. *)
Definition first_suffixes : list (block_tensor * string) :=
  [ (_project_conv_weight, "/conv2d/kernel");
    (_depthwise_conv_weight, "/depthwise_conv2d/depthwise_kernel");
    (_se_reduce_bias, "/se/conv2d/bias");
    (_se_reduce_weight, "/se/conv2d/kernel");
    (_se_expand_bias, "/se/conv2d_1/bias");
    (_se_expand_weight, "/se/conv2d_1/kernel");
    (_bn1_ bias, "/tpu_batch_normalization/beta");
    (_bn1_ weight, "/tpu_batch_normalization/gamma");
    (_bn1_ running_mean, "/tpu_batch_normalization/moving_mean");
    (_bn1_ running_var, "/tpu_batch_normalization/moving_variance");
    (_bn2_ bias, "/tpu_batch_normalization_1/beta");
    (_bn2_ weight, "/tpu_batch_normalization_1/gamma");
    (_bn2_ running_mean, "/tpu_batch_normalization_1/moving_mean");
    (_bn2_ running_var, "/tpu_batch_normalization_1/moving_variance") ].

(** Lines 113-133 without the block. *)
Definition expand_suffixes : list (block_tensor * string) :=
  [ (_expand_conv_weight, "/conv2d/kernel");
    (_project_conv_weight, "/conv2d_1/kernel");
    (_depthwise_conv_weight, "/depthwise_conv2d/depthwise_kernel");
    (_se_reduce_bias, "/se/conv2d/bias");
    (_se_reduce_weight, "/se/conv2d/kernel");
    (_se_expand_bias, "/se/conv2d_1/bias");
    (_se_expand_weight, "/se/conv2d_1/kernel");
    (_bn0_ bias, "/tpu_batch_normalization/beta");
    (_bn0_ weight, "/tpu_batch_normalization/gamma");
    (_bn0_ running_mean, "/tpu_batch_normalization/moving_mean");
    (_bn0_ running_var, "/tpu_batch_normalization/moving_variance");
    (_bn1_ bias, "/tpu_batch_normalization_1/beta");
    (_bn1_ weight, "/tpu_batch_normalization_1/gamma");
    (_bn1_ running_mean, "/tpu_batch_normalization_1/moving_mean");
    (_bn1_ running_var, "/tpu_batch_normalization_1/moving_variance");
    (_bn2_ bias, "/tpu_batch_normalization_2/beta");
    (_bn2_ weight, "/tpu_batch_normalization_2/gamma");
    (_bn2_ running_mean, "/tpu_batch_normalization_2/moving_mean");
    (_bn2_ running_var, "/tpu_batch_normalization_2/moving_variance") ].

Definition suffixes (b : MBConvBlock) : list (block_tensor * string) :=
  if is_first_block b then first_suffixes else expand_suffixes.

(** The layer a tensor belongs to, read off the attribute the script
    reaches it by ([_conv_stem.weight], [_fc.weight],
    [_depthwise_conv.weight], ...): the weight of a convolution, of a
    depthwise convolution, of the final linear layer, or anything else. *)
Definition layer_branch (k : tensor) : branch :=
  match k with
  | _conv_stem_weight | _conv_head_weight => ConvKernel
  | _fc_weight => DenseKernel
  | _blocks _ _depthwise_conv_weight => DepthwiseKernel
  | _blocks _ _expand_conv_weight | _blocks _ _project_conv_weight
  | _blocks _ _se_reduce_weight | _blocks _ _se_expand_weight => ConvKernel
  | _ => Plain
  end.
End Tables.

(* ================================================================== *)
(** * Part II: supporting lemmas *)
(* ================================================================== *)

(** ** Index arithmetic of C-ordered arrays *)

Module NpFacts.
Import Np.

Lemma ravel_lt : forall sh idx k, ravel sh idx = Some k -> k < numel sh.
Proof.
  induction sh as [|n sh IH]; intros [|i idx] k H; simpl in *;
    try discriminate.
  - injection H as <-. lia.
  - destruct (i <? n) eqn:E; [|discriminate].
    destruct (ravel sh idx) as [r|] eqn:R; simpl in H; [|discriminate].
    injection H as <-. apply IH in R. apply Nat.ltb_lt in E. nia.
Qed.

Lemma unravel_ravel : forall sh idx k, ravel sh idx = Some k -> unravel sh k = idx.
Proof.
  induction sh as [|n sh IH]; intros [|i idx] k H; simpl in *;
    try discriminate; auto.
  destruct (i <? n) eqn:E; [|discriminate].
  destruct (ravel sh idx) as [r|] eqn:R; simpl in H; [|discriminate].
  injection H as <-.
  pose proof (ravel_lt _ _ _ R) as Hr.
  assert (Hq : (i * numel sh + r) / numel sh = i)
    by (symmetry; apply Nat.div_unique with r; lia).
  assert (Hm : (i * numel sh + r) mod numel sh = r)
    by (symmetry; apply Nat.mod_unique with i; lia).
  rewrite Hq, Hm. f_equal. now apply IH.
Qed.

Lemma ravel_unravel : forall sh k, k < numel sh -> ravel sh (unravel sh k) = Some k.
Proof.
  induction sh as [|n sh IH]; intros k H; simpl in *.
  - f_equal. lia.
  - assert (HN : numel sh <> 0) by (intros E; rewrite E in H; lia).
    assert (Hi : k / numel sh < n)
      by (apply Nat.Div0.div_lt_upper_bound; lia).
    apply Nat.ltb_lt in Hi. rewrite Hi.
    rewrite IH by (now apply Nat.mod_upper_bound). simpl. f_equal.
    pose proof (Nat.div_mod_eq k (numel sh)). lia.
Qed.

Lemma in_bounds_ravel : forall sh idx, in_bounds sh idx -> exists k, ravel sh idx = Some k.
Proof.
  unfold in_bounds. intros sh idx H. induction H as [|i n idx sh Hi _ [r IH]].
  - now exists 0.
  - simpl. apply Nat.ltb_lt in Hi. rewrite Hi, IH. simpl. eauto.
Qed.

Lemma ravel_in_bounds : forall sh idx k, ravel sh idx = Some k -> in_bounds sh idx.
Proof.
  unfold in_bounds.
  induction sh as [|n sh IH]; intros [|i idx] k H; simpl in *;
    try discriminate; auto.
  destruct (i <? n) eqn:E; [|discriminate].
  destruct (ravel sh idx) as [r|] eqn:R; [|discriminate].
  constructor; [now apply Nat.ltb_lt | eauto].
Qed.

Lemma unravel_in_bounds : forall sh k, k < numel sh -> in_bounds sh (unravel sh k).
Proof.
  intros sh k H. eapply ravel_in_bounds, ravel_unravel, H.
Qed.

(** Bounds, read position by position. *)
Lemma in_bounds_nth : forall sh idx t,
  in_bounds sh idx -> t < length sh -> nth t idx 0 < nth t sh 0.
Proof.
  intros sh idx t H. revert t.
  induction H as [|i n idx sh Hi _ IH]; intros [|t] Ht; simpl in *;
    try lia; auto.
  apply IH. lia.
Qed.

Lemma in_bounds_tabulate : forall sh (g : nat -> nat),
  (forall s, s < length sh -> g s < nth s sh 0) ->
  in_bounds sh (map g (seq 0 (length sh))).
Proof.
  unfold in_bounds.
  induction sh as [|n sh IH]; intros g H; simpl; constructor.
  - apply (H 0). simpl. lia.
  - rewrite <- seq_shift, map_map. apply IH.
    intros s Hs. apply (H (S s)). simpl. lia.
Qed.

(** ** Axes accepted by [np.transpose] *)

Lemma index_of_spec : forall s axes,
  In s axes -> index_of s axes < length axes /\ nth (index_of s axes) axes 0 = s.
Proof.
  induction axes as [|x axes IH]; simpl; [tauto|].
  intros H. destruct (x =? s) eqn:E.
  - apply Nat.eqb_eq in E. split; [lia | assumption].
  - apply Nat.eqb_neq in E. destruct H as [H|H]; [contradiction|].
    destruct (IH H). split; [lia | assumption].
Qed.

Lemma is_axes_spec : forall n axes,
  is_axes n axes = true -> length axes = n /\ forall s, s < n -> In s axes.
Proof.
  unfold is_axes. intros n axes H.
  apply andb_true_iff in H as [L H]. apply Nat.eqb_eq in L.
  split; [assumption|]. intros s Hs.
  rewrite forallb_forall in H.
  assert (Hex : existsb (Nat.eqb s) axes = true)
    by (apply H, in_seq; lia).
  apply existsb_exists in Hex as [x [Hx E]].
  apply Nat.eqb_eq in E. now subst.
Qed.

Lemma permute_shape_length : forall axes sh,
  length (permute_shape axes sh) = length axes.
Proof. intros. unfold permute_shape. apply length_map. Qed.

Lemma permute_shape_nth : forall axes sh t,
  t < length axes ->
  nth t (permute_shape axes sh) 0 = nth (nth t axes 0) sh 0.
Proof.
  intros axes sh t Ht. unfold permute_shape.
  rewrite nth_indep with (d' := nth 0 sh 0) by (now rewrite length_map).
  apply (map_nth (fun ax => nth ax sh 0)).
Qed.

(** A valid result index is read from a valid operand index. *)
Lemma source_index_in_bounds : forall axes sh j,
  is_axes (length sh) axes = true ->
  in_bounds (permute_shape axes sh) j ->
  in_bounds sh (source_index axes j).
Proof.
  intros axes sh j Hax Hj.
  destruct (is_axes_spec _ _ Hax) as [L Hin].
  unfold source_index. rewrite L. apply in_bounds_tabulate.
  intros s Hs. destruct (index_of_spec s axes (Hin s Hs)) as [Ht Hn].
  pose proof (in_bounds_nth _ _ (index_of s axes) Hj) as B.
  rewrite permute_shape_length, permute_shape_nth, Hn in B by assumption.
  now apply B.
Qed.

(** ** Elements of a transposed array *)

Section Elements.
Context {A : Type}.
Implicit Types a b : ndarray A.

Lemma gather_spec : forall (f : nat -> option A) n s,
  (forall k, s <= k < s + n -> f k <> None) ->
  length (flat_map (fun k => opt_list (f k)) (seq s n)) = n /\
  forall i, i < n ->
    nth_error (flat_map (fun k => opt_list (f k)) (seq s n)) i = f (s + i).
Proof.
  intros f. induction n as [|n IH]; intros s H; simpl.
  - split; [reflexivity | intros; lia].
  - destruct (f s) as [x|] eqn:E.
    2:{ exfalso. apply (H s); [lia | assumption]. }
    destruct (IH (S s)) as [L N]; [intros; apply H; lia|].
    simpl. split; [lia|].
    intros [|i] Hi; simpl.
    + now rewrite Nat.add_0_r.
    + rewrite N by lia. f_equal. lia.
Qed.

Lemma get_in_bounds : forall a idx,
  wf a -> in_bounds (shape a) idx -> get a idx <> None.
Proof.
  intros a idx Hwf Hb. unfold get.
  destruct (in_bounds_ravel _ _ Hb) as [k Hk]. rewrite Hk.
  apply nth_error_Some. rewrite Hwf. eapply ravel_lt, Hk.
Qed.

(** What [np.transpose] computes: a well-formed array whose element at
    [j] is the operand's element at [source_index axes j]. *)
Lemma permute_spec : forall axes a,
  wf a -> is_axes (ndim a) axes = true ->
  wf (permute axes a) /\
  forall j, in_bounds (shape (permute axes a)) j ->
            get (permute axes a) j = get a (source_index axes j).
Proof.
  intros axes a Hwf Hax.
  set (sh' := permute_shape axes (shape a)).
  set (f := fun k => get a (source_index axes (unravel sh' k))).
  destruct (gather_spec f (numel sh') 0) as [L N].
  { intros k Hk. apply get_in_bounds; [assumption|].
    apply source_index_in_bounds; [assumption|].
    apply unravel_in_bounds. lia. }
  split; [exact L|].
  intros j Hj. simpl in Hj. fold sh' in Hj.
  destruct (in_bounds_ravel _ _ Hj) as [k Hk].
  unfold get at 1. simpl. fold sh'. rewrite Hk.
  fold f. rewrite N by (eapply ravel_lt, Hk).
  unfold f. simpl. now rewrite (unravel_ravel _ _ _ Hk).
Qed.

(** Two arrays of one shape and dtype with the same elements are the
    same array. *)
Lemma ndarray_ext : forall a b,
  wf a -> wf b -> shape a = shape b -> dtype a = dtype b ->
  (forall idx, in_bounds (shape a) idx -> get a idx = get b idx) ->
  a = b.
Proof.
  intros [sh da ta] [sh' db tb] Ha Hb Hs Ht H. unfold wf in *. simpl in *.
  subst sh' tb.
  f_equal. apply nth_error_ext. intros k.
  destruct (Nat.lt_ge_cases k (numel sh)) as [Hk|Hk].
  - specialize (H _ (unravel_in_bounds _ _ Hk)).
    unfold get in H. simpl in H. now rewrite (ravel_unravel _ _ Hk) in H.
  - transitivity (@None A); [|symmetry]; apply nth_error_None; lia.
Qed.

Lemma transpose_Some : forall a axes,
  is_axes (ndim a) axes = true -> transpose a axes = Some (permute axes a).
Proof. intros a axes H. unfold transpose. now rewrite H. Qed.

Lemma transpose_None : forall a axes,
  is_axes (ndim a) axes = false -> transpose a axes = None.
Proof. intros a axes H. unfold transpose. now rewrite H. Qed.
End Elements.
End NpFacts.

(** ** Substring tests across a separator *)

Module StrFacts.
Import Str.
Local Open Scope string_scope.

Lemma contains_cons : forall sub x s,
  contains sub (String x s) = String.prefix sub (String x s) || contains sub s.
Proof. reflexivity. Qed.

Lemma endswith_cons : forall x s suffix,
  endswith (String x s) suffix = String.eqb (String x s) suffix || endswith s suffix.
Proof. reflexivity. Qed.

Lemma contains_nil : forall sub, contains sub "" = String.prefix sub "".
Proof. intros. unfold contains. apply orb_false_r. Qed.

Lemma endswith_nil : forall suffix, endswith "" suffix = String.eqb "" suffix.
Proof. intros. unfold endswith. apply orb_false_r. Qed.

Lemma prefix_iff : forall sub s,
  String.prefix sub s = true <-> exists q, s = sub ++ q.
Proof.
  induction sub as [|y sub IH]; intros s.
  - split; [exists s; reflexivity | destruct s; reflexivity].
  - destruct s as [|x s]; simpl.
    + split; [discriminate | intros [q Hq]; discriminate].
    + destruct (ascii_dec y x) as [->|Hne].
      * split.
        -- intros H. apply IH in H as [q ->]. now exists q.
        -- intros [q Hq]. apply IH. exists q. congruence.
      * split; [discriminate | intros [q Hq]; congruence].
Qed.

(** [contains] is Python's [in]: [sub] occurs somewhere inside [s]. *)
Lemma contains_iff : forall sub s,
  contains sub s = true <-> exists p q, s = p ++ sub ++ q.
Proof.
  intros sub. induction s as [|x s IH].
  - rewrite contains_nil, prefix_iff. split.
    + intros [q Hq]. now exists "", q.
    + intros [[|c p] [q Hq]]; [now exists q | discriminate].
  - rewrite contains_cons, orb_true_iff, prefix_iff, IH. split.
    + intros [[q Hq] | [p [q Hq]]].
      * now exists "", q.
      * exists (String x p), q. simpl. now rewrite Hq.
    + intros [[|c p] [q Hq]].
      * left. now exists q.
      * right. exists p, q. simpl in Hq. congruence.
Qed.

(** [endswith] is Python's [str.endswith]: [s] is [suffix] after some
    leading part. *)
Lemma endswith_iff : forall s suffix,
  endswith s suffix = true <-> exists p, s = p ++ suffix.
Proof.
  induction s as [|x s IH]; intros suffix.
  - rewrite endswith_nil, String.eqb_eq. split.
    + intros <-. now exists "".
    + intros [[|c p] Hp]; [assumption | discriminate].
  - rewrite endswith_cons, orb_true_iff, String.eqb_eq, IH. split.
    + intros [<- | [p Hp]]; [now exists "" | exists (String x p)].
      simpl. now rewrite Hp.
    + intros [[|c p] Hp]; [now left | right].
      exists p. simpl in Hp. congruence.
Qed.

Lemma prefix_app_sep : forall c sub a b,
  avoids c sub = true ->
  String.prefix sub (a ++ String c b) = String.prefix sub a.
Proof.
  intros c. induction sub as [|y sub IH]; intros a b H.
  - destruct a; reflexivity.
  - simpl in H. apply andb_true_iff in H as [Hy Hs].
    apply negb_true_iff, Ascii.eqb_neq in Hy.
    destruct a as [|x a]; simpl.
    + destruct (ascii_dec y c); [contradiction | reflexivity].
    + destruct (ascii_dec y x); [now apply IH | reflexivity].
Qed.

(** An occurrence of [sub] cannot straddle a character [sub] lacks. *)
Lemma contains_app_sep : forall c sub a b,
  avoids c sub = true ->
  contains sub (a ++ String c b) = contains sub a || contains sub b.
Proof.
  intros c sub a b H. induction a as [|x a IH].
  - pose proof (prefix_app_sep c sub "" b H) as P.
    change ("" ++ String c b) with (String c b) in *.
    now rewrite contains_cons, P, contains_nil.
  - pose proof (prefix_app_sep c sub (String x a) b H) as P.
    change (String x a ++ String c b) with (String x (a ++ String c b)) in *.
    now rewrite !contains_cons, IH, P, orb_assoc.
Qed.

Lemma avoids_app_sep : forall c a b, avoids c (a ++ String c b) = false.
Proof.
  intros c a b. induction a as [|x a IH]; simpl.
  - now rewrite Ascii.eqb_refl.
  - rewrite IH. apply andb_false_r.
Qed.

Lemma endswith_app_sep : forall c suffix a b,
  avoids c suffix = true ->
  endswith (a ++ String c b) suffix = endswith b suffix.
Proof.
  intros c suffix a b H.
  assert (Hne : forall a', String.eqb (a' ++ String c b) suffix = false).
  { intros a'. apply String.eqb_neq. intros E.
    rewrite <- E, avoids_app_sep in H. discriminate. }
  induction a as [|x a IH].
  - pose proof (Hne "") as P.
    change ("" ++ String c b) with (String c b) in *.
    now rewrite endswith_cons, P.
  - pose proof (Hne (String x a)) as P.
    change (String x a ++ String c b) with (String x (a ++ String c b)) in *.
    now rewrite endswith_cons, IH, P.
Qed.

Lemma contains_app_r : forall sub a b,
  contains sub b = true -> contains sub (a ++ b) = true.
Proof.
  intros sub a b. rewrite !contains_iff. intros [p [q ->]].
  exists (a ++ p), q. induction a as [|x a IH]; simpl; congruence.
Qed.
End StrFacts.

(** ** Dictionaries *)

Module DictFacts.
Import Dict.
Section Facts.
Context {K V : Type}.
Variable dec : forall x y : K, {x = y} + {x <> y}.
Implicit Types (d : @dict K V) (l : list (K * V)).

Lemma set_fresh : forall d k v,
  ~ In k (keys d) -> set dec d k v = d ++ [(k, v)].
Proof.
  induction d as [|[k' v'] d IH]; intros k v H; simpl in *; auto.
  destruct (dec k k'); [subst; tauto|]. f_equal. apply IH. tauto.
Qed.

Lemma fold_set_nodup : forall l d,
  NoDup (keys (d ++ l)) ->
  fold_left (fun d kv => set dec d (fst kv) (snd kv)) l d = d ++ l.
Proof.
  unfold keys.
  induction l as [|[k v] l IH]; intros d H; simpl.
  - now rewrite app_nil_r.
  - assert (E : d ++ (k, v) :: l = (d ++ [(k, v)]) ++ l)
      by (now rewrite <- app_assoc).
    rewrite E in *. rewrite set_fresh.
    + now apply IH.
    + rewrite !map_app in H. simpl in H.
      apply NoDup_app_remove_r, NoDup_remove_2 in H.
      now rewrite app_nil_r in H.
Qed.

(** A display whose keys are pairwise distinct keeps every pair. *)
Lemma of_items_nodup : forall l, NoDup (keys l) -> of_items dec l = l.
Proof. intros l H. now apply (fold_set_nodup l []). Qed.

Lemma of_items_snoc : forall l k v,
  of_items dec (l ++ [(k, v)]) = set dec (of_items dec l) k v.
Proof. intros. unfold of_items. now rewrite fold_left_app. Qed.

Lemma of_items_app : forall l1 l2,
  of_items dec (l1 ++ l2) =
  fold_left (fun d kv => set dec d (fst kv) (snd kv)) l2 (of_items dec l1).
Proof. intros. unfold of_items. now rewrite fold_left_app. Qed.

Lemma keys_set : forall d k v,
  keys (set dec d k v) = keys d \/
  (~ In k (keys d) /\ keys (set dec d k v) = keys d ++ [k]).
Proof.
  induction d as [|[k' v'] d IH]; intros k v; simpl.
  - right. auto.
  - destruct (dec k k') as [->|Hne]; simpl; [now left|].
    destruct (IH k v) as [E | [Hn E]]; rewrite E; [now left | right].
    split; [intuition congruence | reflexivity].
Qed.

Lemma nodup_set : forall d k v,
  NoDup (keys d) -> NoDup (keys (set dec d k v)).
Proof.
  intros d k v H. destruct (keys_set d k v) as [E | [Hn E]]; rewrite E.
  - assumption.
  - apply NoDup_app; [assumption | repeat constructor; simpl; tauto |].
    intros x Hx [<- | []]. contradiction.
Qed.

(** A dict never holds a key twice. *)
Lemma nodup_of_items : forall l, NoDup (keys (of_items dec l)).
Proof.
  induction l as [|[k v] l IH] using rev_ind.
  - constructor.
  - rewrite of_items_snoc. now apply nodup_set.
Qed.

Lemma lookup_set : forall d k v k',
  lookup dec (set dec d k v) k' =
  if dec k' k then Some v else lookup dec d k'.
Proof.
  induction d as [|[k0 v0] d IH]; intros k v k'; simpl.
  - destruct (dec k' k); reflexivity.
  - destruct (dec k k0) as [->|Hne]; simpl.
    + destruct (dec k' k0); reflexivity.
    + rewrite IH. destruct (dec k' k0) as [->|]; [|reflexivity].
      destruct (dec k0 k); [congruence | reflexivity].
Qed.

Lemma In_lookup : forall d k v,
  NoDup (keys d) -> In (k, v) d -> lookup dec d k = Some v.
Proof.
  induction d as [|[k0 v0] d IH]; intros k v Hnd; simpl; [tauto|].
  inversion Hnd as [|? ? Hn Hnd']; subst.
  intros [[= -> ->] | H].
  - destruct (dec k k); [reflexivity | congruence].
  - destruct (dec k k0) as [->|]; [|auto].
    exfalso. apply Hn. change k0 with (fst (k0, v)). now apply in_map.
Qed.

(** When no key is written with two values, every pair written is in
    the dict. *)
Lemma lookup_of_items : forall l k v,
  functional l -> In (k, v) l -> lookup dec (of_items dec l) k = Some v.
Proof.
  induction l as [|[k0 v0] l IH] using rev_ind; intros k v F H; [destruct H|].
  rewrite of_items_snoc, lookup_set.
  destruct (dec k k0) as [->|Hne].
  - f_equal. apply (F k0); [apply in_or_app; right; now left | assumption].
  - apply IH.
    + intros k1 v1 v2 H1 H2. apply (F k1); apply in_or_app; now left.
    + apply in_app_or in H as [H | [[= -> ->] | []]]; [assumption | congruence].
Qed.

Lemma In_set : forall d k v k' v',
  In (k', v') (set dec d k v) -> (k', v') = (k, v) \/ In (k', v') d.
Proof.
  induction d as [|[k0 v0] d IH]; intros k v k' v'; simpl.
  - intros [E | []]. now left.
  - destruct (dec k k0) as [->|Hne]; simpl.
    + intros [E | H]; [left; congruence | right; now right].
    + intros [E | H]; [right; now left|].
      destruct (IH _ _ _ _ H); [now left | right; now right].
Qed.

(** Every pair of the dict was written in the display. *)
Lemma In_of_items : forall l k v, In (k, v) (of_items dec l) -> In (k, v) l.
Proof.
  induction l as [|[k0 v0] l IH] using rev_ind; intros k v H; [destruct H|].
  rewrite of_items_snoc in H. apply in_or_app.
  destruct (In_set _ _ _ _ _ H) as [E | H']; [right; now left | left; auto].
Qed.

(** Merging dicts built from displays is building the dict of the
    displays put end to end. *)
Lemma merge_of_items : forall l1 l2,
  NoDup (keys l2) ->
  merge dec (of_items dec l1) (of_items dec l2) = of_items dec (l1 ++ l2).
Proof.
  intros l1 l2 H. unfold merge.
  rewrite (of_items_nodup l2 H), !of_items_app.
  now rewrite (of_items_nodup _ (nodup_of_items l1)).
Qed.

Lemma set_app_fresh : forall d d' k v,
  ~ In k (keys d) -> set dec (d ++ d') k v = d ++ set dec d' k v.
Proof.
  induction d as [|[k0 v0] d IH]; intros d' k v H; simpl in *; [reflexivity|].
  destruct (dec k k0) as [->|Hne]; [tauto|]. f_equal. apply IH. tauto.
Qed.

(** Writing keys that are new to the front part of a dict leaves that
    part, and its place at the front, alone. *)
Lemma fold_set_disjoint : forall l d d',
  (forall k, In k (keys l) -> ~ In k (keys d)) ->
  fold_left (fun d kv => set dec d (fst kv) (snd kv)) l (d ++ d') =
  d ++ fold_left (fun d kv => set dec d (fst kv) (snd kv)) l d'.
Proof.
  induction l as [|[k v] l IH]; intros d d' H; simpl; [reflexivity|].
  rewrite set_app_fresh by (apply H; now left).
  apply IH. intros k' Hk'. apply H. now right.
Qed.

Lemma functional_nodup : forall l, NoDup (keys l) -> functional l.
Proof.
  intros l H k v1 v2 H1 H2.
  apply (In_lookup l _ _ H) in H1, H2. congruence.
Qed.
End Facts.
End DictFacts.

(** ** The loop of [load_param] *)

Module LoaderFacts.
Import Np Loader.
Local Open Scope string_scope.

Lemma tuple_eqb_eq : forall s1 s2, tuple_eqb s1 s2 = true <-> s1 = s2.
Proof.
  induction s1 as [|x s1 IH]; intros [|y s2]; simpl;
    try (split; [discriminate | congruence]); [tauto|].
  rewrite andb_true_iff, Nat.eqb_eq, IH. split; [intros []|intros [=]]; subst; auto.
Qed.

Lemma tuple_eqb_refl : forall s, tuple_eqb s s = true.
Proof. intros. now apply tuple_eqb_eq. Qed.

Lemma tuple_eqb_neq : forall s1 s2, s1 <> s2 -> tuple_eqb s1 s2 = false.
Proof.
  intros s1 s2 H. destruct (tuple_eqb s1 s2) eqn:E; [|reflexivity].
  now apply tuple_eqb_eq in E.
Qed.

(** Tuples are equal exactly when they have the same length and agree at
    every position. *)
Lemma tuple_eqb_pointwise : forall s1 s2,
  tuple_eqb s1 s2 = true <->
  length s1 = length s2 /\ forall n, n < length s1 -> nth n s1 0 = nth n s2 0.
Proof.
  intros s1 s2. rewrite tuple_eqb_eq. split.
  - intros ->. auto.
  - intros [L H]. apply (nth_ext _ _ 0 0 L H).
Qed.

Section Loop.
Context {A K : Type}.
Variable dec : forall x y : K, {x = y} + {x <> y}.
Variable requires_grad : K -> bool.
Implicit Types (ck : @checkpoint A) (st : @store A K).

Lemma assign_same : forall st k v, assign dec st k v k = v.
Proof. intros. unfold assign. destruct (dec k k); congruence. Qed.

Lemma assign_other : forall st k v k', k' <> k -> assign dec st k v k' = st k'.
Proof. intros. unfold assign. destruct (dec k' k); congruence. Qed.

(** Line 40, case by case. *)
Lemma copy_spec : forall st k t,
  copy dec requires_grad st k t =
  if Nat.eqb (ndim t) 0 || negb (has_torch_dtype (dtype t))
  then (st, Some TypeError)
  else if requires_grad k && negb (is_floating_point (dtype t))
       then (st, Some RuntimeError)
       else (assign dec st k t, None).
Proof.
  intros. unfold copy, from_numpy, set_data.
  now destruct (Nat.eqb (ndim t) 0 || negb (has_torch_dtype (dtype t))).
Qed.

(** Line 40 goes through for an array of rank at least one, of a dtype
    PyTorch has, floating point when the target requires gradients. *)
Lemma copy_accepted : forall st k t,
  ndim t <> 0 ->
  has_torch_dtype (dtype t) = true ->
  (requires_grad k = true -> is_floating_point (dtype t) = true) ->
  copy dec requires_grad st k t = (assign dec st k t, None).
Proof.
  intros st k t Hn Ht Hf. rewrite copy_spec.
  apply Nat.eqb_neq in Hn. rewrite Hn, Ht. cbn [negb orb].
  destruct (requires_grad k); [|reflexivity].
  now rewrite Hf.
Qed.

(** When line 40 goes through, it was for such an array. *)
Lemma copy_ok : forall st k t st',
  copy dec requires_grad st k t = (st', None) ->
  st' = assign dec st k t /\
  ndim t <> 0 /\ has_torch_dtype (dtype t) = true /\
  (requires_grad k = true -> is_floating_point (dtype t) = true).
Proof.
  intros st k t st' H. rewrite copy_spec in H.
  destruct (Nat.eqb (ndim t) 0) eqn:En; [discriminate|].
  destruct (has_torch_dtype (dtype t)) eqn:Et; [|discriminate].
  cbn [negb orb] in H.
  destruct (requires_grad k) eqn:Eg; cbn [andb] in H.
  - destruct (is_floating_point (dtype t)) eqn:Ef; [|discriminate].
    injection H as <-. apply Nat.eqb_neq in En. auto.
  - injection H as <-. apply Nat.eqb_neq in En.
    repeat split; auto. discriminate.
Qed.

(** When line 40 raises, the model is as it was, and the exception is
    [TypeError] for a scalar or a dtype PyTorch lacks, [RuntimeError] for
    data that is not floating point into a tensor requiring gradients. *)
Lemma copy_exn : forall st k t st' e,
  copy dec requires_grad st k t = (st', Some e) ->
  st' = st /\
  (e = TypeError /\ (ndim t = 0 \/ has_torch_dtype (dtype t) = false) \/
   e = RuntimeError /\ ndim t <> 0 /\ has_torch_dtype (dtype t) = true /\
   requires_grad k = true /\ is_floating_point (dtype t) = false).
Proof.
  intros st k t st' e H. rewrite copy_spec in H.
  destruct (Nat.eqb (ndim t) 0) eqn:En.
  - injection H as <- <-. apply Nat.eqb_eq in En. auto.
  - apply Nat.eqb_neq in En.
    destruct (has_torch_dtype (dtype t)) eqn:Et; cbn [negb orb] in H.
    + destruct (requires_grad k) eqn:Eg; [|discriminate].
      destruct (is_floating_point (dtype t)) eqn:Ef; [discriminate|].
      injection H as <- <-. split; [reflexivity|]. right. auto.
    + injection H as <- <-. auto.
Qed.

(** Line 40 on an array that is not a scalar. *)
Lemma copy_array : forall st k t,
  ndim t <> 0 ->
  copy dec requires_grad st k t =
  if has_torch_dtype (dtype t)
  then if requires_grad k && negb (is_floating_point (dtype t))
       then (st, Some RuntimeError)
       else (assign dec st k t, None)
  else (st, Some TypeError).
Proof.
  intros st k t Hn. rewrite copy_spec.
  apply Nat.eqb_neq in Hn. rewrite Hn.
  now destruct (has_torch_dtype (dtype t)).
Qed.

(** Line 40 on a scalar. *)
Lemma copy_scalar : forall st k t,
  ndim t = 0 -> copy dec requires_grad st k t = (st, Some TypeError).
Proof. intros st k t Hn. rewrite copy_spec, Hn. reflexivity. Qed.

(** The body of the loop once the variable is fetched and converted. *)
Lemma load_entry_converted : forall ck model_name st k sub src t,
  ck (model_name ++ "/" ++ sub) = Some src ->
  convert (model_name ++ "/" ++ sub) src = inr t ->
  load_entry dec requires_grad ck model_name st (k, sub) =
  if tuple_eqb (shape (st k)) (shape t)
  then copy dec requires_grad st k t
  else (st, Some (AssertionError (shape (st k)) (shape t)
                                 (model_name ++ "/" ++ sub))).
Proof. intros * Hck Hc. unfold load_entry. now rewrite Hck, Hc. Qed.

Lemma load_entry_raised : forall ck model_name st k sub src e,
  ck (model_name ++ "/" ++ sub) = Some src ->
  convert (model_name ++ "/" ++ sub) src = inl e ->
  load_entry dec requires_grad ck model_name st (k, sub) = (st, Some e).
Proof. intros * Hck Hc. unfold load_entry. now rewrite Hck, Hc. Qed.

(** An entry that loads has fetched, converted, checked and assigned. *)
Lemma load_entry_ok : forall ck model_name st k sub st',
  load_entry dec requires_grad ck model_name st (k, sub) = (st', None) ->
  exists src t,
    ck (model_name ++ "/" ++ sub) = Some src /\
    convert (model_name ++ "/" ++ sub) src = inr t /\
    shape (st k) = shape t /\ st' = assign dec st k t.
Proof.
  intros * H. unfold load_entry in H.
  destruct (ck _) as [src|] eqn:Hck; [|discriminate].
  destruct (convert _ src) as [e|t] eqn:Hc; [discriminate|].
  destruct (tuple_eqb _ _) eqn:E; [|discriminate].
  apply copy_ok in H as [-> _]. apply tuple_eqb_eq in E. now exists src, t.
Qed.

(** An entry that loads passed line 40: its converted array has rank at
    least one and a dtype PyTorch has, floating point when the target
    requires gradients. *)
Lemma load_entry_ok_copy : forall ck model_name st k sub st',
  load_entry dec requires_grad ck model_name st (k, sub) = (st', None) ->
  exists src t,
    ck (model_name ++ "/" ++ sub) = Some src /\
    convert (model_name ++ "/" ++ sub) src = inr t /\
    ndim t <> 0 /\ has_torch_dtype (dtype t) = true /\
    (requires_grad k = true -> is_floating_point (dtype t) = true).
Proof.
  intros * H. unfold load_entry in H.
  destruct (ck _) as [src|] eqn:Hck; [|discriminate].
  destruct (convert _ src) as [e|t] eqn:Hc; [discriminate|].
  destruct (tuple_eqb _ _) eqn:E; [|discriminate].
  apply copy_ok in H as (_ & Hn & Ht & Hf). now exists src, t.
Qed.

(** An entry that raises leaves the model as it found it. *)
Lemma load_entry_exn : forall ck model_name st entry st' e,
  load_entry dec requires_grad ck model_name st entry = (st', Some e) -> st' = st.
Proof.
  intros ck model_name st [k sub] st' e H. unfold load_entry in H.
  destruct (ck _) as [src|]; [|congruence].
  destruct (convert _ src) as [e'|t]; [congruence|].
  destruct (tuple_eqb _ _); [|congruence].
  now apply copy_exn in H as [-> _].
Qed.

(** An entry that raises the assertion has fetched and converted, and
    the two shapes it reports differ. *)
Lemma load_entry_assertion : forall ck model_name st k sub st' ps ts name,
  load_entry dec requires_grad ck model_name st (k, sub) = (st', Some (AssertionError ps ts name)) ->
  exists src t,
    ck (model_name ++ "/" ++ sub) = Some src /\
    convert (model_name ++ "/" ++ sub) src = inr t /\
    name = model_name ++ "/" ++ sub /\
    ps = shape (st k) /\ ts = shape t /\ shape (st k) <> shape t.
Proof.
  intros * H. unfold load_entry in H.
  destruct (ck _) as [src|] eqn:Hck; [|discriminate].
  destruct (convert _ src) as [e|t] eqn:Hc.
  - unfold convert in Hc.
    repeat match type of Hc with
           | context [if ?b then _ else _] => destruct b
           | context [match ?o with Some _ => _ | None => _ end] => destruct o
           end; congruence.
  - destruct (tuple_eqb _ _) eqn:E.
    { apply copy_exn in H as (_ & [[? _] | [? _]]); discriminate. }
    injection H as <- <- <- <-. exists src, t.
    repeat split; auto. intros E'. apply tuple_eqb_eq in E'. congruence.
Qed.

Lemma load_param_cons : forall ck model_name entry rest st,
  load_param dec requires_grad ck (entry :: rest) model_name st =
  match load_entry dec requires_grad ck model_name st entry with
  | (st', None) => load_param dec requires_grad ck rest model_name st'
  | (st', Some e) => (st', Some e)
  end.
Proof. reflexivity. Qed.

Lemma load_param_app : forall ck model_name pre post st,
  load_param dec requires_grad ck (pre ++ post)%list model_name st =
  match load_param dec requires_grad ck pre model_name st with
  | (st1, None) => load_param dec requires_grad ck post model_name st1
  | (st1, Some e) => (st1, Some e)
  end.
Proof.
  intros ck model_name. induction pre as [|entry pre IH]; intros post st; simpl.
  - reflexivity.
  - destruct (load_entry dec requires_grad ck model_name st entry) as [st1 [e|]];
      [reflexivity | apply IH].
Qed.

(** A run that raises stopped at some entry: the entries before it
    loaded, and the store is what they left. *)
Lemma load_param_exn : forall ck model_name table st st' e,
  load_param dec requires_grad ck table model_name st = (st', Some e) ->
  exists pre entry post,
    table = (pre ++ entry :: post)%list /\
    load_param dec requires_grad ck pre model_name st = (st', None) /\
    load_entry dec requires_grad ck model_name st' entry = (st', Some e).
Proof.
  intros ck model_name. induction table as [|entry table IH]; intros st st' e H;
    simpl in H; [discriminate|].
  destruct (load_entry dec requires_grad ck model_name st entry) as [st1 [e1|]] eqn:E.
  - injection H as <- <-. exists [], entry, table.
    pose proof (load_entry_exn _ _ _ _ _ _ E) as ->. auto.
  - destruct (IH _ _ _ H) as (pre & entry' & post & -> & Hpre & Hent).
    exists (entry :: pre), entry', post. simpl. rewrite E. auto.
Qed.

(** After a run that loads every entry of a table without repeated
    keys, each target holds its converted variable and every other
    tensor is as before. *)
Lemma load_param_ok : forall ck model_name table st st',
  NoDup (map fst table) ->
  load_param dec requires_grad ck table model_name st = (st', None) ->
  (forall k sub, In (k, sub) table ->
     exists src t,
       ck (model_name ++ "/" ++ sub) = Some src /\
       convert (model_name ++ "/" ++ sub) src = inr t /\
       shape (st k) = shape t /\ st' k = t) /\
  (forall k, ~ In k (map fst table) -> st' k = st k).
Proof.
  intros ck model_name. induction table as [|[k0 sub0] table IH];
    intros st st' Hnd H.
  - injection H as <-. split; [intros ? ? []|intros; reflexivity].
  - rewrite load_param_cons in H.
    destruct (load_entry dec requires_grad ck model_name st (k0, sub0)) as [st1 [e|]] eqn:E;
      [discriminate|].
    inversion Hnd as [|? ? Hn Hnd']; subst.
    destruct (load_entry_ok _ _ _ _ _ _ E) as (src & t & Hck & Hc & Hs & ->).
    destruct (IH _ _ Hnd' H) as [Hin Hout]. split.
    + intros k sub [[= <- <-] | Hk].
      * exists src, t. repeat split; auto.
        rewrite (Hout k0 Hn). apply assign_same.
      * destruct (Hin _ _ Hk) as (src' & t' & ? & ? & Hs' & ?).
        exists src', t'. repeat split; auto.
        rewrite <- Hs'. symmetry. f_equal. apply assign_other.
        intros ->. apply Hn. change k0 with (fst (k0, sub)). now apply in_map.
    + intros k Hk. simpl in Hk.
      rewrite Hout by tauto. apply assign_other. intuition congruence.
Qed.

(** Whatever the outcome, a run leaves alone every tensor that is not
    the target of one of its entries. *)
Lemma load_param_frame : forall ck model_name table st k,
  ~ In k (map fst table) ->
  fst (load_param dec requires_grad ck table model_name st) k = st k.
Proof.
  intros ck model_name. induction table as [|[k0 sub0] table IH];
    intros st k Hk; [reflexivity|].
  rewrite load_param_cons. simpl in Hk.
  destruct (load_entry dec requires_grad ck model_name st (k0, sub0)) as [st1 [e|]] eqn:E.
  - now rewrite (load_entry_exn _ _ _ _ _ _ E).
  - destruct (load_entry_ok _ _ _ _ _ _ E) as (src & t & _ & _ & _ & ->).
    rewrite IH by tauto. apply assign_other. intuition congruence.
Qed.
End Loop.
End LoaderFacts.

(** ** The three layout changes of [load_param] *)

Module LayoutFacts.
Import Np NpFacts Loader.

Lemma in_bounds_2 : forall r c j,
  in_bounds [r; c] j -> exists j0 j1, j = [j0; j1] /\ j0 < r /\ j1 < c.
Proof.
  unfold in_bounds. intros r c j H.
  inversion H as [|j0 ? l0 ? H0 T0]; subst.
  inversion T0 as [|j1 ? l1 ? H1 T1]; subst.
  inversion T1; subst. now exists j0, j1.
Qed.

Lemma in_bounds_4 : forall a b c d j,
  in_bounds [a; b; c; d] j ->
  exists j0 j1 j2 j3,
    j = [j0; j1; j2; j3] /\ j0 < a /\ j1 < b /\ j2 < c /\ j3 < d.
Proof.
  unfold in_bounds. intros a b c d j H.
  inversion H as [|j0 ? l0 ? H0 T0]; subst.
  inversion T0 as [|j1 ? l1 ? H1 T1]; subst.
  inversion T1 as [|j2 ? l2 ? H2 T2]; subst.
  inversion T2 as [|j3 ? l3 ? H3 T3]; subst.
  inversion T3; subst. now exists j0, j1, j2, j3.
Qed.

Lemma in_bounds_intro_4 : forall a b c d j0 j1 j2 j3,
  j0 < a -> j1 < b -> j2 < c -> j3 < d ->
  in_bounds [a; b; c; d] [j0; j1; j2; j3].
Proof. intros. unfold in_bounds. repeat constructor; assumption. Qed.

Lemma in_bounds_intro_2 : forall r c j0 j1,
  j0 < r -> j1 < c -> in_bounds [r; c] [j0; j1].
Proof. intros. unfold in_bounds. repeat constructor; assumption. Qed.

Section Layout.
Context {A : Type}.
Implicit Types a : ndarray A.

(** [np.transpose] with matching axes, in one statement. *)
Lemma transpose_spec : forall a axes,
  wf a -> is_axes (ndim a) axes = true ->
  transpose a axes = Some (permute axes a) /\
  wf (permute axes a) /\
  shape (permute axes a) = permute_shape axes (shape a) /\
  forall j, in_bounds (permute_shape axes (shape a)) j ->
            get (permute axes a) j = get a (source_index axes j).
Proof.
  intros a axes Hwf Hax. destruct (permute_spec axes a Hwf Hax) as [W G].
  repeat split; auto. now apply transpose_Some.
Qed.

(** [np.transpose] raises when the number of axes is not the rank. *)
Lemma transpose_rank : forall a axes,
  length axes <> ndim a -> transpose a axes = None.
Proof.
  intros a axes H. apply transpose_None. unfold is_axes.
  apply Nat.eqb_neq in H. now rewrite H.
Qed.

Lemma ndim_permute : forall a axes, ndim (permute axes a) = length axes.
Proof. intros. unfold ndim. simpl. apply permute_shape_length. Qed.

(** Two transpositions in a row are one, when shapes and source
    indices compose. *)
Lemma permute_permute : forall a p q r,
  wf a ->
  is_axes (ndim a) p = true -> is_axes (length p) q = true ->
  is_axes (ndim a) r = true ->
  permute_shape q (permute_shape p (shape a)) = permute_shape r (shape a) ->
  (forall j, in_bounds (permute_shape r (shape a)) j ->
             in_bounds (permute_shape p (shape a)) (source_index q j) /\
             source_index p (source_index q j) = source_index r j) ->
  permute q (permute p a) = permute r a.
Proof.
  intros a p q r Hwf Hp Hq Hr Hs Hj.
  destruct (transpose_spec a p Hwf Hp) as (_ & Wp & Sp & Gp).
  destruct (transpose_spec a r Hwf Hr) as (_ & Wr & Sr & Gr).
  assert (Hq' : is_axes (ndim (permute p a)) q = true)
    by (now rewrite ndim_permute).
  destruct (transpose_spec _ q Wp Hq') as (_ & Wq & Sq & Gq).
  rewrite Sp in Sq, Gq.
  apply ndarray_ext; [exact Wq | exact Wr | now rewrite Sq, Sr | reflexivity |].
  intros j Hin. rewrite Sq, Hs in Hin.
  destruct (Hj j Hin) as [Hb He].
  rewrite Gq by (now rewrite Hs).
  now rewrite Gp, Gr, He.
Qed.

(** Transposing by the identity axes changes nothing. *)
Lemma permute_identity : forall a r,
  wf a -> is_axes (ndim a) r = true ->
  permute_shape r (shape a) = shape a ->
  (forall j, in_bounds (shape a) j -> source_index r j = j) ->
  permute r a = a.
Proof.
  intros a r Hwf Hr Hs Hj.
  destruct (transpose_spec a r Hwf Hr) as (_ & Wr & Sr & Gr).
  apply ndarray_ext; [exact Wr | exact Hwf | now rewrite Sr | reflexivity |].
  intros j Hin. rewrite Sr, Hs in Hin.
  rewrite Gr by (now rewrite Hs). now rewrite (Hj j Hin).
Qed.

(** *** Rank 4, axes (3,2,0,1): HWIO to OIHW *)

Lemma transpose_3201 : forall a h w i o,
  wf a -> shape a = [h; w; i; o] ->
  transpose a [3; 2; 0; 1] = Some (permute [3; 2; 0; 1] a) /\
  wf (permute [3; 2; 0; 1] a) /\
  shape (permute [3; 2; 0; 1] a) = [o; i; h; w] /\
  forall o' i' h' w', o' < o -> i' < i -> h' < h -> w' < w ->
    get (permute [3; 2; 0; 1] a) [o'; i'; h'; w'] = get a [h'; w'; i'; o'].
Proof.
  intros a h w i o Hwf Hs.
  assert (Hax : is_axes (ndim a) [3; 2; 0; 1] = true)
    by (unfold ndim; now rewrite Hs).
  destruct (transpose_spec a _ Hwf Hax) as (T & W & S & G).
  rewrite Hs in S, G. repeat split; auto.
  intros o' i' h' w' Ho Hi Hh Hw.
  apply (G [o'; i'; h'; w']). now apply in_bounds_intro_4.
Qed.

(** *** Rank 4, axes (1,0,2,3): the first two axes swapped *)

Lemma transpose_1023 : forall a o i h w,
  wf a -> shape a = [o; i; h; w] ->
  transpose a [1; 0; 2; 3] = Some (permute [1; 0; 2; 3] a) /\
  wf (permute [1; 0; 2; 3] a) /\
  shape (permute [1; 0; 2; 3] a) = [i; o; h; w] /\
  forall i' o' h' w', i' < i -> o' < o -> h' < h -> w' < w ->
    get (permute [1; 0; 2; 3] a) [i'; o'; h'; w'] = get a [o'; i'; h'; w'].
Proof.
  intros a o i h w Hwf Hs.
  assert (Hax : is_axes (ndim a) [1; 0; 2; 3] = true)
    by (unfold ndim; now rewrite Hs).
  destruct (transpose_spec a _ Hwf Hax) as (T & W & S & G).
  rewrite Hs in S, G. repeat split; auto.
  intros i' o' h' w' Hi Ho Hh Hw.
  apply (G [i'; o'; h'; w']). now apply in_bounds_intro_4.
Qed.

(** *** Rank 2, no axes given: the matrix transpose *)

Lemma transpose_default_2d : forall a r c,
  wf a -> shape a = [r; c] ->
  wf (transpose_default a) /\
  shape (transpose_default a) = [c; r] /\
  forall j i, j < c -> i < r ->
    get (transpose_default a) [j; i] = get a [i; j].
Proof.
  intros a r c Hwf Hs. unfold transpose_default.
  assert (Hn : ndim a = 2) by (unfold ndim; now rewrite Hs).
  rewrite Hn. change (rev (seq 0 2)) with [1; 0].
  assert (Hax : is_axes (ndim a) [1; 0] = true) by (now rewrite Hn).
  destruct (transpose_spec a _ Hwf Hax) as (T & W & S & G).
  rewrite Hs in S, G. repeat split; auto.
  intros j i Hj Hi. apply (G [j; i]). now apply in_bounds_intro_2.
Qed.

(** *** Compositions on rank 4 *)

Ltac four_axes Hs :=
  unfold ndim; rewrite ?Hs; try reflexivity;
  let j := fresh "j" in let Hin := fresh "Hin" in
  intros j Hin;
  apply in_bounds_4 in Hin as (? & ? & ? & ? & -> & ? & ? & ? & ?);
  try split; try reflexivity; try (now apply in_bounds_intro_4).

(** (3,2,0,1) followed by (1,0,2,3) is (2,3,0,1). *)
Lemma permute_3201_1023 : forall a h w i o,
  wf a -> shape a = [h; w; i; o] ->
  permute [1; 0; 2; 3] (permute [3; 2; 0; 1] a) = permute [2; 3; 0; 1] a.
Proof.
  intros a h w i o Hwf Hs. apply permute_permute; auto; four_axes Hs.
Qed.

(** (3,2,0,1) is undone by (2,3,1,0). *)
Lemma permute_3201_inverse : forall a h w i o,
  wf a -> shape a = [h; w; i; o] ->
  permute [2; 3; 1; 0] (permute [3; 2; 0; 1] a) = a.
Proof.
  intros a h w i o Hwf Hs.
  transitivity (permute [0; 1; 2; 3] a).
  - apply permute_permute; auto; four_axes Hs.
  - apply permute_identity; auto; four_axes Hs.
Qed.

(** (1,0,2,3) undoes itself. *)
Lemma permute_1023_inverse : forall a o i h w,
  wf a -> shape a = [o; i; h; w] ->
  permute [1; 0; 2; 3] (permute [1; 0; 2; 3] a) = a.
Proof.
  intros a o i h w Hwf Hs.
  transitivity (permute [0; 1; 2; 3] a).
  - apply permute_permute; auto; four_axes Hs.
  - apply permute_identity; auto; four_axes Hs.
Qed.

(** (2,3,0,1) undoes itself. *)
Lemma permute_2301_inverse : forall a h w i o,
  wf a -> shape a = [h; w; i; o] ->
  permute [2; 3; 0; 1] (permute [2; 3; 0; 1] a) = a.
Proof.
  intros a h w i o Hwf Hs.
  transitivity (permute [0; 1; 2; 3] a).
  - apply permute_permute; auto; four_axes Hs.
  - apply permute_identity; auto; four_axes Hs.
Qed.
End Layout.
End LayoutFacts.

(** ** The table builder *)

Module NetFacts.
Import Dict DictFacts Net.
Local Open Scope string_scope.

Ltac distinct_keys :=
  unfold keys; cbn [map fst];
  repeat (constructor; [cbn [In]; intuition congruence|]); constructor.

Lemma outside_blocks_nodup :
  NoDup (keys conversion_table_for_weights_outside_blocks).
Proof. unfold conversion_table_for_weights_outside_blocks. distinct_keys. Qed.

Lemma first_block_nodup : NoDup (keys conversion_table_for_first_block).
Proof. unfold conversion_table_for_first_block. distinct_keys. Qed.

Lemma block_first_nodup : forall i, NoDup (keys (conversion_table_block_first i)).
Proof. intros i. unfold conversion_table_block_first. distinct_keys. Qed.

Lemma block_expand_nodup : forall i, NoDup (keys (conversion_table_block_expand i)).
Proof. intros i. unfold conversion_table_block_expand. distinct_keys. Qed.

Lemma block_items_nodup : forall b i, NoDup (keys (block_items b i)).
Proof.
  intros b i. unfold block_items.
  destruct (is_first_block b); [apply block_first_nodup | apply block_expand_nodup].
Qed.

(** The display written for block [i] only names tensors of block [i]. *)
Lemma block_items_key : forall b i k n,
  In (k, n) (block_items b i) -> exists t, k = _blocks i t.
Proof.
  intros b i k n. unfold block_items.
  destruct (is_first_block b);
    [unfold conversion_table_block_first | unfold conversion_table_block_expand];
    cbn [In]; intros H;
    repeat (destruct H as [[= <- _] | H]; [eexists; reflexivity|]);
    destruct H.
Qed.

(** At index 0 the loop's no-expand display is the first-block display. *)
Lemma block_first_0 :
  conversion_table_block_first 0 = conversion_table_for_first_block.
Proof. reflexivity. Qed.

(** The pairs written while the loop walks [bs] from index [i]. *)
Lemma emitted_blocks : forall model,
  emitted model =
  (conversion_table_for_weights_outside_blocks
   ++ conversion_table_for_first_block
   ++ concat (map (fun ib => block_items (snd ib) (fst ib))
                  (combine (seq 0 (length (blocks model))) (blocks model))))%list.
Proof. reflexivity. Qed.

Lemma block_loop_items : forall bs i l,
  block_loop bs i (of_items tensor_eq_dec l) =
  of_items tensor_eq_dec
    (l ++ concat (map (fun ib => block_items (snd ib) (fst ib))
                      (combine (seq i (length bs)) bs)))%list.
Proof.
  induction bs as [|b bs IH]; intros i l; simpl.
  - now rewrite app_nil_r.
  - unfold merge, conversion_table_block.
    rewrite merge_of_items by apply block_items_nodup.
    now rewrite IH, <- app_assoc.
Qed.

(** The table is the dict of everything that was written, in order. *)
Lemma build_conversion_table_emitted : forall model,
  blocks model <> [] ->
  build_conversion_table model = inr (of_items tensor_eq_dec (emitted model)).
Proof.
  intros model H. unfold build_conversion_table, emitted.
  destruct (blocks model) as [|b bs] eqn:E; [contradiction|].
  f_equal. unfold merge.
  pose proof (merge_of_items tensor_eq_dec [] _ outside_blocks_nodup) as M0.
  change (of_items tensor_eq_dec []) with (@nil (tensor * string)) in M0.
  rewrite app_nil_l in M0. rewrite M0.
  rewrite merge_of_items by apply first_block_nodup.
  now rewrite block_loop_items, <- app_assoc.
Qed.

Lemma build_conversion_table_no_blocks : forall model,
  blocks model = [] -> build_conversion_table model = inl IndexError.
Proof. intros model H. unfold build_conversion_table. now rewrite H. Qed.

(** The table starts with the entries written outside the blocks, in
    the order of their display. *)
Lemma build_conversion_table_outside_first : forall model,
  blocks model <> [] ->
  exists rest,
    build_conversion_table model =
    inr (conversion_table_for_weights_outside_blocks ++ rest)%list.
Proof.
  intros model H. rewrite (build_conversion_table_emitted model H).
  rewrite emitted_blocks, of_items_app.
  rewrite (of_items_nodup _ _ outside_blocks_nodup).
  eexists. f_equal.
  rewrite <- (app_nil_r conversion_table_for_weights_outside_blocks) at 1.
  apply fold_set_disjoint.
  intros k Hk Hout. unfold keys in Hk. apply in_map_iff in Hk as [[k' n] [<- Hin]].
  simpl in Hout.
  assert (Hb : exists i t, k' = _blocks i t).
  { apply in_app_or in Hin as [Hin | Hin].
    - exists 0. unfold conversion_table_for_first_block in Hin. cbn [In] in Hin.
      repeat (destruct Hin as [[= <- _] | Hin]; [eexists; reflexivity|]).
      destruct Hin.
    - apply in_concat in Hin as [items [Hitems Hin]].
      apply in_map_iff in Hitems as [[i b] [<- _]].
      destruct (block_items_key _ _ _ _ Hin) as [t ->]. now exists i, t. }
  destruct Hb as (i & t & ->).
  unfold keys, conversion_table_for_weights_outside_blocks in Hout.
  cbn [map fst In] in Hout. intuition discriminate.
Qed.

(** A pair written by the loop was written for some block at its index. *)
Lemma In_loop_items : forall bs i k n,
  In (k, n) (concat (map (fun ib => block_items (snd ib) (fst ib))
                         (combine (seq i (length bs)) bs))) ->
  exists j b, nth_error bs j = Some b /\ In (k, n) (block_items b (i + j)).
Proof.
  induction bs as [|b bs IH]; intros i k n H; simpl in H; [destruct H|].
  apply in_app_or in H as [H | H].
  - exists 0, b. rewrite Nat.add_0_r. auto.
  - destruct (IH _ _ _ H) as (j & b' & Hj & Hin).
    exists (S j), b'. rewrite Nat.add_succ_r. auto.
Qed.


Lemma build_conversion_table_nodup : forall model conversion_table,
  build_conversion_table model = inr conversion_table ->
  NoDup (keys conversion_table).
Proof.
  intros model conversion_table H.
  destruct (blocks model) as [|b bs] eqn:E.
  - rewrite build_conversion_table_no_blocks in H by assumption. discriminate.
  - rewrite build_conversion_table_emitted in H by (rewrite E; discriminate).
    injection H as <-. apply nodup_of_items.
Qed.

(** The store [load_efficientnet] leaves is the one its [load_param]
    leaves, whether the run ends or raises. *)
Lemma load_efficientnet_store :
  forall (A : Type) model (ck : @Loader.checkpoint A) model_name st conversion_table,
    build_conversion_table model = inr conversion_table ->
    fst (load_efficientnet model ck model_name st) =
    fst (Loader.load_param tensor_eq_dec (requires_grad model) ck conversion_table model_name st).
Proof.
  intros A model ck model_name st conversion_table H.
  unfold load_efficientnet. rewrite H.
  now destruct (Loader.load_param _ _ _ _ _ _) as [st' [e|]].
Qed.

(** A conversion that returns built the table and loaded all of it. *)
Lemma load_efficientnet_ok :
  forall (A : Type) model (ck : @Loader.checkpoint A) model_name st st'
         conversion_table,
    load_efficientnet model ck model_name st = (st', inr conversion_table) ->
    build_conversion_table model = inr conversion_table /\
    Loader.load_param tensor_eq_dec (requires_grad model) ck conversion_table model_name st = (st', None).
Proof.
  intros A model ck model_name st st' conversion_table H.
  unfold load_efficientnet in H.
  destruct (build_conversion_table model) as [e|t]; [discriminate|].
  destruct (Loader.load_param tensor_eq_dec (requires_grad model) ck t model_name st)
    as [st1 [e|]] eqn:L; [discriminate|].
  injection H as <- <-. auto.
Qed.
End NetFacts.

(** ** Variable names and the branch they select *)

Module NameFacts.
Import Str StrFacts Loader.
Local Open Scope string_scope.

Lemma append_assoc : forall a b c : string, (a ++ b) ++ c = a ++ b ++ c.
Proof. induction a as [|x a IH]; intros; simpl; [reflexivity | now rewrite IH]. Qed.

Lemma append_nil_r : forall a : string, a ++ "" = a.
Proof. induction a as [|x a IH]; simpl; [reflexivity | now rewrite IH]. Qed.

(** A string that ends with [w] contains [w]. *)
Lemma endswith_contains : forall s w, endswith s w = true -> contains w s = true.
Proof.
  intros s w H. apply endswith_iff in H as [p ->].
  apply contains_iff. exists p, "". now rewrite append_nil_r.
Qed.

(** A string that lacks the first character of [sub] lacks [sub]. *)
Lemma contains_first_char : forall c sub s,
  avoids c s = true -> contains (String c sub) s = false.
Proof.
  intros c sub. induction s as [|x s IH]; intros H.
  - reflexivity.
  - simpl in H. apply andb_true_iff in H as [Hx Hs].
    apply negb_true_iff, Ascii.eqb_neq in Hx.
    rewrite contains_cons, (IH Hs), orb_false_r. simpl.
    destruct (ascii_dec c x); [congruence | reflexivity].
Qed.

(** [str(i)] is made of decimal digits only. *)
Lemma str_digits : forall c i, avoids c "0123456789" = true -> avoids c (str i) = true.
Proof.
  intros c i H. unfold str. generalize (Nat.to_uint i). intros u.
  simpl in H. repeat (apply andb_true_iff in H as [? H]).
  induction u; simpl; auto; apply andb_true_iff; split; assumption.
Qed.

(** None of the three words the loader looks for occurs in ["blocks_<i>"]. *)
Lemma blocks_prefix_conv : forall i, contains "conv" ("blocks_" ++ str i) = false.
Proof.
  intros i. cbn -[str]. now apply contains_first_char, str_digits.
Qed.

Lemma blocks_prefix_kernel : forall i, contains "kernel" ("blocks_" ++ str i) = false.
Proof.
  intros i. cbn -[str]. now apply contains_first_char, str_digits.
Qed.

Lemma blocks_prefix_depthwise : forall i,
  contains "depthwise" ("blocks_" ++ str i) = false.
Proof.
  intros i. cbn -[str]. now apply contains_first_char, str_digits.
Qed.

(** A substring test on a full name looks at the model name and at the
    sub-path separately; the suffix test looks at the sub-path only. *)
Lemma contains_full_name : forall w model_name sub,
  avoids "/" w = true ->
  contains w (model_name ++ "/" ++ sub) = contains w model_name || contains w sub.
Proof. intros. now apply contains_app_sep. Qed.

Lemma endswith_full_name : forall w model_name sub,
  avoids "/" w = true ->
  endswith (model_name ++ "/" ++ sub) w = endswith sub w.
Proof. intros. now apply endswith_app_sep. Qed.

Lemma contains_block_name : forall w i rest,
  avoids "/" w = true -> contains w ("blocks_" ++ str i) = false ->
  contains w ("blocks_" ++ str i ++ String "/" rest) = contains w rest.
Proof.
  intros w i rest Hw Hb.
  now rewrite <- append_assoc, contains_app_sep, Hb.
Qed.

Lemma endswith_block_name : forall w i rest,
  avoids "/" w = true ->
  endswith ("blocks_" ++ str i ++ String "/" rest) w = endswith rest w.
Proof.
  intros w i rest Hw.
  now rewrite <- append_assoc, endswith_app_sep.
Qed.

(** A word found in the last part of a block's variable name is found
    in the full name, whatever the model name and the index. *)
Lemma contains_block_tail : forall w model_name i rest,
  contains w rest = true ->
  contains w (model_name ++ "/" ++ "blocks_" ++ str i ++ rest) = true.
Proof. intros. now repeat apply contains_app_r. Qed.

(** When the model name holds none of the three words, the branch is
    chosen by the sub-path alone. *)
Lemma branch_of_full_name : forall model_name sub,
  contains "conv" model_name = false ->
  contains "depthwise" model_name = false ->
  contains "kernel" model_name = false ->
  branch_of (model_name ++ "/" ++ sub) = branch_of sub.
Proof.
  intros model_name sub Hc Hd Hk. unfold branch_of.
  rewrite !contains_full_name, endswith_full_name by reflexivity.
  now rewrite Hc, Hd, Hk.
Qed.

(** For a block's variable the branch is chosen by what follows
    ["blocks_<i>/"]. *)
Lemma branch_of_block_name : forall i rest,
  branch_of ("blocks_" ++ str i ++ String "/" rest) = branch_of rest.
Proof.
  intros i rest. unfold branch_of.
  rewrite !contains_block_name, endswith_block_name;
    auto using blocks_prefix_conv, blocks_prefix_kernel, blocks_prefix_depthwise.
Qed.

(** [convert] acts as its branch says. *)
Lemma convert_branch : forall (A : Type) name (a : Np.ndarray A),
  convert name a =
  match branch_of name with
  | ConvKernel =>
      match Np.transpose a [3; 2; 0; 1] with
      | None => inl ValueError
      | Some t => inr t
      end
  | DepthwiseKernel =>
      match Np.transpose a [3; 2; 0; 1] with
      | None => inl ValueError
      | Some t =>
          match Np.transpose t [1; 0; 2; 3] with
          | None => inl ValueError
          | Some t' => inr t'
          end
      end
  | DenseKernel => inr (Np.transpose_default a)
  | Plain => inr a
  end.
Proof.
  intros A name a. unfold convert, branch_of.
  destruct (contains "conv" name && contains "kernel" name).
  - destruct (contains "depthwise" name); reflexivity.
  - destruct (endswith name "kernel"); reflexivity.
Qed.
End NameFacts.

(* ================================================================== *)
(** * Part III: properties of the loader and of the table builder *)
(* ================================================================== *)

Import Np NpFacts Loader LoaderFacts LayoutFacts NameFacts.
Import Dict DictFacts Net NetFacts.
Local Open Scope string_scope.

(** C1.  An entry whose full name (model name, ["/"], sub-path) contains
    both ["conv"] and ["kernel"] has its fetched array transposed by
    (3,2,0,1) before anything is checked or copied: an array that numpy
    cannot transpose that way raises and nothing is written; a rank-4
    array of shape (h,w,i,o) becomes [t] of shape (o,i,h,w) with
    [t[o',i',h',w'] = src[h',w',i',o']], and the shape check and the copy
    are made on [t] (on [t] with its first two axes swapped when the name
    also contains ["depthwise"]); the copy of line 40 writes [t], unless
    PyTorch has no tensor type for the dtype or the target requires
    gradients and the dtype is not floating point.  In the stem scenario,
    source ["m/stem/conv2d/kernel"] of shape (3,3,3,32) and a target of
    shape (32,3,3,3), with a dtype the target takes, the run succeeds and
    the target is the source transposed by (3,2,0,1), element by element;
    and after [load_efficientnet] on any model with a block, whether it
    returns or raises at a later entry, the stem weight of the model is
    that transposed array. *)
Theorem conv_kernel_axes_3201 :
  forall (A K : Type) (dec : forall x y : K, {x = y} + {x <> y})
         (requires_grad : K -> bool)
         (ck : @checkpoint A) (st : @store A K) (pyt_param : K),
    (forall model_name sub src,
        Str.contains "conv" (model_name ++ "/" ++ sub) = true ->
        Str.contains "kernel" (model_name ++ "/" ++ sub) = true ->
        ck (model_name ++ "/" ++ sub) = Some src ->
        wf src ->
        (ndim src <> 4 ->
         load_entry dec requires_grad ck model_name st (pyt_param, sub) =
         (st, Some ValueError)) /\
        (forall h w i o, shape src = [h; w; i; o] ->
         exists t,
           transpose src [3; 2; 0; 1] = Some t /\
           shape t = [o; i; h; w] /\
           (forall o' i' h' w', o' < o -> i' < i -> h' < h -> w' < w ->
              get t [o'; i'; h'; w'] = get src [h'; w'; i'; o']) /\
           (Str.contains "depthwise" (model_name ++ "/" ++ sub) = false ->
            load_entry dec requires_grad ck model_name st (pyt_param, sub) =
            if tuple_eqb (shape (st pyt_param)) [o; i; h; w]
            then if has_torch_dtype (dtype src)
                 then if requires_grad pyt_param
                         && negb (is_floating_point (dtype src))
                      then (st, Some RuntimeError)
                      else (assign dec st pyt_param t, None)
                 else (st, Some TypeError)
            else (st, Some (AssertionError (shape (st pyt_param)) [o; i; h; w]
                                           (model_name ++ "/" ++ sub)))) /\
           (Str.contains "depthwise" (model_name ++ "/" ++ sub) = true ->
            exists t',
              transpose t [1; 0; 2; 3] = Some t' /\
              load_entry dec requires_grad ck model_name st (pyt_param, sub) =
              if tuple_eqb (shape (st pyt_param)) (shape t')
              then if has_torch_dtype (dtype src)
                   then if requires_grad pyt_param
                           && negb (is_floating_point (dtype src))
                        then (st, Some RuntimeError)
                        else (assign dec st pyt_param t', None)
                   else (st, Some TypeError)
              else (st, Some (AssertionError (shape (st pyt_param)) (shape t')
                                             (model_name ++ "/" ++ sub))))))
    /\
    (forall src,
        ck "m/stem/conv2d/kernel" = Some src ->
        wf src ->
        shape src = [3; 3; 3; 32] ->
        shape (st pyt_param) = [32; 3; 3; 3] ->
        has_torch_dtype (dtype src) = true ->
        (requires_grad pyt_param = true ->
         is_floating_point (dtype src) = true) ->
        exists st',
          load_param dec requires_grad ck [(pyt_param, "stem/conv2d/kernel")]
            "m" st = (st', None) /\
          transpose src [3; 2; 0; 1] = Some (st' pyt_param) /\
          shape (st' pyt_param) = [32; 3; 3; 3] /\
          forall o i h w, o < 32 -> i < 3 -> h < 3 -> w < 3 ->
            get (st' pyt_param) [o; i; h; w] = get src [h; w; i; o] /\
            get src [h; w; i; o] <> None)
    /\
    (forall (model : Net.EfficientNet) (ck' : @checkpoint A)
            (st0 : @store A Net.tensor) src,
        Net.blocks model <> [] ->
        ck' "m/stem/conv2d/kernel" = Some src ->
        wf src ->
        shape src = [3; 3; 3; 32] ->
        shape (st0 Net._conv_stem_weight) = [32; 3; 3; 3] ->
        has_torch_dtype (dtype src) = true ->
        (Net.requires_grad model Net._conv_stem_weight = true ->
         is_floating_point (dtype src) = true) ->
        transpose src [3; 2; 0; 1] =
        Some (fst (Net.load_efficientnet model ck' "m" st0) Net._conv_stem_weight)).
Proof.
  intros A K dec requires_grad ck st pyt_param. repeat apply conj.
  - intros model_name sub src Hc Hk Hck Hwf. split.
    + intros Hn. apply load_entry_raised with (src := src); [assumption|].
      unfold convert. rewrite Hc, Hk. cbn [andb].
      rewrite transpose_rank; [reflexivity | simpl; congruence].
    + intros h w i o Hs.
      destruct (transpose_3201 src h w i o Hwf Hs) as (T & W & S & G).
      exists (permute [3; 2; 0; 1] src). repeat split; auto.
      * intros Hd. rewrite <- S.
        rewrite load_entry_converted
          with (src := src) (t := permute [3; 2; 0; 1] src);
          [ | assumption | unfold convert; now rewrite Hc, Hk, Hd, T ].
        rewrite copy_array by (unfold ndim; rewrite S; discriminate).
        reflexivity.
      * intros Hd.
        destruct (transpose_1023 _ o i h w W S) as (T' & _ & S' & _).
        exists (permute [1; 0; 2; 3] (permute [3; 2; 0; 1] src)).
        split; [assumption|].
        rewrite load_entry_converted
          with (src := src)
               (t := permute [1; 0; 2; 3] (permute [3; 2; 0; 1] src));
          [ | assumption
            | unfold convert; rewrite Hc, Hk, Hd, T; cbn [andb]; now rewrite T' ].
        rewrite copy_array by (unfold ndim; rewrite S'; discriminate).
        reflexivity.
  - intros src Hck Hwf Hs Ht Hd Hf.
    destruct (transpose_3201 src 3 3 3 32 Hwf Hs) as (T & W & S & G).
    exists (assign dec st pyt_param (permute [3; 2; 0; 1] src)).
    rewrite assign_same. repeat split; auto.
    + rewrite load_param_cons.
      rewrite load_entry_converted with (src := src) (t := permute [3; 2; 0; 1] src);
        [ | assumption | unfold convert; now rewrite T ].
      rewrite Ht, S, tuple_eqb_refl.
      rewrite copy_accepted;
        [reflexivity | unfold ndim; rewrite S; discriminate | exact Hd | exact Hf].
    + apply get_in_bounds; [assumption|].
      rewrite Hs. now apply in_bounds_intro_4.
  - intros model ck' st0 src Hb Hck Hwf Hs Ht Hd Hf.
    destruct (transpose_3201 src 3 3 3 32 Hwf Hs) as (T & W & S & G).
    destruct (build_conversion_table_outside_first model Hb) as [rest Hbuild].
    pose proof (build_conversion_table_nodup _ _ Hbuild) as Hnd.
    rewrite (load_efficientnet_store A _ ck' "m" st0 _ Hbuild).
    unfold conversion_table_for_weights_outside_blocks in *.
    cbn [app] in *. unfold keys in Hnd. cbn [map fst] in Hnd.
    apply NoDup_cons_iff in Hnd as [Hfresh _].
    rewrite load_param_cons.
    rewrite load_entry_converted with (src := src) (t := permute [3; 2; 0; 1] src);
      [ | assumption | unfold convert; now rewrite T ].
    rewrite Ht, S, tuple_eqb_refl.
    rewrite copy_accepted;
      [ | unfold ndim; rewrite S; discriminate | exact Hd | exact Hf].
    rewrite load_param_frame by exact Hfresh.
    now rewrite assign_same.
Qed.

Lemma conv_kernel_axes_3201_witness :
  (exists st',
      load_param Net.tensor_eq_dec Examples.trainable Examples.stem_checkpoint
        [(Net._conv_stem_weight, "stem/conv2d/kernel")] "m"
        (Examples.zeros [32; 3; 3; 3]) = (st', None) /\
      shape (st' Net._conv_stem_weight) = [32; 3; 3; 3] /\
      get (st' Net._conv_stem_weight) [5; 1; 2; 0] = Some 613 /\
      get Examples.stem_kernel [2; 0; 1; 5] = Some 613) /\
  transpose Examples.stem_kernel [3; 2; 0; 1] =
  Some (fst (Net.load_efficientnet Examples.three_blocks
               Examples.stem_checkpoint "m" (Examples.zeros [32; 3; 3; 3]))
            Net._conv_stem_weight) /\
  snd (Net.load_efficientnet Examples.three_blocks
         Examples.stem_checkpoint "m" (Examples.zeros [32; 3; 3; 3])) =
  inl (NotFoundError "m/stem/tpu_batch_normalization/beta").
Proof.
  destruct (conv_kernel_axes_3201 nat Net.tensor Net.tensor_eq_dec Examples.trainable
              Examples.stem_checkpoint (Examples.zeros [32; 3; 3; 3])
              Net._conv_stem_weight) as (_ & S & E).
  split; [|split].
  - destruct (S Examples.stem_kernel) as (st' & L & T & Sh & G);
      [reflexivity | reflexivity | reflexivity | reflexivity
       | reflexivity | reflexivity |].
    exists st'. split; [exact L | split; [exact Sh | split; [|reflexivity]]].
    destruct (G 5 1 2 0) as [Eq _]; [lia | lia | lia | lia |].
    rewrite Eq. reflexivity.
  - apply (E Examples.three_blocks Examples.stem_checkpoint
             (Examples.zeros [32; 3; 3; 3]) Examples.stem_kernel);
      [discriminate | reflexivity | reflexivity | reflexivity | reflexivity
       | reflexivity | reflexivity].
  - vm_compute. reflexivity.
Defined.

(** C2.  When the converted array of an entry has a shape other than
    the target's, the run stops at that entry: the entries after it are
    never looked at, the model is left exactly as the entries before it
    left it (so the target of the failing entry is not written), and the
    exception carries the target's shape, the converted array's shape and
    the full variable name.  The comparison succeeds exactly when the two
    shapes have the same length and agree at every position. *)
Theorem shape_mismatch_fails_before_copy :
  forall (A K : Type) (dec : forall x y : K, {x = y} + {x <> y})
         (requires_grad : K -> bool)
         (ck : @checkpoint A) (model_name : string) (st st1 : @store A K)
         (pre post : list (K * string)) (pyt_param : K) (sub : string)
         (src t : ndarray A),
    load_param dec requires_grad ck pre model_name st = (st1, None) ->
    ck (model_name ++ "/" ++ sub) = Some src ->
    convert (model_name ++ "/" ++ sub) src = inr t ->
    shape (st1 pyt_param) <> shape t ->
    load_entry dec requires_grad ck model_name st1 (pyt_param, sub) =
      (st1, Some (AssertionError (shape (st1 pyt_param)) (shape t)
                                 (model_name ++ "/" ++ sub))) /\
    load_param dec requires_grad ck (pre ++ (pyt_param, sub) :: post)%list model_name st =
      (st1, Some (AssertionError (shape (st1 pyt_param)) (shape t)
                                 (model_name ++ "/" ++ sub))) /\
    (forall s1 s2,
        tuple_eqb s1 s2 = true <->
        length s1 = length s2 /\
        forall n, n < length s1 -> nth n s1 0 = nth n s2 0).
Proof.
  intros A K dec requires_grad ck model_name st st1 pre post pyt_param sub src t
         Hpre Hck Hc Hne.
  assert (E : load_entry dec requires_grad ck model_name st1 (pyt_param, sub) =
              (st1, Some (AssertionError (shape (st1 pyt_param)) (shape t)
                                         (model_name ++ "/" ++ sub)))).
  { rewrite (load_entry_converted dec requires_grad ck model_name st1 pyt_param sub src t Hck Hc).
    now rewrite (tuple_eqb_neq _ _ Hne). }
  split; [exact E | split; [|exact tuple_eqb_pointwise]].
  now rewrite load_param_app, Hpre, load_param_cons, E.
Qed.

Lemma shape_mismatch_fails_before_copy_witness :
  load_param Net.tensor_eq_dec Examples.trainable Examples.stem_bn_checkpoint
    Examples.stem_then_beta "m" (Examples.zeros [3; 3; 3; 32]) =
  (Examples.zeros [3; 3; 3; 32],
   Some (AssertionError [3; 3; 3; 32] [32; 3; 3; 3] "m/stem/conv2d/kernel")).
Proof.
  apply (shape_mismatch_fails_before_copy nat Net.tensor Net.tensor_eq_dec Examples.trainable
           Examples.stem_bn_checkpoint "m"
           (Examples.zeros [3; 3; 3; 32]) (Examples.zeros [3; 3; 3; 32])
           [] [(Net._bn0 Net.bias, "stem/tpu_batch_normalization/beta")]
           Net._conv_stem_weight "stem/conv2d/kernel"
           Examples.stem_kernel (permute [3; 2; 0; 1] Examples.stem_kernel)).
  - reflexivity.
  - reflexivity.
  - vm_compute. reflexivity.
  - simpl. discriminate.
Defined.

(** C3, as stated, fails: a block with an expand convolution gets 19
    pairs, not 18. *)
Lemma expand_block_has_19_pairs :
  length (conversion_table_block {| has_expand_conv := true |} 1) = 19 /\
  length (conversion_table_block {| has_expand_conv := true |} 1) <> 18.
Proof. split; [reflexivity | discriminate]. Qed.

(** C3, amended.  For every block and every index, the builder writes
    exactly 14 pairs when the block has no expand convolution and exactly
    19 when it has one; the five extra targets are the expand convolution
    kernel and the four tensors of the batch-norm layer [_bn0]. *)
Theorem block_table_sizes :
  forall (b : MBConvBlock) (i : nat),
    length (conversion_table_block b i) =
      (if has_expand_conv b then 19 else 14) /\
    (forall k,
        In k (keys (conversion_table_block {| has_expand_conv := true |} i)) <->
        In k (keys (conversion_table_block {| has_expand_conv := false |} i)) \/
        k = _blocks i _expand_conv_weight \/
        exists t, k = _blocks i (_bn0_ t)).
Proof.
  intros b i. unfold conversion_table_block. split.
  - rewrite of_items_nodup by apply block_items_nodup.
    unfold block_items, is_first_block.
    destruct (has_expand_conv b); reflexivity.
  - intros k. rewrite !of_items_nodup by apply block_items_nodup.
    unfold block_items, is_first_block, keys. cbn [has_expand_conv negb].
    unfold conversion_table_block_expand, conversion_table_block_first.
    cbn [map fst In]. split.
    + intros H.
      repeat (destruct H as [<- | H];
              [first [ now (right; left)
                     | now (right; right; eexists)
                     | left; tauto ] |]).
      destruct H.
    + intros [H | [-> | [t ->]]]; [tauto | tauto | destruct t; tauto].
Qed.

(** C4.  An entry whose full name contains ["conv"], ["kernel"] and
    ["depthwise"] gets, after the (3,2,0,1) transposition, a second one
    that swaps the first two axes of the result; together they are the
    transposition (2,3,0,1) of the fetched array, and the shape check and
    the copy are made on that array; the copy of line 40 writes it,
    unless PyTorch has no tensor type for the dtype or the target
    requires gradients and the dtype is not floating point.  The
    depthwise variable of every
    block, under every model name, has such a name.  A name with ["conv"]
    and ["kernel"] but without ["depthwise"] gets the (3,2,0,1)
    transposition alone, and a name that only ends in ["kernel"] gets the
    plain transpose; with a model name that lacks ["depthwise"], the other
    convolution kernels of a block lack it too. *)
Theorem depthwise_extra_swap :
  forall (A K : Type) (dec : forall x y : K, {x = y} + {x <> y})
         (requires_grad : K -> bool)
         (ck : @checkpoint A) (st : @store A K) (pyt_param : K),
    (forall model_name sub src h w i o,
        Str.contains "conv" (model_name ++ "/" ++ sub) = true ->
        Str.contains "kernel" (model_name ++ "/" ++ sub) = true ->
        Str.contains "depthwise" (model_name ++ "/" ++ sub) = true ->
        ck (model_name ++ "/" ++ sub) = Some src ->
        wf src -> shape src = [h; w; i; o] ->
        exists t t',
          transpose src [3; 2; 0; 1] = Some t /\
          transpose t [1; 0; 2; 3] = Some t' /\
          transpose src [2; 3; 0; 1] = Some t' /\
          shape t = [o; i; h; w] /\ shape t' = [i; o; h; w] /\
          (forall i' o' h' w', i' < i -> o' < o -> h' < h -> w' < w ->
             get t' [i'; o'; h'; w'] = get t [o'; i'; h'; w'] /\
             get t' [i'; o'; h'; w'] = get src [h'; w'; i'; o']) /\
          load_entry dec requires_grad ck model_name st (pyt_param, sub) =
          if tuple_eqb (shape (st pyt_param)) [i; o; h; w]
          then if has_torch_dtype (dtype src)
               then if requires_grad pyt_param
                       && negb (is_floating_point (dtype src))
                    then (st, Some RuntimeError)
                    else (assign dec st pyt_param t', None)
               else (st, Some TypeError)
          else (st, Some (AssertionError (shape (st pyt_param)) [i; o; h; w]
                                         (model_name ++ "/" ++ sub)))) /\
    (forall model_name i,
        Str.contains "conv"
          (model_name ++ "/" ++ "blocks_" ++ Str.str i
                      ++ "/depthwise_conv2d/depthwise_kernel") = true /\
        Str.contains "kernel"
          (model_name ++ "/" ++ "blocks_" ++ Str.str i
                      ++ "/depthwise_conv2d/depthwise_kernel") = true /\
        Str.contains "depthwise"
          (model_name ++ "/" ++ "blocks_" ++ Str.str i
                      ++ "/depthwise_conv2d/depthwise_kernel") = true) /\
    (forall name (src : ndarray A),
        Str.contains "conv" name = true ->
        Str.contains "kernel" name = true ->
        Str.contains "depthwise" name = false ->
        convert name src =
        match transpose src [3; 2; 0; 1] with
        | Some t => inr t
        | None => inl ValueError
        end) /\
    (forall name (src : ndarray A),
        Str.contains "conv" name && Str.contains "kernel" name = false ->
        Str.endswith name "kernel" = true ->
        convert name src = inr (transpose_default src)) /\
    (forall model_name i,
        Str.contains "depthwise" model_name = false ->
        Str.contains "depthwise"
          (model_name ++ "/" ++ "blocks_" ++ Str.str i ++ "/conv2d/kernel") = false /\
        Str.contains "depthwise"
          (model_name ++ "/" ++ "blocks_" ++ Str.str i ++ "/conv2d_1/kernel") = false /\
        Str.contains "depthwise"
          (model_name ++ "/" ++ "blocks_" ++ Str.str i ++ "/se/conv2d/kernel") = false /\
        Str.contains "depthwise"
          (model_name ++ "/" ++ "blocks_" ++ Str.str i ++ "/se/conv2d_1/kernel") = false).
Proof.
  intros A K dec requires_grad ck st pyt_param. repeat apply conj.
  - intros model_name sub src h w i o Hc Hk Hd Hck Hwf Hs.
    destruct (transpose_3201 src h w i o Hwf Hs) as (T & W & S & G).
    destruct (transpose_1023 _ o i h w W S) as (T' & W' & S' & G').
    exists (permute [3; 2; 0; 1] src),
           (permute [1; 0; 2; 3] (permute [3; 2; 0; 1] src)).
    repeat apply conj; auto.
    + rewrite (permute_3201_1023 src h w i o Hwf Hs).
      apply transpose_Some. unfold ndim. now rewrite Hs.
    + intros i' o' h' w' Hi Ho Hh Hw.
      rewrite G' by assumption. split; [reflexivity | now apply G].
    + rewrite <- S'.
      rewrite load_entry_converted
        with (src := src)
             (t := permute [1; 0; 2; 3] (permute [3; 2; 0; 1] src));
        [ | assumption
          | unfold convert; rewrite Hc, Hk, Hd, T; cbn [andb]; now rewrite T' ].
      rewrite copy_array by (unfold ndim; rewrite S'; discriminate).
      reflexivity.
  - intros model_name i. repeat apply conj; now apply contains_block_tail.
  - intros name src Hc Hk Hd. unfold convert. rewrite Hc, Hk, Hd. cbn [andb].
    now destruct (transpose src [3; 2; 0; 1]).
  - intros name src Hck He. unfold convert. now rewrite Hck, He.
  - intros model_name i Hd.
    repeat apply conj;
      rewrite contains_full_name, contains_block_name, Hd;
      auto using blocks_prefix_depthwise.
Qed.

Lemma depthwise_extra_swap_witness :
  exists t t',
    transpose Examples.depthwise_kernel [3; 2; 0; 1] = Some t /\
    transpose t [1; 0; 2; 3] = Some t' /\
    transpose Examples.depthwise_kernel [2; 3; 0; 1] = Some t' /\
    shape t = [1; 4; 3; 3] /\ shape t' = [4; 1; 3; 3] /\
    (forall i' o' h' w', i' < 4 -> o' < 1 -> h' < 3 -> w' < 3 ->
       get t' [i'; o'; h'; w'] = get t [o'; i'; h'; w'] /\
       get t' [i'; o'; h'; w'] = get Examples.depthwise_kernel [h'; w'; i'; o']) /\
    load_entry Net.tensor_eq_dec Examples.trainable
      (Examples.single "m/blocks_0/depthwise_conv2d/depthwise_kernel"
                       Examples.depthwise_kernel)
      "m" (Examples.zeros [4; 1; 3; 3])
      (Net._blocks 0 Net._depthwise_conv_weight,
       "blocks_0/depthwise_conv2d/depthwise_kernel") =
    if tuple_eqb (shape (Examples.zeros [4; 1; 3; 3]
                           (Net._blocks 0 Net._depthwise_conv_weight)))
                 [4; 1; 3; 3]
    then if has_torch_dtype (dtype Examples.depthwise_kernel)
         then if Examples.trainable (Net._blocks 0 Net._depthwise_conv_weight)
                 && negb (is_floating_point (dtype Examples.depthwise_kernel))
              then (Examples.zeros [4; 1; 3; 3], Some RuntimeError)
              else (assign Net.tensor_eq_dec (Examples.zeros [4; 1; 3; 3])
                      (Net._blocks 0 Net._depthwise_conv_weight) t', None)
         else (Examples.zeros [4; 1; 3; 3], Some TypeError)
    else (Examples.zeros [4; 1; 3; 3],
          Some (AssertionError
                  (shape (Examples.zeros [4; 1; 3; 3]
                            (Net._blocks 0 Net._depthwise_conv_weight)))
                  [4; 1; 3; 3]
                  ("m" ++ "/" ++ "blocks_0/depthwise_conv2d/depthwise_kernel"))).
Proof.
  destruct (depthwise_extra_swap nat Net.tensor Net.tensor_eq_dec Examples.trainable
              (Examples.single "m/blocks_0/depthwise_conv2d/depthwise_kernel"
                               Examples.depthwise_kernel)
              (Examples.zeros [4; 1; 3; 3])
              (Net._blocks 0 Net._depthwise_conv_weight)) as [D _].
  apply (D "m" "blocks_0/depthwise_conv2d/depthwise_kernel"
           Examples.depthwise_kernel 3 3 4 1); reflexivity.
Defined.

(** C5.  An entry whose full name ends in ["kernel"] without containing
    both ["conv"] and ["kernel"] has its fetched matrix transposed: from
    shape (r,c) to shape (c,r), with [t[j,i] = src[i,j]], and the shape
    check and the copy are made on the transpose; the copy of line 40
    writes it, unless PyTorch has no tensor type for the dtype or the
    target requires gradients and the dtype is not floating point.  In
    the dense head scenario, under a model name without ["conv"], a
    stored ["head/dense/kernel"] of shape (1280,1000) and a target of
    shape (1000,1280), with a dtype the target takes, the run succeeds
    and the target is that transpose; and whenever [load_efficientnet]
    returns, the weight of the final layer of the model is the transpose
    of the stored dense kernel. *)
Theorem dense_kernel_transposed :
  forall (A K : Type) (dec : forall x y : K, {x = y} + {x <> y})
         (requires_grad : K -> bool)
         (ck : @checkpoint A) (st : @store A K) (pyt_param : K),
    (forall model_name sub src r c,
        Str.contains "conv" (model_name ++ "/" ++ sub)
          && Str.contains "kernel" (model_name ++ "/" ++ sub) = false ->
        Str.endswith (model_name ++ "/" ++ sub) "kernel" = true ->
        ck (model_name ++ "/" ++ sub) = Some src ->
        wf src -> shape src = [r; c] ->
        shape (transpose_default src) = [c; r] /\
        (forall j i, j < c -> i < r ->
           get (transpose_default src) [j; i] = get src [i; j]) /\
        load_entry dec requires_grad ck model_name st (pyt_param, sub) =
        if tuple_eqb (shape (st pyt_param)) [c; r]
        then if has_torch_dtype (dtype src)
             then if requires_grad pyt_param
                     && negb (is_floating_point (dtype src))
                  then (st, Some RuntimeError)
                  else (assign dec st pyt_param (transpose_default src), None)
             else (st, Some TypeError)
        else (st, Some (AssertionError (shape (st pyt_param)) [c; r]
                                       (model_name ++ "/" ++ sub)))) /\
    (forall model_name src,
        Str.contains "conv" model_name = false ->
        ck (model_name ++ "/" ++ "head/dense/kernel") = Some src ->
        wf src ->
        shape src = [1280; 1000] ->
        shape (st pyt_param) = [1000; 1280] ->
        has_torch_dtype (dtype src) = true ->
        (requires_grad pyt_param = true ->
         is_floating_point (dtype src) = true) ->
        exists st',
          load_param dec requires_grad ck [(pyt_param, "head/dense/kernel")]
            model_name st = (st', None) /\
          st' pyt_param = transpose_default src /\
          shape (st' pyt_param) = [1000; 1280] /\
          forall j i, j < 1000 -> i < 1280 ->
            get (st' pyt_param) [j; i] = get src [i; j] /\
            get src [i; j] <> None) /\
    (forall (model : Net.EfficientNet) (ck' : @checkpoint A)
            (st0 st' : @store A Net.tensor) conversion_table model_name src r c,
        Str.contains "conv" model_name = false ->
        Net.load_efficientnet model ck' model_name st0 = (st', inr conversion_table) ->
        ck' (model_name ++ "/" ++ "head/dense/kernel") = Some src ->
        wf src ->
        shape src = [r; c] ->
        st' Net._fc_weight = transpose_default src /\
        shape (st' Net._fc_weight) = [c; r] /\
        forall j i, j < c -> i < r ->
          get (st' Net._fc_weight) [j; i] = get src [i; j]).
Proof.
  intros A K dec requires_grad ck st pyt_param.
  assert (Name : forall model_name,
             Str.contains "conv" model_name = false ->
             Str.contains "conv" (model_name ++ "/" ++ "head/dense/kernel")
               && Str.contains "kernel" (model_name ++ "/" ++ "head/dense/kernel")
             = false /\
             Str.endswith (model_name ++ "/" ++ "head/dense/kernel") "kernel" = true).
  { intros model_name Hm. split.
    - rewrite contains_full_name, Hm by reflexivity. reflexivity.
    - now rewrite endswith_full_name by reflexivity. }
  assert (General : forall model_name sub src r c,
        Str.contains "conv" (model_name ++ "/" ++ sub)
          && Str.contains "kernel" (model_name ++ "/" ++ sub) = false ->
        Str.endswith (model_name ++ "/" ++ sub) "kernel" = true ->
        ck (model_name ++ "/" ++ sub) = Some src ->
        wf src -> shape src = [r; c] ->
        shape (transpose_default src) = [c; r] /\
        (forall j i, j < c -> i < r ->
           get (transpose_default src) [j; i] = get src [i; j]) /\
        load_entry dec requires_grad ck model_name st (pyt_param, sub) =
        if tuple_eqb (shape (st pyt_param)) [c; r]
        then copy dec requires_grad st pyt_param (transpose_default src)
        else (st, Some (AssertionError (shape (st pyt_param)) [c; r]
                                       (model_name ++ "/" ++ sub)))).
  { intros model_name sub src r c Hck He Hsrc Hwf Hs.
    destruct (transpose_default_2d src r c Hwf Hs) as (W & S & G).
    repeat apply conj; auto.
    rewrite <- S. apply load_entry_converted with (src := src); [assumption|].
    unfold convert. now rewrite Hck, He. }
  repeat apply conj.
  - intros model_name sub src r c Hck He Hsrc Hwf Hs.
    destruct (General model_name sub src r c Hck He Hsrc Hwf Hs) as (S & G & L).
    repeat apply conj; auto.
    rewrite L, copy_array by (unfold ndim; rewrite S; discriminate).
    reflexivity.
  - intros model_name src Hm Hsrc Hwf Hs Ht Hd Hf.
    destruct (Name model_name Hm) as [Hck He].
    destruct (General model_name "head/dense/kernel" src 1280 1000)
      as (S & G & L); auto.
    exists (assign dec st pyt_param (transpose_default src)).
    rewrite assign_same. repeat apply conj; auto.
    + rewrite load_param_cons, L, Ht. rewrite tuple_eqb_refl.
      rewrite copy_accepted;
        [reflexivity | unfold ndim; rewrite S; discriminate | exact Hd | exact Hf].
    + intros j i Hj Hi. split; [now apply G|].
      apply get_in_bounds; [assumption|].
      rewrite Hs. now apply in_bounds_intro_2.
  - intros model ck' st0 st' conversion_table model_name src r c
           Hm Hrun Hsrc Hwf Hs.
    destruct (Name model_name Hm) as [Hck He].
    destruct (transpose_default_2d src r c Hwf Hs) as (W & S & G).
    destruct (load_efficientnet_ok A _ _ _ _ _ _ Hrun) as [Hbuild Hload].
    pose proof (build_conversion_table_nodup _ _ Hbuild) as Hnd.
    assert (Hb : Net.blocks model <> []).
    { intros E. rewrite build_conversion_table_no_blocks in Hbuild by exact E.
      discriminate. }
    destruct (build_conversion_table_outside_first model Hb) as [rest Hrest].
    rewrite Hbuild in Hrest. injection Hrest as ->.
    destruct (load_param_ok Net.tensor_eq_dec _ _ _ _ _ _ Hnd Hload) as [Hin _].
    destruct (Hin Net._fc_weight "head/dense/kernel") as (src' & t & Hs' & Hc & _ & Ht).
    { cbn [In]. tauto. }
    rewrite Hsrc in Hs'. injection Hs' as <-.
    unfold convert in Hc. rewrite Hck, He in Hc. injection Hc as <-.
    rewrite Ht. repeat apply conj; auto.
Qed.

Lemma dense_kernel_transposed_witness :
  (exists st',
      load_param Net.tensor_eq_dec Examples.trainable
        (Examples.single "m/head/dense/kernel" Examples.dense_kernel)
        [(Net._fc_weight, "head/dense/kernel")] "m"
        (Examples.zeros [1000; 1280]) = (st', None) /\
      st' Net._fc_weight = transpose_default Examples.dense_kernel /\
      shape (st' Net._fc_weight) = [1000; 1280] /\
      forall j i, j < 1000 -> i < 1280 ->
        get (st' Net._fc_weight) [j; i] = get Examples.dense_kernel [i; j] /\
        get Examples.dense_kernel [i; j] <> None) /\
  (exists st' conversion_table,
      Net.load_efficientnet Examples.three_blocks Examples.tiny_checkpoint "m"
        Examples.tiny_model = (st', inr conversion_table) /\
      st' Net._fc_weight = mk_ndarray [2; 3] [1; 3; 5; 2; 4; 6] float32 /\
      st' Net._fc_weight =
        transpose_default (mk_ndarray [3; 2] [1; 2; 3; 4; 5; 6] float32)).
Proof.
  destruct (dense_kernel_transposed nat Net.tensor Net.tensor_eq_dec Examples.trainable
              (Examples.single "m/head/dense/kernel" Examples.dense_kernel)
              (Examples.zeros [1000; 1280]) Net._fc_weight) as (_ & S & E).
  split.
  - apply (S "m" Examples.dense_kernel).
    + reflexivity.
    + reflexivity.
    + apply repeat_length.
    + reflexivity.
    + reflexivity.
    + reflexivity.
    + reflexivity.
  - destruct (Net.load_efficientnet Examples.three_blocks Examples.tiny_checkpoint
                "m" Examples.tiny_model) as [st' [e | conversion_table]] eqn:Run;
      [vm_compute in Run; discriminate|].
    exists st', conversion_table. split; [reflexivity|].
    destruct (E Examples.three_blocks Examples.tiny_checkpoint Examples.tiny_model
                st' conversion_table "m"
                (mk_ndarray [3; 2] [1; 2; 3; 4; 5; 6] float32) 3 2)
      as (Eq & _ & _);
      [reflexivity | exact Run | reflexivity | reflexivity | reflexivity |].
    split; [rewrite Eq; reflexivity | exact Eq].
Defined.

(** C6.  An entry whose full name neither contains both ["conv"] and
    ["kernel"] nor ends in ["kernel"] is copied as fetched: the converted
    array is the source itself, the shape check compares the target with
    the source's own shape, and line 40 is given the source.  When the
    shapes agree and the source is an array (not a scalar) of a dtype
    the target takes, the run returns and the target afterwards is the
    source, so equal element by element; whenever the run returns, the
    target is the source; a scalar variable is refused by
    [torch.from_numpy] and the target keeps what it held.  No name
    without ["kernel"] is transposed; the squeeze-excite biases of every
    block, under a model name without ["kernel"], contain ["conv"] but
    not ["kernel"] and so fall in this case. *)
Theorem plain_entries_copied :
  forall (A K : Type) (dec : forall x y : K, {x = y} + {x <> y})
         (requires_grad : K -> bool)
         (ck : @checkpoint A) (st : @store A K) (pyt_param : K),
    (forall model_name sub src,
        Str.contains "conv" (model_name ++ "/" ++ sub)
          && Str.contains "kernel" (model_name ++ "/" ++ sub) = false ->
        Str.endswith (model_name ++ "/" ++ sub) "kernel" = false ->
        ck (model_name ++ "/" ++ sub) = Some src ->
        convert (model_name ++ "/" ++ sub) src = inr src /\
        load_entry dec requires_grad ck model_name st (pyt_param, sub) =
          (if tuple_eqb (shape (st pyt_param)) (shape src)
           then if Nat.eqb (ndim src) 0 || negb (has_torch_dtype (dtype src))
                then (st, Some TypeError)
                else if requires_grad pyt_param
                        && negb (is_floating_point (dtype src))
                     then (st, Some RuntimeError)
                     else (assign dec st pyt_param src, None)
           else (st, Some (AssertionError (shape (st pyt_param)) (shape src)
                                          (model_name ++ "/" ++ sub)))) /\
        (shape (st pyt_param) = shape src ->
         ndim src <> 0 ->
         has_torch_dtype (dtype src) = true ->
         (requires_grad pyt_param = true ->
          is_floating_point (dtype src) = true) ->
         exists st',
           load_param dec requires_grad ck [(pyt_param, sub)] model_name st
             = (st', None) /\
           st' pyt_param = src /\
           forall idx, get (st' pyt_param) idx = get src idx) /\
        (forall st',
           load_param dec requires_grad ck [(pyt_param, sub)] model_name st
             = (st', None) ->
           st' pyt_param = src /\
           forall idx, get (st' pyt_param) idx = get src idx) /\
        (shape (st pyt_param) = shape src ->
         ndim src = 0 ->
         load_param dec requires_grad ck [(pyt_param, sub)] model_name st
           = (st, Some TypeError))) /\
    (forall name,
        Str.contains "kernel" name = false ->
        Str.contains "conv" name && Str.contains "kernel" name = false /\
        Str.endswith name "kernel" = false) /\
    (forall model_name i,
        Str.contains "kernel" model_name = false ->
        Str.contains "conv"
          (model_name ++ "/" ++ "blocks_" ++ Str.str i ++ "/se/conv2d/bias") = true /\
        Str.contains "kernel"
          (model_name ++ "/" ++ "blocks_" ++ Str.str i ++ "/se/conv2d/bias") = false /\
        Str.contains "conv"
          (model_name ++ "/" ++ "blocks_" ++ Str.str i ++ "/se/conv2d_1/bias") = true /\
        Str.contains "kernel"
          (model_name ++ "/" ++ "blocks_" ++ Str.str i ++ "/se/conv2d_1/bias") = false).
Proof.
  intros A K dec requires_grad ck st pyt_param. repeat apply conj.
  - intros model_name sub src Hck He Hsrc.
    assert (Hc : convert (model_name ++ "/" ++ sub) src = inr src)
      by (unfold convert; now rewrite Hck, He).
    pose proof (load_entry_converted dec requires_grad ck model_name st
                  pyt_param sub src src Hsrc Hc) as L.
    repeat apply conj.
    + exact Hc.
    + rewrite L, copy_spec. reflexivity.
    + intros Hs Hn Hd Hf. exists (assign dec st pyt_param src).
      rewrite assign_same. repeat apply conj; auto.
      rewrite load_param_cons, L, Hs, tuple_eqb_refl.
      now rewrite copy_accepted.
    + intros st' Hrun. rewrite load_param_cons in Hrun.
      destruct (load_entry dec requires_grad ck model_name st (pyt_param, sub))
        as [st1 [e|]] eqn:E; [discriminate|].
      injection Hrun as <-.
      destruct (load_entry_ok dec requires_grad _ _ _ _ _ _ E)
        as (src' & t & Hs' & Hc' & _ & ->).
      rewrite Hsrc in Hs'. injection Hs' as <-.
      rewrite Hc in Hc'. injection Hc' as <-.
      rewrite assign_same. auto.
    + intros Hs Hn.
      rewrite load_param_cons, L, Hs, tuple_eqb_refl.
      now rewrite copy_scalar.
  - intros name H. split; [rewrite H; apply andb_false_r|].
    destruct (Str.endswith name "kernel") eqn:E; [|reflexivity].
    apply endswith_contains in E. congruence.
  - intros model_name i H. repeat apply conj;
      first [ now apply contains_block_tail
            | rewrite contains_full_name, contains_block_name, H;
              auto using blocks_prefix_kernel ].
Qed.

Lemma plain_entries_copied_witness :
  convert ("m" ++ "/" ++ "stem/tpu_batch_normalization/beta") Examples.stem_beta
    = inr Examples.stem_beta /\
  (exists st',
     load_param Net.tensor_eq_dec Examples.trainable Examples.stem_bn_checkpoint
       [(Net._bn0 Net.bias, "stem/tpu_batch_normalization/beta")] "m"
       (Examples.zeros [32]) = (st', None) /\
     st' (Net._bn0 Net.bias) = Examples.stem_beta /\
     forall idx, get (st' (Net._bn0 Net.bias)) idx = get Examples.stem_beta idx) /\
  load_param Net.tensor_eq_dec Examples.trainable
    (Examples.single "m/head/dense/bias" Cases.scalar_bias)
    [(Net._fc_bias, "head/dense/bias")] "m" (Examples.zeros []) =
  (Examples.zeros [], Some TypeError).
Proof.
  split; [|split].
  - destruct (plain_entries_copied nat Net.tensor Net.tensor_eq_dec
                Examples.trainable Examples.stem_bn_checkpoint
                (Examples.zeros [32]) (Net._bn0 Net.bias)) as [P _].
    now destruct (P "m" "stem/tpu_batch_normalization/beta" Examples.stem_beta)
      as (C & _).
  - destruct (plain_entries_copied nat Net.tensor Net.tensor_eq_dec
                Examples.trainable Examples.stem_bn_checkpoint
                (Examples.zeros [32]) (Net._bn0 Net.bias)) as [P _].
    destruct (P "m" "stem/tpu_batch_normalization/beta" Examples.stem_beta)
      as (_ & _ & Ok & _); [reflexivity | reflexivity | reflexivity |].
    apply Ok; [reflexivity | discriminate | reflexivity | reflexivity].
  - destruct (plain_entries_copied nat Net.tensor Net.tensor_eq_dec
                Examples.trainable
                (Examples.single "m/head/dense/bias" Cases.scalar_bias)
                (Examples.zeros []) Net._fc_bias) as [P _].
    destruct (P "m" "head/dense/bias" Cases.scalar_bias)
      as (_ & _ & _ & _ & Scalar); [reflexivity | reflexivity | reflexivity |].
    apply Scalar; reflexivity.
Defined.

(** C7, as stated, fails: when block 0 has an expand convolution, the
    first-block display and the loop at [i = 0] write two different names
    for the project convolution of block 0, and the loop's name replaces
    the other in the table. *)
Lemma expanding_first_block_overwrites :
  In (_blocks 0 _project_conv_weight, "blocks_0/conv2d/kernel")
     (emitted Examples.expanding_first_block) /\
  In (_blocks 0 _project_conv_weight, "blocks_0/conv2d_1/kernel")
     (emitted Examples.expanding_first_block) /\
  ~ functional (emitted Examples.expanding_first_block) /\
  exists conversion_table,
    build_conversion_table Examples.expanding_first_block = inr conversion_table /\
    lookup tensor_eq_dec conversion_table (_blocks 0 _project_conv_weight) =
      Some "blocks_0/conv2d_1/kernel".
Proof.
  assert (H1 : In (_blocks 0 _project_conv_weight, "blocks_0/conv2d/kernel")
                  (emitted Examples.expanding_first_block))
    by (vm_compute; tauto).
  assert (H2 : In (_blocks 0 _project_conv_weight, "blocks_0/conv2d_1/kernel")
                  (emitted Examples.expanding_first_block))
    by (vm_compute; tauto).
  repeat split; [exact H1 | exact H2 | |].
  - intros F. specialize (F _ _ _ H1 H2). discriminate.
  - eexists. split; vm_compute; reflexivity.
Qed.

(** C7, amended.  For every model with at least one block whose block 0
    has no expand convolution: among all the pairs written in the displays
    the table is merged from (outside the blocks, the first block, and the
    loop over every block), no target is written with two different names;
    the table is built, holds each target once, and holds exactly the
    pairs that were written, so no merge replaced a name by another. *)
Theorem table_targets_unique :
  forall (model : EfficientNet) (b0 : MBConvBlock) (rest : list MBConvBlock),
    blocks model = b0 :: rest ->
    has_expand_conv b0 = false ->
    functional (emitted model) /\
    exists conversion_table,
      build_conversion_table model = inr conversion_table /\
      NoDup (keys conversion_table) /\
      (forall k n, In (k, n) (emitted model) ->
                   lookup tensor_eq_dec conversion_table k = Some n) /\
      (forall k n, In (k, n) conversion_table -> In (k, n) (emitted model)).
Proof.
  intros model b0 rest Hb H0.
  assert (Hne : blocks model <> []) by (rewrite Hb; discriminate).
  assert (F : functional (emitted model)).
  { (* every pair is written outside the blocks or by the loop *)
    assert (Hsrc : forall k n, In (k, n) (emitted model) ->
              In (k, n) conversion_table_for_weights_outside_blocks \/
              exists j b, nth_error (blocks model) j = Some b /\
                          In (k, n) (block_items b j)).
    { intros k n H. rewrite emitted_blocks in H.
      apply in_app_or in H as [H | H]; [now left | right].
      apply in_app_or in H as [H | H].
      - exists 0, b0. rewrite Hb. split; [reflexivity|].
        unfold block_items, is_first_block. rewrite H0. cbn [negb].
        now rewrite block_first_0.
      - destruct (In_loop_items _ _ _ _ H) as (j & b & Hj & Hin).
        now exists j, b. }
    assert (Hout : forall k n i t,
              In (k, n) conversion_table_for_weights_outside_blocks ->
              k <> _blocks i t).
    { intros k n i t H. unfold conversion_table_for_weights_outside_blocks in H.
      cbn [In] in H.
      repeat (destruct H as [[= <- _] | H]; [discriminate|]). destruct H. }
    intros k n1 n2 H1 H2.
    destruct (Hsrc _ _ H1) as [O1 | (j1 & b1 & N1 & I1)];
      destruct (Hsrc _ _ H2) as [O2 | (j2 & b2 & N2 & I2)].
    - apply (functional_nodup tensor_eq_dec _ outside_blocks_nodup k); assumption.
    - destruct (block_items_key _ _ _ _ I2) as [t ->].
      now apply Hout with (i := j2) (t := t) in O1.
    - destruct (block_items_key _ _ _ _ I1) as [t ->].
      now apply Hout with (i := j1) (t := t) in O2.
    - destruct (block_items_key _ _ _ _ I1) as [t1 ->].
      destruct (block_items_key _ _ _ _ I2) as [t2 E].
      injection E as -> ->. rewrite N1 in N2. injection N2 as ->.
      apply (functional_nodup tensor_eq_dec _ (block_items_nodup b2 j2)
               (_blocks j2 t2)); assumption. }
  split; [exact F|].
  exists (of_items tensor_eq_dec (emitted model)).
  split; [now apply build_conversion_table_emitted|].
  split; [apply nodup_of_items|].
  split.
  - intros k n H. now apply lookup_of_items.
  - intros k n H. now apply In_of_items in H.
Qed.

Lemma table_targets_unique_witness :
  functional (emitted Examples.three_blocks) /\
  exists conversion_table,
    build_conversion_table Examples.three_blocks = inr conversion_table /\
    NoDup (keys conversion_table) /\
    (forall k n, In (k, n) (emitted Examples.three_blocks) ->
                 lookup tensor_eq_dec conversion_table k = Some n) /\
    (forall k n, In (k, n) conversion_table ->
                 In (k, n) (emitted Examples.three_blocks)).
Proof.
  apply (table_targets_unique Examples.three_blocks
           {| has_expand_conv := false |}
           [ {| has_expand_conv := true |}; {| has_expand_conv := true |} ]).
  - reflexivity.
  - reflexivity.
Defined.

(** C8.  For every rank-4 array, transposing by (3,2,0,1) and then by
    the inverse axes (2,3,1,0) gives the array back; so does transposing
    by (3,2,0,1), swapping the first two axes, and then transposing by the
    inverse of the combined axes (2,3,0,1), or undoing the two steps one
    after the other. *)
Theorem transpose_round_trip :
  forall (A : Type) (a : ndarray A) (h w i o : nat),
    wf a -> shape a = [h; w; i; o] ->
    inverse_axes [3; 2; 0; 1] = [2; 3; 1; 0] /\
    inverse_axes [1; 0; 2; 3] = [1; 0; 2; 3] /\
    inverse_axes [2; 3; 0; 1] = [2; 3; 0; 1] /\
    (exists t,
        transpose a [3; 2; 0; 1] = Some t /\
        transpose t (inverse_axes [3; 2; 0; 1]) = Some a) /\
    (exists t t',
        transpose a [3; 2; 0; 1] = Some t /\
        transpose t [1; 0; 2; 3] = Some t' /\
        transpose t' (inverse_axes [2; 3; 0; 1]) = Some a /\
        transpose t' (inverse_axes [1; 0; 2; 3]) = Some t /\
        transpose t (inverse_axes [3; 2; 0; 1]) = Some a).
Proof.
  intros A a h w i o Hwf Hs.
  destruct (transpose_3201 a h w i o Hwf Hs) as (T & W & S & _).
  destruct (transpose_1023 _ o i h w W S) as (T' & W' & S' & _).
  assert (Back : transpose (permute [3; 2; 0; 1] a) (inverse_axes [3; 2; 0; 1])
                 = Some a).
  { change (inverse_axes [3; 2; 0; 1]) with [2; 3; 1; 0].
    rewrite transpose_Some by (now rewrite ndim_permute).
    now rewrite (permute_3201_inverse a h w i o Hwf Hs). }
  repeat apply conj; try reflexivity.
  - now exists (permute [3; 2; 0; 1] a).
  - exists (permute [3; 2; 0; 1] a),
           (permute [1; 0; 2; 3] (permute [3; 2; 0; 1] a)).
    repeat apply conj; auto.
    + change (inverse_axes [2; 3; 0; 1]) with [2; 3; 0; 1].
      rewrite transpose_Some by (now rewrite ndim_permute).
      rewrite (permute_3201_1023 a h w i o Hwf Hs).
      now rewrite (permute_2301_inverse a h w i o Hwf Hs).
    + change (inverse_axes [1; 0; 2; 3]) with [1; 0; 2; 3].
      rewrite transpose_Some by (now rewrite ndim_permute).
      now rewrite (permute_1023_inverse _ o i h w W S).
Qed.

Lemma transpose_round_trip_witness :
  inverse_axes [3; 2; 0; 1] = [2; 3; 1; 0] /\
  inverse_axes [1; 0; 2; 3] = [1; 0; 2; 3] /\
  inverse_axes [2; 3; 0; 1] = [2; 3; 0; 1] /\
  (exists t,
      transpose Examples.small_kernel [3; 2; 0; 1] = Some t /\
      transpose t (inverse_axes [3; 2; 0; 1]) = Some Examples.small_kernel) /\
  (exists t t',
      transpose Examples.small_kernel [3; 2; 0; 1] = Some t /\
      transpose t [1; 0; 2; 3] = Some t' /\
      transpose t' (inverse_axes [2; 3; 0; 1]) = Some Examples.small_kernel /\
      transpose t' (inverse_axes [1; 0; 2; 3]) = Some t /\
      transpose t (inverse_axes [3; 2; 0; 1]) = Some Examples.small_kernel).
Proof.
  apply (transpose_round_trip nat Examples.small_kernel 1 2 3 2); reflexivity.
Defined.

(** C9.  The loop body tests the full name, model name included, and
    what it does to an entry follows from that test.  When the model
    name contains none of ["conv"], ["depthwise"], ["kernel"], the branch
    is the one the sub-path alone selects (for a block's variable, the
    one the part after ["blocks_<i>/"] selects), and the entry is
    converted, checked and copied as the sub-path alone prescribes.  But
    under a model name that contains ["conv"], such as ["convnet"], the
    entry of the dense kernel ["head/dense/kernel"] is given the
    transposition (3,2,0,1): the loop body raises [ValueError] on a
    matrix, and checks and copies the (3,2,0,1) transpose of a rank-4
    array; under ["efficientnet-b0"] the same entry has its matrix
    transposed, checked and copied. *)
Theorem branch_reads_full_name :
  forall (A K : Type) (dec : forall x y : K, {x = y} + {x <> y})
         (requires_grad : K -> bool)
         (ck : @checkpoint A) (st : @store A K) (pyt_param : K),
    (forall model_name sub src,
        Str.contains "conv" model_name = false ->
        Str.contains "depthwise" model_name = false ->
        Str.contains "kernel" model_name = false ->
        ck (model_name ++ "/" ++ sub) = Some src ->
        branch_of (model_name ++ "/" ++ sub) = branch_of sub /\
        load_entry dec requires_grad ck model_name st (pyt_param, sub) =
        match convert sub src with
        | inl e => (st, Some e)
        | inr t =>
            if tuple_eqb (shape (st pyt_param)) (shape t)
            then copy dec requires_grad st pyt_param t
            else (st, Some (AssertionError (shape (st pyt_param)) (shape t)
                                           (model_name ++ "/" ++ sub)))
        end) /\
    (forall model_name i rest,
        Str.contains "conv" model_name = false ->
        Str.contains "depthwise" model_name = false ->
        Str.contains "kernel" model_name = false ->
        branch_of (model_name ++ "/" ++ "blocks_" ++ Str.str i ++ String "/" rest)
        = branch_of rest) /\
    (forall model_name src,
        Str.contains "conv" model_name = true ->
        ck (model_name ++ "/" ++ "head/dense/kernel") = Some src ->
        (forall r c,
            shape src = [r; c] ->
            load_entry dec requires_grad ck model_name st
              (pyt_param, "head/dense/kernel") = (st, Some ValueError)) /\
        (forall h w i o,
            Str.contains "depthwise" model_name = false ->
            wf src -> shape src = [h; w; i; o] ->
            branch_of (model_name ++ "/" ++ "head/dense/kernel") = ConvKernel /\
            exists t,
              transpose src [3; 2; 0; 1] = Some t /\
              shape t = [o; i; h; w] /\
              load_entry dec requires_grad ck model_name st
                (pyt_param, "head/dense/kernel") =
              if tuple_eqb (shape (st pyt_param)) [o; i; h; w]
              then copy dec requires_grad st pyt_param t
              else (st, Some (AssertionError
                                (shape (st pyt_param)) [o; i; h; w]
                                (model_name ++ "/" ++ "head/dense/kernel"))))) /\
    Str.contains "conv" "convnet" = true /\
    Str.contains "depthwise" "convnet" = false /\
    (forall src r c,
        ck ("efficientnet-b0" ++ "/" ++ "head/dense/kernel") = Some src ->
        wf src -> shape src = [r; c] ->
        branch_of ("efficientnet-b0" ++ "/" ++ "head/dense/kernel") = DenseKernel /\
        shape (transpose_default src) = [c; r] /\
        load_entry dec requires_grad ck "efficientnet-b0" st
          (pyt_param, "head/dense/kernel") =
        if tuple_eqb (shape (st pyt_param)) [c; r]
        then copy dec requires_grad st pyt_param (transpose_default src)
        else (st, Some (AssertionError
                          (shape (st pyt_param)) [c; r]
                          ("efficientnet-b0" ++ "/" ++ "head/dense/kernel")))).
Proof.
  intros A K dec requires_grad ck st pyt_param. repeat apply conj.
  - intros model_name sub src Hc Hd Hk Hck.
    pose proof (branch_of_full_name model_name sub Hc Hd Hk) as B.
    split; [exact B|].
    assert (E : convert (model_name ++ "/" ++ sub) src = convert sub src)
      by (now rewrite !convert_branch, B).
    unfold load_entry. now rewrite Hck, E.
  - intros model_name i rest Hc Hd Hk.
    now rewrite branch_of_full_name, branch_of_block_name.
  - intros model_name src Hc Hck.
    assert (Hconv : Str.contains "conv" (model_name ++ "/" ++ "head/dense/kernel")
                    = true)
      by (rewrite contains_full_name, Hc by reflexivity; reflexivity).
    assert (Hker : Str.contains "kernel" (model_name ++ "/" ++ "head/dense/kernel")
                   = true)
      by (rewrite contains_full_name by reflexivity; apply orb_true_r).
    split.
    + intros r c Hs.
      apply load_entry_raised with (src := src); [assumption|].
      unfold convert. rewrite Hconv, Hker. cbn [andb].
      rewrite transpose_rank; [reflexivity|].
      unfold ndim. rewrite Hs. discriminate.
    + intros h w i o Hd Hwf Hs.
      assert (Hdw : Str.contains "depthwise"
                      (model_name ++ "/" ++ "head/dense/kernel") = false)
        by (rewrite contains_full_name, Hd by reflexivity; reflexivity).
      split.
      { unfold branch_of. now rewrite Hconv, Hker, Hdw. }
      destruct (transpose_3201 src h w i o Hwf Hs) as (T & W & S & G).
      exists (permute [3; 2; 0; 1] src).
      split; [exact T | split; [exact S|]].
      rewrite <- S.
      apply load_entry_converted with (src := src); [assumption|].
      unfold convert. now rewrite Hconv, Hker, Hdw, T.
  - reflexivity.
  - reflexivity.
  - intros src r c Hck Hwf Hs.
    destruct (transpose_default_2d src r c Hwf Hs) as (W & S & G).
    split; [reflexivity | split; [exact S|]].
    rewrite <- S.
    apply load_entry_converted with (src := src); [assumption|].
    rewrite convert_branch. reflexivity.
Qed.

Lemma branch_reads_full_name_witness :
  load_entry Net.tensor_eq_dec Examples.trainable
    (Examples.single "convnet/head/dense/kernel" Cases.small_matrix)
    "convnet" (Examples.zeros [2; 3]) (Net._fc_weight, "head/dense/kernel") =
  (Examples.zeros [2; 3], Some ValueError) /\
  load_entry Net.tensor_eq_dec Examples.trainable
    (Examples.single "efficientnet-b0/head/dense/kernel" Cases.small_matrix)
    "efficientnet-b0" (Examples.zeros [2; 3])
    (Net._fc_weight, "head/dense/kernel") =
  (assign Net.tensor_eq_dec (Examples.zeros [2; 3]) Net._fc_weight
     (transpose_default Cases.small_matrix), None).
Proof.
  split.
  - destruct (branch_reads_full_name nat Net.tensor Net.tensor_eq_dec
                Examples.trainable
                (Examples.single "convnet/head/dense/kernel" Cases.small_matrix)
                (Examples.zeros [2; 3]) Net._fc_weight)
      as (_ & _ & Conv & _).
    destruct (Conv "convnet" Cases.small_matrix) as [Matrix _];
      [reflexivity | reflexivity |].
    apply (Matrix 3 2). reflexivity.
  - destruct (branch_reads_full_name nat Net.tensor Net.tensor_eq_dec
                Examples.trainable
                (Examples.single "efficientnet-b0/head/dense/kernel"
                                 Cases.small_matrix)
                (Examples.zeros [2; 3]) Net._fc_weight)
      as (_ & _ & _ & _ & _ & Dense).
    destruct (Dense Cases.small_matrix 3 2) as (_ & _ & L);
      [reflexivity | reflexivity | reflexivity |].
    rewrite L. reflexivity.
Defined.

(** C10.  The loop is not atomic.  When a run over a table (a dict, so
    without repeated keys) ends in the shape assertion, it stopped at one
    entry of the table: every entry before it was fetched and converted,
    and its target holds the converted array; the target of the failing
    entry, and every tensor that is not the target of an earlier entry,
    holds what it held before the run. *)
Theorem load_param_not_atomic :
  forall (A K : Type) (dec : forall x y : K, {x = y} + {x <> y})
         (requires_grad : K -> bool)
         (ck : @checkpoint A) (model_name : string) (st st' : @store A K)
         (conversion_table : list (K * string))
         (pyt_size tf_shape : list nat) (name : string),
    NoDup (map fst conversion_table) ->
    load_param dec requires_grad ck conversion_table model_name st =
      (st', Some (AssertionError pyt_size tf_shape name)) ->
    exists pre pyt_param sub post src t,
      conversion_table = (pre ++ (pyt_param, sub) :: post)%list /\
      name = model_name ++ "/" ++ sub /\
      ck name = Some src /\ convert name src = inr t /\
      pyt_size = shape (st pyt_param) /\ tf_shape = shape t /\
      shape (st pyt_param) <> shape t /\
      (forall k sub', In (k, sub') pre ->
         exists src' t',
           ck (model_name ++ "/" ++ sub') = Some src' /\
           convert (model_name ++ "/" ++ sub') src' = inr t' /\
           st' k = t') /\
      st' pyt_param = st pyt_param /\
      (forall k, ~ In k (map fst pre) -> st' k = st k).
Proof.
  intros A K dec requires_grad ck model_name st st' conversion_table pyt_size tf_shape name
         Hnd H.
  destruct (load_param_exn dec requires_grad _ _ _ _ _ _ H)
    as (pre & [pyt_param sub] & post & -> & Hpre & Hent).
  destruct (load_entry_assertion dec requires_grad _ _ _ _ _ _ _ _ _ Hent)
    as (src & t & Hck & Hc & -> & -> & -> & Hne).
  assert (Hnd_pre : NoDup (map fst pre)).
  { rewrite map_app in Hnd. now apply NoDup_app_remove_r in Hnd. }
  assert (Hfresh : ~ In pyt_param (map fst pre)).
  { rewrite map_app in Hnd. simpl in Hnd.
    apply NoDup_remove_2 in Hnd. intros Hin. apply Hnd, in_or_app. now left. }
  destruct (load_param_ok dec requires_grad _ _ _ _ _ Hnd_pre Hpre) as [Hin Hout].
  rewrite (Hout pyt_param Hfresh) in *.
  exists pre, pyt_param, sub, post, src, t. repeat split; auto.
  intros k sub' Hk. destruct (Hin k sub' Hk) as (src' & t' & ? & ? & _ & ?).
  now exists src', t'.
Qed.

Lemma load_param_not_atomic_witness :
  load_param Net.tensor_eq_dec Examples.trainable Examples.stem_bn_checkpoint
    Examples.stem_then_beta "m" Examples.narrow_model =
  (assign Net.tensor_eq_dec Examples.narrow_model Net._conv_stem_weight
     (permute [3; 2; 0; 1] Examples.stem_kernel),
   Some (AssertionError [16] [32] "m/stem/tpu_batch_normalization/beta")) /\
  get (Examples.narrow_model Net._conv_stem_weight) [5; 1; 2; 0] = Some 0 /\
  get (assign Net.tensor_eq_dec Examples.narrow_model Net._conv_stem_weight
         (permute [3; 2; 0; 1] Examples.stem_kernel) Net._conv_stem_weight)
      [5; 1; 2; 0] = Some 613 /\
  exists pre pyt_param sub post src t,
    Examples.stem_then_beta = (pre ++ (pyt_param, sub) :: post)%list /\
    "m/stem/tpu_batch_normalization/beta" = "m" ++ "/" ++ sub /\
    Examples.stem_bn_checkpoint "m/stem/tpu_batch_normalization/beta" = Some src /\
    convert "m/stem/tpu_batch_normalization/beta" src = inr t /\
    [16] = shape (Examples.narrow_model pyt_param) /\ [32] = shape t /\
    shape (Examples.narrow_model pyt_param) <> shape t /\
    (forall k sub', In (k, sub') pre ->
       exists src' t',
         Examples.stem_bn_checkpoint ("m" ++ "/" ++ sub') = Some src' /\
         convert ("m" ++ "/" ++ sub') src' = inr t' /\
         assign Net.tensor_eq_dec Examples.narrow_model Net._conv_stem_weight
           (permute [3; 2; 0; 1] Examples.stem_kernel) k = t') /\
    assign Net.tensor_eq_dec Examples.narrow_model Net._conv_stem_weight
      (permute [3; 2; 0; 1] Examples.stem_kernel) pyt_param =
    Examples.narrow_model pyt_param /\
    (forall k, ~ In k (map fst pre) ->
       assign Net.tensor_eq_dec Examples.narrow_model Net._conv_stem_weight
         (permute [3; 2; 0; 1] Examples.stem_kernel) k =
       Examples.narrow_model k).
Proof.
  assert (Run : load_param Net.tensor_eq_dec Examples.trainable Examples.stem_bn_checkpoint
                  Examples.stem_then_beta "m" Examples.narrow_model =
                (assign Net.tensor_eq_dec Examples.narrow_model
                   Net._conv_stem_weight
                   (permute [3; 2; 0; 1] Examples.stem_kernel),
                 Some (AssertionError [16] [32]
                         "m/stem/tpu_batch_normalization/beta")))
    by (vm_compute; reflexivity).
  split; [exact Run|].
  split; [reflexivity|].
  split; [reflexivity|].
  apply (load_param_not_atomic nat Net.tensor Net.tensor_eq_dec Examples.trainable
           Examples.stem_bn_checkpoint "m" Examples.narrow_model
           (assign Net.tensor_eq_dec Examples.narrow_model Net._conv_stem_weight
              (permute [3; 2; 0; 1] Examples.stem_kernel))
           Examples.stem_then_beta [16] [32]
           "m/stem/tpu_batch_normalization/beta").
  - unfold Examples.stem_then_beta. simpl.
    repeat constructor; simpl; intuition discriminate.
  - exact Run.
Defined.

(* ================================================================== *)
(** * Part IV: further properties of the script *)
(* ================================================================== *)

From Stdlib Require Import Permutation.
From Stdlib Require DecimalNat.

(** ** Runs of [load_param] as a whole *)

Module RunFacts.

Lemma is_axes_reversed : forall n, is_axes n (rev (seq 0 n)) = true.
Proof.
  intros n. unfold is_axes.
  rewrite length_rev, length_seq, Nat.eqb_refl. cbn [andb].
  apply forallb_forall. intros s Hs.
  apply existsb_exists. exists s. split; [|apply Nat.eqb_refl].
  now apply in_rev in Hs.
Qed.

(** (3,2,0,1) is accepted exactly at rank 4. *)
Lemma is_axes_3201 : forall n, is_axes n [3; 2; 0; 1] = Nat.eqb n 4.
Proof.
  intros n. unfold is_axes. cbn [length].
  destruct (Nat.eqb_spec 4 n) as [<-|Hne].
  - reflexivity.
  - symmetry. apply Nat.eqb_neq. congruence.
Qed.

Section Convert.
Context {A : Type}.
Implicit Types a t : ndarray A.

Lemma transpose_wf : forall a axes t,
  wf a -> transpose a axes = Some t -> wf t.
Proof.
  intros a axes t Hwf H. unfold transpose in H.
  destruct (is_axes (ndim a) axes) eqn:E; [|discriminate].
  injection H as <-. now apply permute_spec.
Qed.

Lemma transpose_default_wf : forall a, wf a -> wf (transpose_default a).
Proof.
  intros a Hwf. unfold transpose_default.
  apply permute_spec; [assumption | apply is_axes_reversed].
Qed.

Lemma transpose_ndim : forall a axes t,
  transpose a axes = Some t -> ndim t = length axes /\ length axes = ndim a.
Proof.
  intros a axes t H. unfold transpose in H.
  destruct (is_axes (ndim a) axes) eqn:E; [|discriminate].
  injection H as <-. split; [apply ndim_permute|].
  unfold is_axes in E. apply andb_true_iff in E as [E _].
  now apply Nat.eqb_eq in E.
Qed.

(** What [convert] returns is well formed when what it is given is. *)
Lemma convert_wf : forall name a t, wf a -> convert name a = inr t -> wf t.
Proof.
  intros name a t Hwf H. unfold convert in H.
  destruct (Str.contains "conv" name && Str.contains "kernel" name).
  - destruct (transpose a [3; 2; 0; 1]) as [t1|] eqn:T1; [|discriminate].
    pose proof (transpose_wf _ _ _ Hwf T1) as W1.
    destruct (Str.contains "depthwise" name).
    + destruct (transpose t1 [1; 0; 2; 3]) as [t2|] eqn:T2; [|discriminate].
      injection H as <-. now apply (transpose_wf _ _ _ W1 T2).
    + now injection H as <-.
  - destruct (Str.endswith name "kernel"); injection H as <-;
      [now apply transpose_default_wf | assumption].
Qed.

(** [convert] raises only [ValueError], and exactly on a name with
    ["conv"] and ["kernel"] given an array whose rank is not 4. *)
Lemma convert_raises : forall name a e,
  convert name a = inl e <->
  e = ValueError /\
  Str.contains "conv" name && Str.contains "kernel" name = true /\
  ndim a <> 4.
Proof.
  intros name a e. unfold convert.
  destruct (Str.contains "conv" name && Str.contains "kernel" name).
  - unfold transpose at 1. rewrite is_axes_3201.
    destruct (Nat.eqb_spec (ndim a) 4) as [E|E].
    + assert (T2 : transpose (permute [3; 2; 0; 1] a) [1; 0; 2; 3] =
                   Some (permute [1; 0; 2; 3] (permute [3; 2; 0; 1] a)))
        by (apply transpose_Some; now rewrite ndim_permute).
      rewrite T2.
      destruct (Str.contains "depthwise" name);
        (split; [discriminate | intros (_ & _ & H); contradiction]).
    + split; [intros [= <-]; auto | intros (-> & _); reflexivity].
  - destruct (Str.endswith name "kernel");
      (split; [discriminate | intros (_ & H & _); discriminate]).
Qed.
End Convert.

Section Runs.
Context {A K : Type}.
Variable dec : forall x y : K, {x = y} + {x <> y}.
Variable requires_grad : K -> bool.
Implicit Types (ck : @checkpoint A) (st : @store A K).

(** One entry never changes the shape of any tensor. *)
Lemma load_entry_shape : forall ck model_name st entry k,
  shape (fst (load_entry dec requires_grad ck model_name st entry) k) = shape (st k).
Proof.
  intros ck model_name st [k0 sub] k.
  destruct (load_entry dec requires_grad ck model_name st (k0, sub)) as [st1 [e|]] eqn:E.
  - now rewrite (load_entry_exn _ _ _ _ _ _ _ _ E).
  - destruct (load_entry_ok _ _ _ _ _ _ _ _ E) as (src & t & _ & _ & Hs & ->).
    simpl. unfold assign. destruct (dec k k0) as [->|]; congruence.
Qed.

Lemma load_param_shape : forall ck model_name tbl st k,
  shape (fst (load_param dec requires_grad ck tbl model_name st) k) = shape (st k).
Proof.
  intros ck model_name. induction tbl as [|entry tbl IH]; intros st k;
    [reflexivity|].
  rewrite load_param_cons.
  pose proof (load_entry_shape ck model_name st entry k) as Hs.
  destruct (load_entry dec requires_grad ck model_name st entry) as [st1 [e|]].
  - exact Hs.
  - rewrite IH. exact Hs.
Qed.

(** An entry loads exactly when its variable is there, converts, has
    the target's shape, and is an array line 40 takes: of rank at least
    one and of a dtype PyTorch has, floating point when the target
    requires gradients. *)
Lemma load_entry_ok_iff : forall ck model_name st k sub,
  (exists st', load_entry dec requires_grad ck model_name st (k, sub) = (st', None)) <->
  (exists src t,
      ck (model_name ++ "/" ++ sub) = Some src /\
      convert (model_name ++ "/" ++ sub) src = inr t /\
      shape (st k) = shape t /\
      ndim t <> 0 /\ has_torch_dtype (dtype t) = true /\
      (requires_grad k = true -> is_floating_point (dtype t) = true)).
Proof.
  intros ck model_name st k sub. split.
  - intros [st' H].
    destruct (load_entry_ok _ _ _ _ _ _ _ _ H) as (src & t & Hck & Hc & Hs & _).
    destruct (load_entry_ok_copy _ _ _ _ _ _ _ _ H)
      as (src' & t' & Hck' & Hc' & Hn & Hd & Hf).
    rewrite Hck in Hck'. injection Hck' as <-.
    rewrite Hc in Hc'. injection Hc' as <-.
    now exists src, t.
  - intros (src & t & Hck & Hc & Hs & Hn & Hd & Hf).
    exists (assign dec st k t).
    rewrite (load_entry_converted dec requires_grad _ _ _ _ _ _ _ Hck Hc).
    rewrite Hs, tuple_eqb_refl. now apply copy_accepted.
Qed.

Lemma load_param_ok_iff : forall ck model_name tbl st,
  (exists st', load_param dec requires_grad ck tbl model_name st = (st', None)) <->
  (forall k sub, In (k, sub) tbl ->
     exists src t,
       ck (model_name ++ "/" ++ sub) = Some src /\
       convert (model_name ++ "/" ++ sub) src = inr t /\
       shape (st k) = shape t /\
       ndim t <> 0 /\ has_torch_dtype (dtype t) = true /\
       (requires_grad k = true -> is_floating_point (dtype t) = true)).
Proof.
  intros ck model_name. induction tbl as [|[k0 sub0] tbl IH]; intros st.
  - split; [intros _ ? ? [] | intros _; now exists st].
  - rewrite load_param_cons. split.
    + intros [st' H].
      destruct (load_entry dec requires_grad ck model_name st (k0, sub0)) as [st1 [e|]] eqn:E;
        [discriminate|].
      intros k sub [[= <- <-] | Hin].
      * apply load_entry_ok_iff. now exists st1.
      * destruct (proj1 (IH st1) (ex_intro _ st' H) k sub Hin)
          as (src & t & ? & ? & Hs & ?).
        exists src, t. repeat split; auto; try tauto.
        rewrite <- Hs.
        pose proof (load_entry_shape ck model_name st (k0, sub0) k) as S.
        rewrite E in S. now symmetry.
    + intros H.
      destruct (proj2 (load_entry_ok_iff ck model_name st k0 sub0)) as [st1 E];
        [apply H; now left|].
      rewrite E. apply IH. intros k sub Hin.
      destruct (H k sub) as (src & t & ? & ? & Hs & ?); [now right|].
      exists src, t. repeat split; auto; try tauto.
      rewrite <- Hs.
      pose proof (load_entry_shape ck model_name st (k0, sub0) k) as S.
      now rewrite E in S.
Qed.

(** Well-formed arrays in, well-formed tensors out. *)
Lemma load_param_wf : forall ck model_name tbl st,
  (forall name a, ck name = Some a -> wf a) ->
  (forall k, wf (st k)) ->
  forall k, wf (fst (load_param dec requires_grad ck tbl model_name st) k).
Proof.
  intros ck model_name tbl st Hck. revert st.
  induction tbl as [|[k0 sub0] tbl IH]; intros st Hst k; [apply Hst|].
  rewrite load_param_cons.
  destruct (load_entry dec requires_grad ck model_name st (k0, sub0)) as [st1 [e|]] eqn:E.
  - rewrite (load_entry_exn _ _ _ _ _ _ _ _ E). apply Hst.
  - destruct (load_entry_ok _ _ _ _ _ _ _ _ E) as (src & t & Hs & Hc & _ & ->).
    apply IH. intros k'. unfold assign.
    destruct (dec k' k0); [|apply Hst].
    eapply convert_wf; [eapply Hck, Hs | exact Hc].
Qed.
End Runs.
End RunFacts.

(** ** Properties of [load_param] *)

(** X1.  [load_param] returns without raising exactly when every entry
    of the table has its variable in the checkpoint, the variable converts
    (it is not a rank-other-than-4 array under a convolution kernel name),
    the converted array has the shape the target had before the run, and
    line 40 takes it: it is an array, not a scalar, of a dtype PyTorch
    has, and floating point when the target requires gradients. *)
Theorem load_param_returns_iff :
  forall (A K : Type) (dec : forall x y : K, {x = y} + {x <> y})
         (requires_grad : K -> bool)
         (ck : @checkpoint A) (model_name : string)
         (conversion_table : list (K * string)) (st : @store A K),
    (exists st', load_param dec requires_grad ck conversion_table model_name st
                 = (st', None)) <->
    (forall k sub, In (k, sub) conversion_table ->
       exists src t,
         ck (model_name ++ "/" ++ sub) = Some src /\
         convert (model_name ++ "/" ++ sub) src = inr t /\
         shape (st k) = shape t /\
         ndim t <> 0 /\
         has_torch_dtype (dtype t) = true /\
         (requires_grad k = true -> is_floating_point (dtype t) = true)).
Proof. intros. apply RunFacts.load_param_ok_iff. Qed.

(** X2.  After a run of [load_param] that returns, over a table without
    repeated keys, the target of every entry holds the converted variable
    of that entry, and every tensor that is no target holds what it held
    before. *)
Theorem load_param_postcondition :
  forall (A K : Type) (dec : forall x y : K, {x = y} + {x <> y})
         (requires_grad : K -> bool)
         (ck : @checkpoint A) (model_name : string)
         (conversion_table : list (K * string)) (st st' : @store A K),
    NoDup (map fst conversion_table) ->
    load_param dec requires_grad ck conversion_table model_name st = (st', None) ->
    (forall k sub, In (k, sub) conversion_table ->
       exists src,
         ck (model_name ++ "/" ++ sub) = Some src /\
         convert (model_name ++ "/" ++ sub) src = inr (st' k)) /\
    (forall k, ~ In k (map fst conversion_table) -> st' k = st k).
Proof.
  intros A K dec requires_grad ck model_name conversion_table st st' Hnd H.
  destruct (load_param_ok dec requires_grad _ _ _ _ _ Hnd H) as [Hin Hout].
  split; [|exact Hout].
  intros k sub Hk. destruct (Hin k sub Hk) as (src & t & ? & ? & _ & <-).
  now exists src.
Qed.

Lemma load_param_postcondition_witness :
  (forall k sub, In (k, sub) Examples.stem_then_beta ->
     exists src,
       Examples.stem_bn_checkpoint ("m" ++ "/" ++ sub) = Some src /\
       convert ("m" ++ "/" ++ sub) src =
       inr (fst (load_param tensor_eq_dec Examples.trainable Examples.stem_bn_checkpoint
                   Examples.stem_then_beta "m" Cases.wide_model) k)) /\
  (forall k, ~ In k (map fst Examples.stem_then_beta) ->
     fst (load_param tensor_eq_dec Examples.trainable Examples.stem_bn_checkpoint
            Examples.stem_then_beta "m" Cases.wide_model) k =
     Cases.wide_model k).
Proof.
  apply (load_param_postcondition nat tensor tensor_eq_dec Examples.trainable
           Examples.stem_bn_checkpoint "m" Examples.stem_then_beta
           Cases.wide_model).
  - unfold Examples.stem_then_beta. simpl.
    repeat constructor; simpl; intuition discriminate.
  - vm_compute. reflexivity.
Defined.

(** X3.  Whatever the outcome of a run of [load_param], no tensor of
    the model changes shape, and no tensor that is not a key of the table
    is written. *)
Theorem load_param_keeps_shapes_and_frame :
  forall (A K : Type) (dec : forall x y : K, {x = y} + {x <> y})
         (requires_grad : K -> bool)
         (ck : @checkpoint A) (model_name : string)
         (conversion_table : list (K * string)) (st : @store A K),
    (forall k,
        shape (fst (load_param dec requires_grad ck conversion_table model_name st) k) =
        shape (st k)) /\
    (forall k, ~ In k (map fst conversion_table) ->
        fst (load_param dec requires_grad ck conversion_table model_name st) k = st k).
Proof.
  intros. split.
  - intros k. apply RunFacts.load_param_shape.
  - intros k Hk. now apply load_param_frame.
Qed.

(** X4.  When the entries before an entry load and the variable of that
    entry is not in the checkpoint, the run raises [NotFoundError] with
    the full variable name, the model is as the earlier entries left it,
    and the entries after it are never looked at. *)
Theorem missing_variable_raises :
  forall (A K : Type) (dec : forall x y : K, {x = y} + {x <> y})
         (requires_grad : K -> bool)
         (ck : @checkpoint A) (model_name : string) (st st1 : @store A K)
         (pre post : list (K * string)) (pyt_param : K) (sub : string),
    load_param dec requires_grad ck pre model_name st = (st1, None) ->
    ck (model_name ++ "/" ++ sub) = None ->
    load_param dec requires_grad ck (pre ++ (pyt_param, sub) :: post)%list model_name st =
    (st1, Some (NotFoundError (model_name ++ "/" ++ sub))).
Proof.
  intros A K dec requires_grad ck model_name st st1 pre post pyt_param sub Hpre Hck.
  rewrite load_param_app, Hpre, load_param_cons.
  unfold load_entry. now rewrite Hck.
Qed.

Lemma missing_variable_raises_witness :
  load_param tensor_eq_dec Examples.trainable Examples.stem_checkpoint
    Examples.stem_then_beta "m" Cases.wide_model =
  (assign tensor_eq_dec Cases.wide_model _conv_stem_weight
     (permute [3; 2; 0; 1] Examples.stem_kernel),
   Some (NotFoundError "m/stem/tpu_batch_normalization/beta")).
Proof.
  apply (missing_variable_raises nat tensor tensor_eq_dec Examples.trainable
           Examples.stem_checkpoint "m" Cases.wide_model
           (assign tensor_eq_dec Cases.wide_model _conv_stem_weight
              (permute [3; 2; 0; 1] Examples.stem_kernel))
           [(_conv_stem_weight, "stem/conv2d/kernel")] []
           (_bn0 bias) "stem/tpu_batch_normalization/beta").
  - vm_compute. reflexivity.
  - reflexivity.
Defined.

(** X5.  A run of [load_param] that raises stopped at one entry, after
    loading the entries before it, and each exception has its cause at
    that entry: [NotFoundError] with the full name, the checkpoint lacks
    the variable; [ValueError], the name contains ["conv"] and ["kernel"]
    and the fetched array does not have rank 4; the shape assertion, the
    converted array and the target differ in shape; [TypeError], the
    shapes agree and the converted value is a scalar or of a dtype
    PyTorch lacks; [RuntimeError], the shapes agree, the target requires
    gradients and the converted array, which [torch.from_numpy] took, is
    not floating point.  [load_param] does not raise [IndexError]. *)
Theorem load_param_exceptions :
  forall (A K : Type) (dec : forall x y : K, {x = y} + {x <> y})
         (requires_grad : K -> bool)
         (ck : @checkpoint A) (model_name : string)
         (conversion_table : list (K * string)) (st st' : @store A K) (e : exn),
    load_param dec requires_grad ck conversion_table model_name st = (st', Some e) ->
    exists pre pyt_param sub post,
      conversion_table = (pre ++ (pyt_param, sub) :: post)%list /\
      load_param dec requires_grad ck pre model_name st = (st', None) /\
      match e with
      | NotFoundError name =>
          name = model_name ++ "/" ++ sub /\ ck name = None
      | ValueError =>
          exists src,
            ck (model_name ++ "/" ++ sub) = Some src /\
            Str.contains "conv" (model_name ++ "/" ++ sub)
              && Str.contains "kernel" (model_name ++ "/" ++ sub) = true /\
            ndim src <> 4
      | AssertionError pyt_size tf_shape name =>
          exists src t,
            name = model_name ++ "/" ++ sub /\
            ck name = Some src /\ convert name src = inr t /\
            pyt_size = shape (st' pyt_param) /\ tf_shape = shape t /\
            pyt_size <> tf_shape
      | TypeError =>
          exists src t,
            ck (model_name ++ "/" ++ sub) = Some src /\
            convert (model_name ++ "/" ++ sub) src = inr t /\
            shape (st' pyt_param) = shape t /\
            (ndim t = 0 \/ has_torch_dtype (dtype t) = false)
      | RuntimeError =>
          exists src t,
            ck (model_name ++ "/" ++ sub) = Some src /\
            convert (model_name ++ "/" ++ sub) src = inr t /\
            shape (st' pyt_param) = shape t /\
            ndim t <> 0 /\ has_torch_dtype (dtype t) = true /\
            requires_grad pyt_param = true /\
            is_floating_point (dtype t) = false
      | IndexError => False
      end.
Proof.
  intros A K dec requires_grad ck model_name conversion_table st st' e H.
  destruct (load_param_exn dec requires_grad _ _ _ _ _ _ H)
    as (pre & [pyt_param sub] & post & -> & Hpre & Hent).
  exists pre, pyt_param, sub, post. repeat split; auto.
  unfold load_entry in Hent.
  destruct (ck (model_name ++ "/" ++ sub)) as [src|] eqn:Hck.
  - destruct (convert (model_name ++ "/" ++ sub) src) as [e'|t] eqn:Hc.
    + injection Hent as <-.
      apply RunFacts.convert_raises in Hc as (-> & Hn & Hr).
      now exists src.
    + destruct (tuple_eqb (shape (st' pyt_param)) (shape t)) eqn:E.
      * apply tuple_eqb_eq in E.
        apply copy_exn in Hent
          as (_ & [[-> Hbad] | (-> & Hn & Hd & Hg & Hf)]);
          exists src, t; repeat split; auto.
      * injection Hent as <-. exists src, t. repeat split; auto.
        intros E'. apply tuple_eqb_eq in E'. congruence.
  - injection Hent as <-. auto.
Qed.

Lemma load_param_exceptions_witness :
  exists pre pyt_param sub post,
    Examples.stem_then_beta = (pre ++ (pyt_param, sub) :: post)%list /\
    load_param tensor_eq_dec Examples.trainable Cases.flat_stem_checkpoint pre "m" Cases.wide_model
      = (Cases.wide_model, None) /\
    exists src,
      Cases.flat_stem_checkpoint ("m" ++ "/" ++ sub) = Some src /\
      Str.contains "conv" ("m" ++ "/" ++ sub)
        && Str.contains "kernel" ("m" ++ "/" ++ sub) = true /\
      ndim src <> 4.
Proof.
  apply (load_param_exceptions nat tensor tensor_eq_dec Examples.trainable
           Cases.flat_stem_checkpoint "m" Examples.stem_then_beta
           Cases.wide_model Cases.wide_model ValueError).
  reflexivity.
Defined.

(** X6.  The order of the entries does not matter to a run that
    returns: over a table without repeated keys, a run over the same
    entries in another order returns too, and leaves every tensor with the
    same value; and when one order raises, so does every other. *)
Theorem load_param_order_independent :
  forall (A K : Type) (dec : forall x y : K, {x = y} + {x <> y})
         (requires_grad : K -> bool)
         (ck : @checkpoint A) (model_name : string)
         (conversion_table reordered : list (K * string)) (st : @store A K),
    Permutation conversion_table reordered ->
    NoDup (map fst conversion_table) ->
    (forall st1,
        load_param dec requires_grad ck conversion_table model_name st = (st1, None) ->
        exists st2,
          load_param dec requires_grad ck reordered model_name st = (st2, None) /\
          forall k, st2 k = st1 k) /\
    (forall st1 e,
        load_param dec requires_grad ck conversion_table model_name st = (st1, Some e) ->
        exists st2 e',
          load_param dec requires_grad ck reordered model_name st = (st2, Some e')).
Proof.
  intros A K dec requires_grad ck model_name conversion_table reordered st Hp Hnd.
  assert (Hnd' : NoDup (map fst reordered)).
  { eapply Permutation_NoDup; [|exact Hnd]. now apply Permutation_map. }
  assert (Hiff : (exists st', load_param dec requires_grad ck conversion_table model_name st
                              = (st', None)) <->
                 (exists st', load_param dec requires_grad ck reordered model_name st
                              = (st', None))).
  { rewrite !RunFacts.load_param_ok_iff. split; intros H k sub Hin; apply H.
    - eapply Permutation_in; [apply Permutation_sym, Hp | exact Hin].
    - eapply Permutation_in; [exact Hp | exact Hin]. }
  split.
  - intros st1 H1.
    destruct (proj1 Hiff (ex_intro _ st1 H1)) as [st2 H2].
    exists st2. split; [exact H2|]. intros k.
    destruct (load_param_ok dec requires_grad _ _ _ _ _ Hnd H1) as [In1 Out1].
    destruct (load_param_ok dec requires_grad _ _ _ _ _ Hnd' H2) as [In2 Out2].
    destruct (in_dec dec k (map fst conversion_table)) as [Hk | Hk].
    + apply in_map_iff in Hk as [[k' sub] [<- Hin]]. simpl.
      destruct (In1 k' sub Hin) as (src1 & t1 & Hs1 & Hc1 & _ & <-).
      destruct (In2 k' sub) as (src2 & t2 & Hs2 & Hc2 & _ & <-);
        [eapply Permutation_in; [exact Hp | exact Hin]|].
      congruence.
    + rewrite Out1 by exact Hk. apply Out2.
      intros Hk'. apply Hk.
      eapply Permutation_in; [apply Permutation_sym, Permutation_map, Hp | exact Hk'].
  - intros st1 e H1.
    assert (Hno : forall st2,
               load_param dec requires_grad ck reordered model_name st <> (st2, None)).
    { intros st2 H2.
      destruct (proj2 Hiff (ex_intro _ st2 H2)) as [st' H']. congruence. }
    destruct (load_param dec requires_grad ck reordered model_name st) as [st2 [e'|]].
    + now exists st2, e'.
    + now destruct (Hno st2).
Qed.

Lemma load_param_order_independent_witness :
  exists st2,
    load_param tensor_eq_dec Examples.trainable Examples.stem_bn_checkpoint
      Cases.beta_then_stem "m" Cases.wide_model = (st2, None) /\
    forall k,
      st2 k = fst (load_param tensor_eq_dec Examples.trainable Examples.stem_bn_checkpoint
                     Examples.stem_then_beta "m" Cases.wide_model) k.
Proof.
  destruct (load_param_order_independent nat tensor tensor_eq_dec Examples.trainable
              Examples.stem_bn_checkpoint "m"
              Examples.stem_then_beta Cases.beta_then_stem Cases.wide_model)
    as [Same _].
  - apply perm_swap.
  - unfold Examples.stem_then_beta. simpl.
    repeat constructor; simpl; intuition discriminate.
  - apply Same. vm_compute. reflexivity.
Defined.

(** X7.  Loading twice is loading once: after a run that returns, over
    a table without repeated keys, a second run over the same table and
    checkpoint returns too and leaves every tensor as the first run left
    it. *)
Theorem load_param_idempotent :
  forall (A K : Type) (dec : forall x y : K, {x = y} + {x <> y})
         (requires_grad : K -> bool)
         (ck : @checkpoint A) (model_name : string)
         (conversion_table : list (K * string)) (st st1 : @store A K),
    NoDup (map fst conversion_table) ->
    load_param dec requires_grad ck conversion_table model_name st = (st1, None) ->
    exists st2,
      load_param dec requires_grad ck conversion_table model_name st1 = (st2, None) /\
      forall k, st2 k = st1 k.
Proof.
  intros A K dec requires_grad ck model_name conversion_table st st1 Hnd H1.
  assert (Hshape : forall k, shape (st1 k) = shape (st k)).
  { intros k. pose proof (RunFacts.load_param_shape dec requires_grad ck model_name
                            conversion_table st k) as S.
    now rewrite H1 in S. }
  destruct (proj2 (RunFacts.load_param_ok_iff dec requires_grad ck model_name
                     conversion_table st1)) as [st2 H2].
  { intros k sub Hin.
    destruct (proj1 (RunFacts.load_param_ok_iff dec requires_grad ck model_name
                       conversion_table st) (ex_intro _ st1 H1) k sub Hin)
      as (src & t & ? & ? & Hs & ?).
    exists src, t. repeat split; auto; try tauto. now rewrite Hshape. }
  exists st2. split; [exact H2|]. intros k.
  destruct (load_param_ok dec requires_grad _ _ _ _ _ Hnd H1) as [In1 Out1].
  destruct (load_param_ok dec requires_grad _ _ _ _ _ Hnd H2) as [In2 Out2].
  destruct (in_dec dec k (map fst conversion_table)) as [Hk | Hk].
  - apply in_map_iff in Hk as [[k' sub] [<- Hin]]. simpl.
    destruct (In1 k' sub Hin) as (src1 & t1 & Hs1 & Hc1 & _ & <-).
    destruct (In2 k' sub Hin) as (src2 & t2 & Hs2 & Hc2 & _ & <-).
    congruence.
  - now apply Out2.
Qed.

Lemma load_param_idempotent_witness :
  exists st2,
    load_param tensor_eq_dec Examples.trainable Examples.stem_bn_checkpoint
      Examples.stem_then_beta "m"
      (fst (load_param tensor_eq_dec Examples.trainable Examples.stem_bn_checkpoint
              Examples.stem_then_beta "m" Cases.wide_model)) = (st2, None) /\
    forall k,
      st2 k = fst (load_param tensor_eq_dec Examples.trainable Examples.stem_bn_checkpoint
                     Examples.stem_then_beta "m" Cases.wide_model) k.
Proof.
  apply (load_param_idempotent nat tensor tensor_eq_dec Examples.trainable
           Examples.stem_bn_checkpoint "m" Examples.stem_then_beta
           Cases.wide_model).
  - unfold Examples.stem_then_beta. simpl.
    repeat constructor; simpl; intuition discriminate.
  - vm_compute. reflexivity.
Defined.

(** X8.  When every array of the checkpoint and every tensor of the
    model has as many elements as its shape says, so has every tensor
    after a run of [load_param], whatever the outcome. *)
Theorem load_param_keeps_well_formed :
  forall (A K : Type) (dec : forall x y : K, {x = y} + {x <> y})
         (requires_grad : K -> bool)
         (ck : @checkpoint A) (model_name : string)
         (conversion_table : list (K * string)) (st : @store A K),
    (forall name a, ck name = Some a -> wf a) ->
    (forall k, wf (st k)) ->
    forall k, wf (fst (load_param dec requires_grad ck conversion_table model_name st) k).
Proof. intros A K dec requires_grad ck model_name conversion_table st. apply RunFacts.load_param_wf. Qed.

Lemma load_param_keeps_well_formed_witness :
  wf (fst (load_param tensor_eq_dec Examples.trainable Examples.stem_bn_checkpoint
             Examples.stem_then_beta "m" Cases.wide_model)
          _conv_stem_weight).
Proof.
  apply (load_param_keeps_well_formed nat tensor tensor_eq_dec Examples.trainable
           Examples.stem_bn_checkpoint "m" Examples.stem_then_beta
           Cases.wide_model).
  - intros name a. unfold Examples.stem_bn_checkpoint.
    destruct (String.eqb name "m/stem/conv2d/kernel");
      [intros [= <-]; reflexivity|].
    destruct (String.eqb name "m/stem/tpu_batch_normalization/beta");
      [intros [= <-]; reflexivity | discriminate].
  - intros k. unfold Cases.wide_model. destruct k; reflexivity.
Defined.

(** ** The table as a whole *)

Module TableFacts.
Import Tables.

Section DictMore.
Context {K V : Type}.
Variable dec : forall x y : K, {x = y} + {x <> y}.
Implicit Types (d : @dict K V) (l : list (K * V)).

Lemma set_same : forall d k v,
  NoDup (keys d) -> In (k, v) d -> set dec d k v = d.
Proof.
  induction d as [|[k0 v0] d IH]; intros k v Hnd Hin; simpl in *; [tauto|].
  inversion Hnd as [|? ? Hn Hnd']; subst.
  destruct Hin as [[= -> ->] | Hin].
  - destruct (dec k k); congruence.
  - destruct (dec k k0) as [->|Hne].
    + exfalso. apply Hn. change k0 with (fst (k0, v)). now apply in_map.
    + f_equal. now apply IH.
Qed.

(** Writing again what a dict already holds changes nothing. *)
Lemma fold_set_absorb : forall l d,
  NoDup (keys d) -> (forall kv, In kv l -> In kv d) ->
  fold_left (fun d kv => set dec d (fst kv) (snd kv)) l d = d.
Proof.
  induction l as [|[k v] l IH]; intros d Hnd H; simpl; [reflexivity|].
  rewrite set_same; [|assumption | apply H; now left].
  apply IH; [assumption|]. intros kv Hkv. apply H. now right.
Qed.

(** In a merge, the later display wins. *)
Lemma lookup_of_items_app : forall l1 l2 k,
  lookup dec (of_items dec (l1 ++ l2)) k =
  match lookup dec (of_items dec l2) k with
  | Some v => Some v
  | None => lookup dec (of_items dec l1) k
  end.
Proof.
  intros l1 l2 k. induction l2 as [|[k0 v0] l2 IH] using rev_ind.
  - now rewrite app_nil_r.
  - rewrite app_assoc, !of_items_snoc, !lookup_set.
    destruct (dec k k0); [reflexivity | exact IH].
Qed.

Lemma lookup_Some_In : forall d k v,
  NoDup (keys d) -> (lookup dec d k = Some v <-> In (k, v) d).
Proof.
  intros d k v Hnd. split; [|now apply In_lookup].
  induction d as [|[k0 v0] d IH]; simpl; [discriminate|].
  inversion Hnd; subst.
  destruct (dec k k0) as [->|]; [intros [= ->]; now left | right; auto].
Qed.

Lemma lookup_None : forall d k, lookup dec d k = None <-> ~ In k (keys d).
Proof.
  induction d as [|[k0 v0] d IH]; intros k; simpl; [tauto|].
  destruct (dec k k0) as [->|Hne].
  - split; [discriminate | tauto].
  - rewrite IH. intuition congruence.
Qed.

(** Two dicts that map every key alike have as many entries. *)
Lemma same_lookup_same_length : forall d1 d2,
  NoDup (keys d1) -> NoDup (keys d2) ->
  (forall k, lookup dec d1 k = lookup dec d2 k) ->
  length d1 = length d2.
Proof.
  intros d1 d2 H1 H2 H.
  rewrite <- (length_map fst d1), <- (length_map fst d2).
  apply Permutation_length, NoDup_Permutation; auto.
  intros k. fold (keys d1) (keys d2).
  destruct (in_dec dec k (keys d1)) as [I1|N1];
    destruct (in_dec dec k (keys d2)) as [I2|N2]; try tauto.
  - apply lookup_None in N2. rewrite <- H in N2. now apply lookup_None in N2.
  - apply lookup_None in N1. rewrite H in N1. now apply lookup_None in N1.
Qed.
End DictMore.

Lemma block_displays_cons : forall b bs i,
  block_displays (b :: bs) i = (block_items b i ++ block_displays bs (S i))%list.
Proof. reflexivity. Qed.

Lemma emitted_displays : forall model,
  emitted model =
  (conversion_table_for_weights_outside_blocks
   ++ conversion_table_for_first_block
   ++ block_displays (blocks model) 0)%list.
Proof. reflexivity. Qed.

Lemma In_block_displays : forall bs i k n,
  In (k, n) (block_displays bs i) <->
  exists j b, nth_error bs j = Some b /\ In (k, n) (block_items b (i + j)).
Proof.
  induction bs as [|b0 bs IH]; intros i k n.
  - split; [intros [] | intros ([|j] & b & Hj & _); discriminate].
  - rewrite block_displays_cons, in_app_iff, IH. split.
    + intros [H | (j & b & Hj & H)].
      * exists 0, b0. now rewrite Nat.add_0_r.
      * exists (S j), b. now rewrite Nat.add_succ_r.
    + intros ([|j] & b & Hj & H).
      * left. injection Hj as ->. now rewrite Nat.add_0_r in H.
      * right. exists j, b. now rewrite Nat.add_succ_r in H.
Qed.

Lemma block_displays_nodup : forall bs i, NoDup (keys (block_displays bs i)).
Proof.
  induction bs as [|b bs IH]; intros i; [constructor|].
  rewrite block_displays_cons. unfold keys. rewrite map_app.
  apply NoDup_app; [apply block_items_nodup | apply IH |].
  intros k Hk Hk'.
  apply in_map_iff in Hk as [[k1 n1] [<- H1]].
  apply in_map_iff in Hk' as [[k2 n2] [E H2]]. simpl in E. subst k2.
  destruct (block_items_key _ _ _ _ H1) as [t1 ->].
  apply In_block_displays in H2 as (j & b' & _ & H2).
  destruct (block_items_key _ _ _ _ H2) as [t2 E]. injection E as E _. lia.
Qed.

Lemma outside_key_not_block : forall k n i t,
  In (k, n) conversion_table_for_weights_outside_blocks -> k <> _blocks i t.
Proof.
  intros k n i t H. unfold conversion_table_for_weights_outside_blocks in H.
  cbn [In] in H.
  repeat (destruct H as [[= <- _] | H]; [discriminate|]). destruct H.
Qed.

Lemma outside_displays_nodup : forall bs,
  NoDup (keys (conversion_table_for_weights_outside_blocks
               ++ block_displays bs 0)%list).
Proof.
  intros bs. unfold keys. rewrite map_app.
  apply NoDup_app; [apply outside_blocks_nodup | apply block_displays_nodup |].
  intros k Hk Hk'.
  apply in_map_iff in Hk as [[k1 n1] [<- H1]].
  apply in_map_iff in Hk' as [[k2 n2] [E H2]]. simpl in E. subst k2.
  apply In_block_displays in H2 as (j & b & _ & H2).
  destruct (block_items_key _ _ _ _ H2) as [t ->].
  now apply (outside_key_not_block _ _ (0 + j) t) in H1.
Qed.

Lemma block_items_length : forall b i,
  length (block_items b i) = display_size b.
Proof.
  intros b i. unfold block_items, is_first_block, display_size.
  destruct (has_expand_conv b); reflexivity.
Qed.

Lemma block_displays_length : forall bs i,
  length (block_displays bs i) = list_sum (map display_size bs).
Proof.
  induction bs as [|b bs IH]; intros i; [reflexivity|].
  rewrite block_displays_cons, length_app, block_items_length, IH.
  reflexivity.
Qed.

(** Every target of the first-block display is a target of the display
    the loop writes for block 0, whichever it is. *)
Lemma first_block_keys : forall b k,
  In k (keys conversion_table_for_first_block) ->
  In k (keys (block_items b 0)).
Proof.
  intros b k. unfold block_items, is_first_block.
  destruct (has_expand_conv b); cbn [negb];
    unfold keys, conversion_table_for_first_block,
           conversion_table_block_first, conversion_table_block_expand;
    cbn [map fst In]; intuition.
Qed.
(** The table maps every tensor as the outside display and the loop's
    displays do. *)
Lemma table_lookup_displays : forall model k,
  blocks model <> [] ->
  lookup tensor_eq_dec (of_items tensor_eq_dec (emitted model)) k =
  lookup tensor_eq_dec
    (conversion_table_for_weights_outside_blocks
     ++ block_displays (blocks model) 0)%list k.
Proof.
  intros model k Hne.
  pose proof (outside_displays_nodup (blocks model)) as Hnd.
  rewrite <- (of_items_nodup tensor_eq_dec _ Hnd) at 1.
  rewrite emitted_displays, !lookup_of_items_app.
  destruct (lookup tensor_eq_dec
              (of_items tensor_eq_dec (block_displays (blocks model) 0)) k)
    as [v|] eqn:E; [reflexivity|].
  destruct (blocks model) as [|b0 rest] eqn:Hb; [contradiction|].
  assert (Hk : ~ In k (keys conversion_table_for_first_block)).
  { intros Hk.
    rewrite (of_items_nodup tensor_eq_dec _ (block_displays_nodup _ 0)) in E.
    apply lookup_None in E. apply E.
    rewrite block_displays_cons. unfold keys. rewrite map_app.
    apply in_or_app. left. now apply first_block_keys. }
  rewrite (of_items_nodup tensor_eq_dec _ first_block_nodup).
  apply (proj2 (lookup_None tensor_eq_dec _ k)) in Hk. now rewrite Hk.
Qed.

(** The entries of the table are the pairs of those displays. *)
Lemma table_In_displays : forall model conversion_table k n,
  build_conversion_table model = inr conversion_table ->
  (In (k, n) conversion_table <->
   In (k, n) (conversion_table_for_weights_outside_blocks
              ++ block_displays (blocks model) 0)%list).
Proof.
  intros model conversion_table k n H.
  pose proof (build_conversion_table_nodup _ _ H) as Hnd.
  destruct (blocks model) as [|b0 rest] eqn:Hb.
  - rewrite build_conversion_table_no_blocks in H by assumption. discriminate.
  - rewrite build_conversion_table_emitted in H by (rewrite Hb; discriminate).
    injection H as <-.
    rewrite <- (lookup_Some_In tensor_eq_dec _ k n Hnd).
    rewrite table_lookup_displays, Hb by (rewrite Hb; discriminate).
    apply lookup_Some_In. rewrite <- Hb. apply outside_displays_nodup.
Qed.
End TableFacts.

Import Tables TableFacts.

(** ** Properties of the table [load_efficientnet] builds *)

(** X9.  For a model whose block 0 has no expand convolution, the table
    is exactly the display of the weights outside the blocks followed by
    the display of each block in turn: the twelve stem and head entries
    come first, in the order written, then the entries of block 0, block
    1, and so on.  [load_param] walks the table in that order. *)
Theorem conversion_table_contents :
  forall (model : EfficientNet) (b0 : MBConvBlock) (rest : list MBConvBlock),
    blocks model = b0 :: rest ->
    has_expand_conv b0 = false ->
    build_conversion_table model =
    inr (conversion_table_for_weights_outside_blocks
         ++ block_displays (blocks model) 0)%list.
Proof.
  intros model b0 rest Hb H0.
  rewrite build_conversion_table_emitted by (rewrite Hb; discriminate).
  f_equal. rewrite emitted_displays.
  pose proof (outside_displays_nodup (blocks model)) as Hnd.
  rewrite Hb, block_displays_cons in *.
  assert (E0 : block_items b0 0 = conversion_table_for_first_block).
  { unfold block_items, is_first_block. rewrite H0. apply block_first_0. }
  rewrite E0 in *.
  set (outside := conversion_table_for_weights_outside_blocks) in *.
  set (first := conversion_table_for_first_block) in *.
  set (later := block_displays rest 1) in *.
  rewrite (app_assoc outside first later) in Hnd.
  rewrite (app_assoc outside first (first ++ later)), of_items_app.
  rewrite of_items_nodup.
  2:{ unfold keys in *. rewrite map_app in Hnd.
      now apply NoDup_app_remove_r in Hnd. }
  rewrite fold_left_app.
  rewrite (fold_set_absorb tensor_eq_dec first (outside ++ first)%list).
  - rewrite fold_set_nodup by exact Hnd. now rewrite <- app_assoc.
  - unfold keys in *. rewrite map_app in Hnd.
    now apply NoDup_app_remove_r in Hnd.
  - intros kv Hkv. apply in_or_app. now right.
Qed.

Lemma conversion_table_contents_witness :
  build_conversion_table Examples.three_blocks =
  inr (conversion_table_for_weights_outside_blocks
       ++ block_displays (blocks Examples.three_blocks) 0)%list.
Proof.
  apply (conversion_table_contents Examples.three_blocks
           {| has_expand_conv := false |}
           [ {| has_expand_conv := true |}; {| has_expand_conv := true |} ]);
    reflexivity.
Defined.

(** X10.  For every model with at least one block, also one whose block
    0 has an expand convolution, the table maps each tensor to the name
    the outside display or the loop's display of its block gives it: what
    the dedicated first-block display wrote is kept or replaced by the
    loop at [i = 0], never left wrong.  The table has 12 entries plus 14
    for each block without, and 19 for each block with, an expand
    convolution. *)
Theorem first_block_display_redundant :
  forall (model : EfficientNet),
    blocks model <> [] ->
    exists conversion_table,
      build_conversion_table model = inr conversion_table /\
      (forall k,
          lookup tensor_eq_dec conversion_table k =
          lookup tensor_eq_dec
            (conversion_table_for_weights_outside_blocks
             ++ block_displays (blocks model) 0)%list k) /\
      length conversion_table = 12 + list_sum (map display_size (blocks model)).
Proof.
  intros model Hb.
  exists (of_items tensor_eq_dec (emitted model)).
  split; [now apply build_conversion_table_emitted|].
  pose proof (outside_displays_nodup (blocks model)) as Hnd.
  assert (Hlook := fun k => table_lookup_displays model k Hb).
  split; [exact Hlook|].
  rewrite (same_lookup_same_length tensor_eq_dec _ _
             (nodup_of_items tensor_eq_dec _) Hnd Hlook).
  now rewrite length_app, block_displays_length.
Qed.

Lemma first_block_display_redundant_witness :
  exists conversion_table,
    build_conversion_table Examples.expanding_first_block = inr conversion_table /\
    (forall k,
        lookup tensor_eq_dec conversion_table k =
        lookup tensor_eq_dec
          (conversion_table_for_weights_outside_blocks
           ++ block_displays (blocks Examples.expanding_first_block) 0)%list k) /\
    length conversion_table =
    12 + list_sum (map display_size (blocks Examples.expanding_first_block)).
Proof.
  apply (first_block_display_redundant Examples.expanding_first_block).
  discriminate.
Defined.

(** ** Names of the checkpoint variables *)

Module NamingFacts.

Lemma str_inj : forall i j, Str.str i = Str.str j -> i = j.
Proof.
  intros i j H. unfold Str.str in H.
  assert (E : Nat.to_uint i = Nat.to_uint j).
  { apply (f_equal DecimalString.NilEmpty.uint_of_string) in H.
    rewrite !DecimalString.NilEmpty.usu in H. now injection H. }
  apply (f_equal Nat.of_uint) in E.
  now rewrite !DecimalNat.Unsigned.of_to in E.
Qed.

Lemma append_inj_l : forall a x y : string, a ++ x = a ++ y -> x = y.
Proof.
  induction a as [|c a IH]; intros x y H; simpl in H; [assumption|].
  injection H as H. now apply IH.
Qed.

(** Two strings cut at the first occurrence of a character agree part
    by part. *)
Lemma app_sep_inj : forall c a a' b b',
  Str.avoids c a = true -> Str.avoids c a' = true ->
  a ++ String c b = a' ++ String c b' -> a = a' /\ b = b'.
Proof.
  intros c. induction a as [|x a IH]; intros [|x' a'] b b' Ha Ha' H;
    simpl in *.
  - injection H as ->. auto.
  - injection H as <- _. rewrite Ascii.eqb_refl in Ha'. discriminate.
  - injection H as -> _. rewrite Ascii.eqb_refl in Ha. discriminate.
  - injection H as -> H.
    apply andb_true_iff in Ha as [_ Ha]. apply andb_true_iff in Ha' as [_ Ha'].
    destruct (IH _ _ _ Ha Ha' H) as [-> ->]. auto.
Qed.

(** The name of a block variable tells the block and the suffix. *)
Lemma block_name_inj : forall i j r r',
  "blocks_" ++ Str.str i ++ String "/" r = "blocks_" ++ Str.str j ++ String "/" r' ->
  i = j /\ r = r'.
Proof.
  intros i j r r' H. apply append_inj_l in H.
  apply app_sep_inj in H as [E ->]; [| now apply str_digits ..].
  split; [now apply str_inj | reflexivity].
Qed.

Lemma block_items_suffixes : forall b i,
  block_items b i =
  map (fun tr => (_blocks i (fst tr), "blocks_" ++ Str.str i ++ snd tr))
      (suffixes b).
Proof.
  intros b i. unfold block_items, suffixes.
  destruct (is_first_block b); reflexivity.
Qed.

(** Every suffix starts with ["/"], and what follows selects the branch
    of the layer the tensor belongs to. *)
Lemma suffix_branch : forall b t r,
  In (t, r) (suffixes b) ->
  exists r', r = String "/" r' /\ forall i, branch_of r' = layer_branch (_blocks i t).
Proof.
  intros b t r. unfold suffixes.
  destruct (is_first_block b);
    [unfold first_suffixes | unfold expand_suffixes];
    cbn [In]; intros H;
    repeat (destruct H as [[= <- <-] | H];
            [eexists; split; [reflexivity | intros; reflexivity]|]);
    destruct H.
Qed.

(** A list whose second components are pairwise distinct pairs each of
    them with one first component. *)
Lemma values_nodup_inj : forall (X Y : Type) (l : list (X * Y)) x1 x2 y,
  NoDup (map snd l) -> In (x1, y) l -> In (x2, y) l -> x1 = x2.
Proof.
  intros X Y. induction l as [|[x0 y0] l IH]; intros x1 x2 y Hnd H1 H2;
    [destruct H1|].
  simpl in Hnd. inversion Hnd as [|? ? Hn Hnd']; subst.
  destruct H1 as [E1 | H1]; destruct H2 as [E2 | H2].
  - congruence.
  - exfalso. injection E1 as _ ->. apply Hn.
    change y with (snd (x2, y)). now apply in_map.
  - exfalso. injection E2 as _ ->. apply Hn.
    change y with (snd (x1, y)). now apply in_map.
  - now apply (IH x1 x2 y).
Qed.

Ltac distinct_names :=
  cbn [map snd];
  repeat (constructor; [cbn [In]; intuition discriminate|]); constructor.

Lemma outside_names_nodup :
  NoDup (map snd conversion_table_for_weights_outside_blocks).
Proof. unfold conversion_table_for_weights_outside_blocks. distinct_names. Qed.

Lemma suffixes_nodup : forall b, NoDup (map snd (suffixes b)).
Proof.
  intros b. unfold suffixes.
  destruct (is_first_block b);
    [unfold first_suffixes | unfold expand_suffixes]; distinct_names.
Qed.

(** A variable outside the blocks is under ["stem/"] or ["head/"]. *)
Lemma outside_name : forall k n,
  In (k, n) conversion_table_for_weights_outside_blocks ->
  exists r, n = "stem/" ++ r \/ n = "head/" ++ r.
Proof.
  intros k n H. unfold conversion_table_for_weights_outside_blocks in H.
  cbn [In] in H.
  repeat (destruct H as [[= <- <-] | H];
          [eexists; first [left; reflexivity | right; reflexivity]|]).
  destruct H.
Qed.

(** An entry of a block's display: its tensor, its name, its suffix. *)
Lemma block_items_entry : forall b i k n,
  In (k, n) (block_items b i) ->
  exists t r,
    k = _blocks i t /\ n = "blocks_" ++ Str.str i ++ String "/" r /\
    In (t, String "/" r) (suffixes b).
Proof.
  intros b i k n H. rewrite block_items_suffixes in H.
  apply in_map_iff in H as [[t r] [[= <- <-] Hin]].
  destruct (suffix_branch _ _ _ Hin) as [r' [-> _]].
  now exists t, r'.
Qed.

(** In the displays the table is made of, a name names one tensor. *)
Lemma displays_names_inj : forall bs k1 k2 n,
  In (k1, n) (conversion_table_for_weights_outside_blocks
              ++ block_displays bs 0)%list ->
  In (k2, n) (conversion_table_for_weights_outside_blocks
              ++ block_displays bs 0)%list ->
  k1 = k2.
Proof.
  intros bs k1 k2 n H1 H2.
  apply in_app_or in H1 as [H1 | H1]; apply in_app_or in H2 as [H2 | H2].
  - exact (values_nodup_inj _ _ _ _ _ _ outside_names_nodup H1 H2).
  - exfalso. destruct (outside_name _ _ H1) as [r E].
    apply In_block_displays in H2 as (j & b & _ & H2).
    destruct (block_items_entry _ _ _ _ H2) as (t & r' & _ & -> & _).
    destruct E as [E | E]; discriminate.
  - exfalso. destruct (outside_name _ _ H2) as [r E].
    apply In_block_displays in H1 as (j & b & _ & H1).
    destruct (block_items_entry _ _ _ _ H1) as (t & r' & _ & -> & _).
    destruct E as [E | E]; discriminate.
  - apply In_block_displays in H1 as (j1 & b1 & N1 & H1).
    apply In_block_displays in H2 as (j2 & b2 & N2 & H2).
    destruct (block_items_entry _ _ _ _ H1) as (t1 & r1 & -> & En1 & S1).
    destruct (block_items_entry _ _ _ _ H2) as (t2 & r2 & -> & En2 & S2).
    rewrite En1 in En2. apply block_name_inj in En2 as [Ej ->].
    simpl in Ej. subst j2. rewrite N1 in N2. injection N2 as <-.
    f_equal.
    exact (values_nodup_inj _ _ _ _ _ _ (suffixes_nodup b1) S1 S2).
Qed.

(** Under a model name without the three words, every entry of the
    displays selects the branch of the layer its tensor belongs to. *)
Lemma displays_branch : forall model_name bs k n,
  Str.contains "conv" model_name = false ->
  Str.contains "depthwise" model_name = false ->
  Str.contains "kernel" model_name = false ->
  In (k, n) (conversion_table_for_weights_outside_blocks
             ++ block_displays bs 0)%list ->
  branch_of (model_name ++ "/" ++ n) = layer_branch k.
Proof.
  intros model_name bs k n Hc Hd Hk H.
  rewrite branch_of_full_name by assumption.
  apply in_app_or in H as [H | H].
  - unfold conversion_table_for_weights_outside_blocks in H. cbn [In] in H.
    repeat (destruct H as [[= <- <-] | H]; [reflexivity|]). destruct H.
  - apply In_block_displays in H as (j & b & _ & H).
    destruct (block_items_entry _ _ _ _ H) as (t & r & -> & -> & S).
    destruct (suffix_branch _ _ _ S) as (r' & [= <-] & B).
    rewrite branch_of_block_name. apply B.
Qed.
End NamingFacts.

Import NamingFacts.

(** X11.  The table never loads one checkpoint variable into two
    tensors: in every table the builder returns, two entries with the
    same variable name have the same target. *)
Theorem conversion_table_names_distinct :
  forall (model : EfficientNet) (conversion_table : table) k1 k2 n,
    build_conversion_table model = inr conversion_table ->
    In (k1, n) conversion_table ->
    In (k2, n) conversion_table ->
    k1 = k2.
Proof.
  intros model conversion_table k1 k2 n H H1 H2.
  apply (table_In_displays _ _ _ _ H) in H1, H2.
  exact (displays_names_inj _ _ _ _ H1 H2).
Qed.

Lemma conversion_table_names_distinct_witness :
  _blocks 1 _expand_conv_weight = _blocks 1 _expand_conv_weight.
Proof.
  apply (conversion_table_names_distinct Examples.three_blocks
           (conversion_table_for_weights_outside_blocks
            ++ block_displays (blocks Examples.three_blocks) 0)%list
           (_blocks 1 _expand_conv_weight) (_blocks 1 _expand_conv_weight)
           "blocks_1/conv2d/kernel").
  - vm_compute. reflexivity.
  - vm_compute. tauto.
  - vm_compute. tauto.
Defined.

(** X12.  Under a model name that contains none of ["conv"],
    ["depthwise"], ["kernel"], the name tests of lines 32-37 give every
    entry of the table the layout change of the layer its target belongs
    to: the weights of the stem, head, expand, project and squeeze-excite
    convolutions are transposed by (3,2,0,1), the depthwise weight of
    each block is transposed by (3,2,0,1) and then by (1,0,2,3), the
    weight of the final linear layer gets the transpose without axes, and
    every bias and batch-norm tensor is left as fetched. *)
Theorem conversion_table_branches :
  forall (A : Type) (model : EfficientNet) (conversion_table : table)
         (model_name : string) k n (tf_param : ndarray A),
    build_conversion_table model = inr conversion_table ->
    Str.contains "conv" model_name = false ->
    Str.contains "depthwise" model_name = false ->
    Str.contains "kernel" model_name = false ->
    In (k, n) conversion_table ->
    branch_of (model_name ++ "/" ++ n) = layer_branch k /\
    convert (model_name ++ "/" ++ n) tf_param =
    match layer_branch k with
    | ConvKernel =>
        match transpose tf_param [3; 2; 0; 1] with
        | Some t => inr t
        | None => inl ValueError
        end
    | DepthwiseKernel =>
        match transpose tf_param [3; 2; 0; 1] with
        | Some t =>
            match transpose t [1; 0; 2; 3] with
            | Some t' => inr t'
            | None => inl ValueError
            end
        | None => inl ValueError
        end
    | DenseKernel => inr (transpose_default tf_param)
    | Plain => inr tf_param
    end.
Proof.
  intros A model conversion_table model_name k n tf_param H Hc Hd Hk Hin.
  apply (table_In_displays _ _ _ _ H) in Hin.
  assert (B : branch_of (model_name ++ "/" ++ n) = layer_branch k)
    by (now apply (displays_branch model_name (blocks model))).
  split; [exact B|].
  rewrite convert_branch, B.
  destruct (layer_branch k); reflexivity.
Qed.

Lemma conversion_table_branches_witness :
  convert ("efficientnet-b0" ++ "/" ++ "blocks_2/depthwise_conv2d/depthwise_kernel")
    Examples.depthwise_kernel =
  inr (permute [1; 0; 2; 3] (permute [3; 2; 0; 1] Examples.depthwise_kernel)).
Proof.
  destruct (conversion_table_branches nat Examples.three_blocks
              (conversion_table_for_weights_outside_blocks
               ++ block_displays (blocks Examples.three_blocks) 0)%list
              "efficientnet-b0" (_blocks 2 _depthwise_conv_weight)
              "blocks_2/depthwise_conv2d/depthwise_kernel"
              Examples.depthwise_kernel) as [_ C].
  - vm_compute. reflexivity.
  - reflexivity.
  - reflexivity.
  - reflexivity.
  - vm_compute. tauto.
  - rewrite C. reflexivity.
Defined.

(** ** Properties of [load_efficientnet] *)

Module ConversionFacts.
Section Conversion.
Context {A K : Type}.
Variable dec : forall x y : K, {x = y} + {x <> y}.
Variable requires_grad : K -> bool.

Lemma load_entry_not_index_error :
  forall (ck : @checkpoint A) model_name (st st' : @store A K) entry,
    load_entry dec requires_grad ck model_name st entry <> (st', Some IndexError).
Proof.
  intros ck model_name st st' [k sub] H. unfold load_entry in H.
  destruct (ck _) as [src|]; [|discriminate].
  destruct (convert _ src) as [e|t] eqn:Hc.
  - apply RunFacts.convert_raises in Hc as (-> & _). discriminate.
  - destruct (tuple_eqb _ _); [|discriminate].
    apply copy_exn in H as (_ & [[? _] | [? _]]); discriminate.
Qed.

Lemma load_param_not_index_error :
  forall (ck : @checkpoint A) model_name tbl (st st' : @store A K),
    load_param dec requires_grad ck tbl model_name st <> (st', Some IndexError).
Proof.
  intros ck model_name tbl st st' H.
  destruct (load_param_exn dec requires_grad _ _ _ _ _ _ H) as (pre & entry & post & _ & _ & E).
  now apply load_entry_not_index_error in E.
Qed.
End Conversion.
End ConversionFacts.

(** X13.  After a call of [load_efficientnet] that returns, under a
    model name without ["conv"], ["depthwise"], ["kernel"], the table
    returned is the one built, and every tensor it names holds its own
    checkpoint variable in PyTorch layout: a convolution weight is the
    variable transposed by (3,2,0,1), a depthwise weight that transpose
    with its first two axes swapped, the weight of the final linear layer
    the matrix transpose, and a bias or batch-norm tensor the variable as
    stored; its shape is the shape it had before, and every tensor the
    table does not name is untouched. *)
Theorem load_efficientnet_postcondition :
  forall (A : Type) (model : EfficientNet) (ck : @checkpoint A)
         (model_name : string) (st st' : @store A tensor)
         (conversion_table : table),
    Str.contains "conv" model_name = false ->
    Str.contains "depthwise" model_name = false ->
    Str.contains "kernel" model_name = false ->
    load_efficientnet model ck model_name st = (st', inr conversion_table) ->
    build_conversion_table model = inr conversion_table /\
    (forall k n, In (k, n) conversion_table ->
       exists src,
         ck (model_name ++ "/" ++ n) = Some src /\
         shape (st' k) = shape (st k) /\
         match layer_branch k with
         | ConvKernel => transpose src [3; 2; 0; 1] = Some (st' k)
         | DepthwiseKernel =>
             exists t, transpose src [3; 2; 0; 1] = Some t /\
                       transpose t [1; 0; 2; 3] = Some (st' k)
         | DenseKernel => st' k = transpose_default src
         | Plain => st' k = src
         end) /\
    (forall k, ~ In k (keys conversion_table) -> st' k = st k).
Proof.
  intros A model ck model_name st st' conversion_table Hc Hd Hk Hrun.
  destruct (load_efficientnet_ok A _ _ _ _ _ _ Hrun) as [Hbuild Hload].
  pose proof (build_conversion_table_nodup _ _ Hbuild) as Hnd.
  destruct (load_param_ok tensor_eq_dec _ _ _ _ _ _ Hnd Hload) as [Hin Hout].
  repeat apply conj; [exact Hbuild | | exact Hout].
  intros k n Hkn.
  destruct (Hin k n Hkn) as (src & t & Hsrc & Hconv & Hs & Ht).
  exists src. split; [exact Hsrc|]. split; [congruence|].
  assert (B : branch_of (model_name ++ "/" ++ n) = layer_branch k).
  { apply (displays_branch model_name (blocks model)); auto.
    now apply (table_In_displays _ _ _ _ Hbuild). }
  rewrite convert_branch, B in Hconv.
  destruct (layer_branch k).
  - destruct (transpose src [3; 2; 0; 1]); [|discriminate]. congruence.
  - destruct (transpose src [3; 2; 0; 1]) as [t1|]; [|discriminate].
    exists t1. split; [reflexivity|].
    destruct (transpose t1 [1; 0; 2; 3]); [|discriminate]. congruence.
  - congruence.
  - congruence.
Qed.

Lemma load_efficientnet_postcondition_witness :
  exists st' conversion_table,
    load_efficientnet Examples.three_blocks Examples.tiny_checkpoint "m"
      Examples.tiny_model = (st', inr conversion_table) /\
    build_conversion_table Examples.three_blocks = inr conversion_table /\
    (forall k n, In (k, n) conversion_table ->
       exists src,
         Examples.tiny_checkpoint ("m" ++ "/" ++ n) = Some src /\
         shape (st' k) = shape (Examples.tiny_model k) /\
         match layer_branch k with
         | ConvKernel => transpose src [3; 2; 0; 1] = Some (st' k)
         | DepthwiseKernel =>
             exists t, transpose src [3; 2; 0; 1] = Some t /\
                       transpose t [1; 0; 2; 3] = Some (st' k)
         | DenseKernel => st' k = transpose_default src
         | Plain => st' k = src
         end) /\
    (forall k, ~ In k (keys conversion_table) -> st' k = Examples.tiny_model k).
Proof.
  destruct (load_efficientnet Examples.three_blocks Examples.tiny_checkpoint
              "m" Examples.tiny_model) as [st' [e | conversion_table]] eqn:Run;
    [vm_compute in Run; discriminate|].
  exists st', conversion_table. split; [reflexivity|].
  apply (load_efficientnet_postcondition nat Examples.three_blocks
           Examples.tiny_checkpoint "m" Examples.tiny_model st'
           conversion_table);
    [reflexivity | reflexivity | reflexivity | exact Run].
Defined.

(** X14.  [load_efficientnet] raises [IndexError] exactly when the model
    has no blocks, and then before anything is read from the checkpoint
    or written to the model; a model with a block can only fail with an
    exception of [load_param]. *)
Theorem load_efficientnet_index_error :
  forall (A : Type) (model : EfficientNet) (ck : @checkpoint A)
         (model_name : string) (st : @store A tensor),
    (blocks model = [] ->
     load_efficientnet model ck model_name st = (st, inl IndexError)) /\
    (forall st',
        load_efficientnet model ck model_name st = (st', inl IndexError) ->
        blocks model = []).
Proof.
  intros A model ck model_name st. split.
  - intros Hb. unfold load_efficientnet.
    now rewrite build_conversion_table_no_blocks.
  - intros st' H. unfold load_efficientnet in H.
    destruct (blocks model) as [|b bs] eqn:Hb; [reflexivity|].
    rewrite build_conversion_table_emitted in H by (rewrite Hb; discriminate).
    destruct (load_param tensor_eq_dec (requires_grad model) ck _ model_name st)
      as [st1 [e|]] eqn:L; [|discriminate].
    injection H as <- ->.
    now apply ConversionFacts.load_param_not_index_error in L.
Qed.

(** ** [np.transpose] without axes, at every rank *)

Module ReverseFacts.

Lemma in_bounds_rev : forall sh j, in_bounds sh j -> in_bounds (rev sh) (rev j).
Proof.
  unfold in_bounds. intros sh j H. induction H as [|i n j sh Hi _ IH]; simpl.
  - constructor.
  - apply Forall2_app; [exact IH | now repeat constructor].
Qed.

Lemma tabulate_nth : forall (sh : list nat),
  map (fun s => nth s sh 0) (seq 0 (length sh)) = sh.
Proof.
  intros sh. apply nth_ext with (d := 0) (d' := 0).
  - now rewrite length_map, length_seq.
  - intros t Ht. rewrite length_map, length_seq in Ht.
    rewrite nth_indep with (d' := (fun s => nth s sh 0) 0)
      by (now rewrite length_map, length_seq).
    rewrite map_nth with (f := fun s => nth s sh 0).
    now rewrite seq_nth.
Qed.

Lemma index_of_reversed : forall n s,
  s < n -> index_of s (rev (seq 0 n)) = n - S s.
Proof.
  intros n s Hs.
  destruct (index_of_spec s (rev (seq 0 n))) as [Hlt Hnth].
  { apply -> in_rev. apply in_seq. lia. }
  rewrite length_rev, length_seq in Hlt.
  rewrite rev_nth in Hnth by (rewrite length_seq; exact Hlt).
  rewrite length_seq, seq_nth in Hnth by lia. lia.
Qed.

Lemma permute_shape_reversed : forall sh,
  permute_shape (rev (seq 0 (length sh))) sh = rev sh.
Proof.
  intros sh. unfold permute_shape. rewrite map_rev. f_equal.
  apply tabulate_nth.
Qed.

Lemma source_index_reversed : forall n j,
  length j = n -> source_index (rev (seq 0 n)) j = rev j.
Proof.
  intros n j Hj. unfold source_index. rewrite length_rev, length_seq.
  apply nth_ext with (d := 0) (d' := 0).
  - now rewrite length_map, length_seq, length_rev.
  - intros t Ht. rewrite length_map, length_seq in Ht.
    rewrite nth_indep
      with (d' := (fun s => nth (index_of s (rev (seq 0 n))) j 0) 0)
      by (now rewrite length_map, length_seq).
    rewrite map_nth with (f := fun s => nth (index_of s (rev (seq 0 n))) j 0).
    rewrite seq_nth by exact Ht. cbn [Nat.add].
    rewrite index_of_reversed by exact Ht.
    rewrite rev_nth by (rewrite Hj; exact Ht). now rewrite Hj.
Qed.

Section Reverse.
Context {A : Type}.
Implicit Types a : ndarray A.

(** The array [np.transpose(a)] is, at any rank. *)
Lemma transpose_default_spec : forall a,
  wf a ->
  wf (transpose_default a) /\
  shape (transpose_default a) = rev (shape a) /\
  forall j, in_bounds (rev (shape a)) j ->
            get (transpose_default a) j = get a (rev j).
Proof.
  intros a Hwf. unfold transpose_default.
  destruct (permute_spec (rev (seq 0 (ndim a))) a Hwf (RunFacts.is_axes_reversed _))
    as [W G].
  assert (S : shape (permute (rev (seq 0 (ndim a))) a) = rev (shape a))
    by apply permute_shape_reversed.
  repeat split; auto.
  intros j Hj. rewrite G by (now rewrite S).
  f_equal. apply source_index_reversed.
  apply in_bounds_ravel in Hj as [k Hk].
  pose proof (ravel_in_bounds _ _ _ Hk) as Hb.
  unfold in_bounds in Hb. apply Forall2_length in Hb.
  rewrite Hb, length_rev. reflexivity.
Qed.

Lemma transpose_default_involutive : forall a,
  wf a -> transpose_default (transpose_default a) = a.
Proof.
  intros a Hwf.
  destruct (transpose_default_spec a Hwf) as (W1 & S1 & G1).
  destruct (transpose_default_spec _ W1) as (W2 & S2 & G2).
  apply ndarray_ext; auto.
  - now rewrite S2, S1, rev_involutive.
  - intros j Hj. rewrite S2, S1, rev_involutive in Hj.
    rewrite G2 by (now rewrite S1, rev_involutive).
    rewrite G1 by (now apply in_bounds_rev).
    now rewrite rev_involutive.
Qed.
End Reverse.
End ReverseFacts.

(** X15.  The transpose the loader gives a name that only ends in
    ["kernel"] works at every rank, not only on matrices: the shape is
    reversed, the element at an index is the source's element at the
    reversed index, and transposing the result again gives the source
    back, so nothing of the variable is lost. *)
Theorem transpose_default_any_rank :
  forall (A : Type) (a : ndarray A),
    wf a ->
    shape (transpose_default a) = rev (shape a) /\
    (forall j, in_bounds (rev (shape a)) j ->
               get (transpose_default a) j = get a (rev j)) /\
    transpose_default (transpose_default a) = a.
Proof.
  intros A a Hwf.
  destruct (ReverseFacts.transpose_default_spec a Hwf) as (_ & S & G).
  repeat split; auto.
  now apply ReverseFacts.transpose_default_involutive.
Qed.

Lemma transpose_default_any_rank_witness :
  shape (transpose_default Cases.cube) = rev (shape Cases.cube) /\
  (forall j, in_bounds (rev (shape Cases.cube)) j ->
             get (transpose_default Cases.cube) j = get Cases.cube (rev j)) /\
  transpose_default (transpose_default Cases.cube) = Cases.cube.
Proof.
  apply (transpose_default_any_rank nat Cases.cube). reflexivity.
Defined.

(** ** Properties of the program *)

(** X16.  The program writes its output file only after the conversion
    has returned.  It never touches another file.  When it ends without
    an exception, the output file holds the tensors [load_efficientnet]
    left and the two messages were printed, in order.  When the table has
    an entry whose variable the checkpoint lacks, the program ends with
    an exception, the disk is as it was and nothing was printed. *)
Theorem main_writes_after_conversion :
  forall (A : Type) (build_model : string -> EfficientNet * @store A tensor)
         (checkpoints : string -> @checkpoint A)
         (args : Driver.Namespace) (d : @Driver.disk A)
         (model : EfficientNet) (st : @store A tensor),
    build_model (Driver.model_name args) = (model, st) ->
    (forall path,
        path <> Driver.output_file args ->
        fst (fst (Driver.main build_model checkpoints args d)) path = d path) /\
    (forall d' out,
        Driver.main build_model checkpoints args d = (d', out, None) ->
        exists st' conversion_table,
          load_efficientnet model (checkpoints (Driver.tf_checkpoint args))
            (Driver.model_name args) st = (st', inr conversion_table) /\
          d' (Driver.output_file args) = Some st' /\
          out = ["Loaded TF checkpoint weights";
                 "Saved model to " ++ Driver.output_file args]) /\
    (forall conversion_table k n,
        build_conversion_table model = inr conversion_table ->
        In (k, n) conversion_table ->
        checkpoints (Driver.tf_checkpoint args)
          (Driver.model_name args ++ "/" ++ n) = None ->
        exists e, Driver.main build_model checkpoints args d = (d, [], Some e)).
Proof.
  intros A build_model checkpoints args d model st Hbuild.
  unfold Driver.main. rewrite Hbuild. repeat apply conj.
  - intros path Hp.
    destruct (load_efficientnet model _ _ st) as [st' [e | t]]; [reflexivity|].
    simpl. unfold Driver.save.
    destruct (String.eqb_spec path (Driver.output_file args)); congruence.
  - intros d' out H.
    destruct (load_efficientnet model _ _ st) as [st' [e | t]]; [discriminate|].
    injection H as <- <-. exists st', t. repeat split.
    unfold Driver.save. now rewrite String.eqb_refl.
  - intros conversion_table k n Htable Hin Hmiss.
    destruct (load_efficientnet model _ _ st) as [st' [e | t]] eqn:Run;
      [now exists e|].
    exfalso.
    destruct (load_efficientnet_ok A _ _ _ _ _ _ Run) as [Hb Hload].
    rewrite Htable in Hb. injection Hb as <-.
    destruct (proj1 (RunFacts.load_param_ok_iff tensor_eq_dec (requires_grad model) _ _ _ _)
                (ex_intro _ st' Hload) k n Hin) as (src & _ & Hsrc & _).
    congruence.
Qed.

Lemma main_writes_after_conversion_witness :
  exists e,
    Driver.main (fun _ => (Examples.three_blocks, Examples.tiny_model))
      (fun _ => Examples.stem_checkpoint) Driver.defaults (fun _ => None) =
    (fun _ => None, [], Some e).
Proof.
  destruct (main_writes_after_conversion nat
              (fun _ => (Examples.three_blocks, Examples.tiny_model))
              (fun _ => Examples.stem_checkpoint) Driver.defaults
              (fun _ => None) Examples.three_blocks Examples.tiny_model)
    as (_ & _ & Missing); [reflexivity|].
  apply (Missing (conversion_table_for_weights_outside_blocks
                  ++ block_displays (blocks Examples.three_blocks) 0)%list
                 _fc_bias "head/dense/bias").
  - vm_compute. reflexivity.
  - vm_compute. tauto.
  - reflexivity.
Defined.

(** ** Further properties of the conversion of one variable and of a run *)

(** X17.  The layout change of lines 32-37 raises in one case only: the
    name contains both ["conv"] and ["kernel"] and the array does not have
    rank 4; the exception is then numpy's [ValueError].  On a rank-4
    array, and on every array under any other name, it returns. *)
Theorem convert_raises_iff :
  forall (A : Type) (tf_param_name : string) (tf_param : ndarray A) (e : exn),
    convert tf_param_name tf_param = inl e <->
    e = ValueError /\
    Str.contains "conv" tf_param_name && Str.contains "kernel" tf_param_name
      = true /\
    ndim tf_param <> 4.
Proof. intros. apply RunFacts.convert_raises. Qed.

(** X18.  A run of [load_param] reads the checkpoint only at the full
    names of the entries of its table: two checkpoints that agree on
    those names give the same outcome and the same model. *)
Theorem load_param_reads_named_variables :
  forall (A K : Type) (dec : forall x y : K, {x = y} + {x <> y})
         (requires_grad : K -> bool)
         (ck1 ck2 : @checkpoint A) (model_name : string)
         (conversion_table : list (K * string)) (st : @store A K),
    (forall k sub, In (k, sub) conversion_table ->
       ck1 (model_name ++ "/" ++ sub) = ck2 (model_name ++ "/" ++ sub)) ->
    load_param dec requires_grad ck1 conversion_table model_name st =
    load_param dec requires_grad ck2 conversion_table model_name st.
Proof.
  intros A K dec requires_grad ck1 ck2 model_name conversion_table.
  induction conversion_table as [|[k0 sub0] rest IH]; intros st H;
    [reflexivity|].
  rewrite !load_param_cons.
  assert (E : load_entry dec requires_grad ck1 model_name st (k0, sub0) =
              load_entry dec requires_grad ck2 model_name st (k0, sub0)).
  { unfold load_entry. rewrite (H k0 sub0) by (now left). reflexivity. }
  rewrite E.
  destruct (load_entry dec requires_grad ck2 model_name st (k0, sub0)) as [st1 [e|]];
    [reflexivity|].
  apply IH. intros k sub Hin. apply (H k sub). now right.
Qed.

Lemma load_param_reads_named_variables_witness :
  load_param tensor_eq_dec Examples.trainable Examples.stem_checkpoint
    [(_conv_stem_weight, "stem/conv2d/kernel")] "m" Cases.wide_model =
  load_param tensor_eq_dec Examples.trainable Examples.stem_bn_checkpoint
    [(_conv_stem_weight, "stem/conv2d/kernel")] "m" Cases.wide_model.
Proof.
  apply (load_param_reads_named_variables nat tensor tensor_eq_dec Examples.trainable
           Examples.stem_checkpoint Examples.stem_bn_checkpoint "m"
           [(_conv_stem_weight, "stem/conv2d/kernel")] Cases.wide_model).
  intros k sub [[= <- <-] | []]. reflexivity.
Defined.

(** X19.  [load_efficientnet] returns exactly when the model has a
    block and every entry of the table it builds has its variable in the
    checkpoint, the variable converts, the converted array has the shape
    of its target, and line 40 takes it: it is an array, not a scalar, of
    a dtype PyTorch has, and floating point when the target requires
    gradients; what it returns is that table. *)
Theorem load_efficientnet_returns_iff :
  forall (A : Type) (model : EfficientNet) (ck : @checkpoint A)
         (model_name : string) (st : @store A tensor)
         (conversion_table : table),
    (exists st',
        load_efficientnet model ck model_name st = (st', inr conversion_table)) <->
    (build_conversion_table model = inr conversion_table /\
     forall k n, In (k, n) conversion_table ->
       exists src t,
         ck (model_name ++ "/" ++ n) = Some src /\
         convert (model_name ++ "/" ++ n) src = inr t /\
         shape (st k) = shape t /\
         ndim t <> 0 /\
         has_torch_dtype (dtype t) = true /\
         (requires_grad model k = true ->
          is_floating_point (dtype t) = true)).
Proof.
  intros A model ck model_name st conversion_table. split.
  - intros [st' H].
    destruct (load_efficientnet_ok A _ _ _ _ _ _ H) as [Hb Hl].
    split; [exact Hb|].
    apply (proj1 (RunFacts.load_param_ok_iff tensor_eq_dec
                    (requires_grad model) ck model_name conversion_table st)).
    now exists st'.
  - intros [Hb H].
    destruct (proj2 (RunFacts.load_param_ok_iff tensor_eq_dec
                       (requires_grad model) ck model_name conversion_table st)
                    H) as [st' Hl].
    exists st'. unfold load_efficientnet. now rewrite Hb, Hl.
Qed.

(** ** Line 40 *)

(** X20.  Once the entries before an entry are loaded and the converted
    variable of that entry has passed the shape assertion, line 40
    decides: a scalar, or an array of a dtype PyTorch has no tensor type
    for, ends the run with [TypeError]; an array that is not floating
    point, for a target that requires gradients, ends it with
    [RuntimeError]; in both cases the model is as the earlier entries
    left it.  Anything else is written to the target and the run goes on
    with the entries after it. *)
Theorem copy_after_assertion :
  forall (A K : Type) (dec : forall x y : K, {x = y} + {x <> y})
         (requires_grad : K -> bool)
         (ck : @checkpoint A) (model_name : string) (st st1 : @store A K)
         (pre post : list (K * string)) (pyt_param : K) (sub : string)
         (src t : ndarray A),
    load_param dec requires_grad ck pre model_name st = (st1, None) ->
    ck (model_name ++ "/" ++ sub) = Some src ->
    convert (model_name ++ "/" ++ sub) src = inr t ->
    shape (st1 pyt_param) = shape t ->
    load_param dec requires_grad ck (pre ++ (pyt_param, sub) :: post)%list
      model_name st =
    if Nat.eqb (ndim t) 0 || negb (has_torch_dtype (dtype t))
    then (st1, Some TypeError)
    else if requires_grad pyt_param && negb (is_floating_point (dtype t))
         then (st1, Some RuntimeError)
         else load_param dec requires_grad ck post model_name
                (assign dec st1 pyt_param t).
Proof.
  intros A K dec requires_grad ck model_name st st1 pre post pyt_param sub
         src t Hpre Hck Hc Hs.
  rewrite load_param_app, Hpre, load_param_cons.
  rewrite (load_entry_converted dec requires_grad ck model_name st1
             pyt_param sub src t Hck Hc).
  rewrite Hs, tuple_eqb_refl, copy_spec.
  destruct (Nat.eqb (ndim t) 0 || negb (has_torch_dtype (dtype t)));
    [reflexivity|].
  now destruct (requires_grad pyt_param && negb (is_floating_point (dtype t))).
Qed.

Lemma copy_after_assertion_witness :
  load_param tensor_eq_dec Examples.trainable
    (Examples.single "m/head/dense/bias" Cases.scalar_bias)
    [(_fc_bias, "head/dense/bias"); (_fc_weight, "head/dense/kernel")]
    "m" (Examples.zeros []) =
  (Examples.zeros [], Some TypeError).
Proof.
  apply (copy_after_assertion nat tensor tensor_eq_dec Examples.trainable
           (Examples.single "m/head/dense/bias" Cases.scalar_bias) "m"
           (Examples.zeros []) (Examples.zeros [])
           [] [(_fc_weight, "head/dense/kernel")]
           _fc_bias "head/dense/bias" Cases.scalar_bias Cases.scalar_bias).
  - reflexivity.
  - reflexivity.
  - reflexivity.
  - reflexivity.
Defined.

(** X21.  Integer data reaches only the tensors that do not require
    gradients.  For an entry whose converted variable is an array of an
    integer dtype with the target's shape, the loop body returns exactly
    when the target does not require gradients, and the target then holds
    that array, integer dtype included; for a target that requires
    gradients it raises [RuntimeError] and the target keeps what it
    held. *)
Theorem integer_data_needs_no_grad :
  forall (A K : Type) (dec : forall x y : K, {x = y} + {x <> y})
         (requires_grad : K -> bool)
         (ck : @checkpoint A) (model_name : string) (st : @store A K)
         (pyt_param : K) (sub : string) (src t : ndarray A),
    ck (model_name ++ "/" ++ sub) = Some src ->
    convert (model_name ++ "/" ++ sub) src = inr t ->
    shape (st pyt_param) = shape t ->
    ndim t <> 0 ->
    has_torch_dtype (dtype t) = true ->
    is_floating_point (dtype t) = false ->
    (requires_grad pyt_param = false ->
     load_entry dec requires_grad ck model_name st (pyt_param, sub) =
       (assign dec st pyt_param t, None) /\
     dtype (assign dec st pyt_param t pyt_param) = dtype src) /\
    (requires_grad pyt_param = true ->
     load_entry dec requires_grad ck model_name st (pyt_param, sub) =
       (st, Some RuntimeError)) /\
    ((exists st',
         load_entry dec requires_grad ck model_name st (pyt_param, sub) =
         (st', None)) <->
     requires_grad pyt_param = false).
Proof.
  intros A K dec requires_grad ck model_name st pyt_param sub src t
         Hck Hc Hs Hn Hd Hf.
  assert (L : load_entry dec requires_grad ck model_name st (pyt_param, sub) =
              if requires_grad pyt_param
              then (st, Some RuntimeError)
              else (assign dec st pyt_param t, None)).
  { rewrite (load_entry_converted dec requires_grad ck model_name st
               pyt_param sub src t Hck Hc).
    rewrite Hs, tuple_eqb_refl, copy_array by exact Hn.
    rewrite Hd, Hf. now destruct (requires_grad pyt_param). }
  assert (Hdt : dtype t = dtype src).
  { unfold convert in Hc.
    destruct (Str.contains "conv" (model_name ++ "/" ++ sub)
              && Str.contains "kernel" (model_name ++ "/" ++ sub)).
    - unfold transpose in Hc.
      destruct (is_axes (ndim src) [3; 2; 0; 1]); [|discriminate].
      destruct (Str.contains "depthwise" (model_name ++ "/" ++ sub)).
      + destruct (is_axes (ndim (permute [3; 2; 0; 1] src)) [1; 0; 2; 3]);
          [|discriminate].
        now injection Hc as <-.
      + now injection Hc as <-.
    - destruct (Str.endswith (model_name ++ "/" ++ sub) "kernel");
        now injection Hc as <-. }
  split; [|split].
  - intros Hg. rewrite L, Hg. split; [reflexivity|].
    now rewrite assign_same.
  - intros Hg. now rewrite L, Hg.
  - rewrite L. destruct (requires_grad pyt_param).
    + split; [intros [st' H]; discriminate H | discriminate].
    + split; [reflexivity | intros _; now eexists].
Qed.

Lemma integer_data_needs_no_grad_witness :
  (load_entry tensor_eq_dec Examples.trainable
     (fun _ => Some Cases.steps) "m" (Examples.zeros [32])
     (_bn0 running_mean, "stem/tpu_batch_normalization/moving_mean") =
   (assign tensor_eq_dec (Examples.zeros [32]) (_bn0 running_mean) Cases.steps,
    None)) /\
  (load_entry tensor_eq_dec Examples.trainable
     (fun _ => Some Cases.steps) "m" (Examples.zeros [32])
     (_bn0 bias, "stem/tpu_batch_normalization/beta") =
   (Examples.zeros [32], Some RuntimeError)).
Proof.
  split.
  - destruct (integer_data_needs_no_grad nat tensor tensor_eq_dec
                Examples.trainable (fun _ => Some Cases.steps) "m"
                (Examples.zeros [32]) (_bn0 running_mean)
                "stem/tpu_batch_normalization/moving_mean"
                Cases.steps Cases.steps) as (Buffer & _);
      [reflexivity | reflexivity | reflexivity | discriminate
       | reflexivity | reflexivity |].
    now apply Buffer.
  - destruct (integer_data_needs_no_grad nat tensor tensor_eq_dec
                Examples.trainable (fun _ => Some Cases.steps) "m"
                (Examples.zeros [32]) (_bn0 bias)
                "stem/tpu_batch_normalization/beta"
                Cases.steps Cases.steps) as (_ & Grad & _);
      [reflexivity | reflexivity | reflexivity | discriminate
       | reflexivity | reflexivity |].
    now apply Grad.
Defined.
